(** * telegramlibrary: history-tracked, rate-limited transfer scripts

    A shallow embedding of the Python scripts [channel_forwarder.py],
    [pdfuploader.py], [pdfscrapper.py] and [hello.py], and the properties
    of their rate limiters, history stores, entity resolvers and transfer
    loops.

    Conventions of the embedding.
    - Python integers are [Z]; strings are [string] (byte strings: the model
      covers ASCII input, on which [str.isdigit] and [str.lower] are the
      ASCII ones).
    - Wall-clock readings ([time.time()], [datetime.now()]) are [Z], counted
      in microseconds; one second is [second].
    - A dict is a [gmap], a set a [gset].
    - A method of a class is a computation in the monad [M]: it threads the
      object ([self]) and the outside world, and either returns a value or
      raises a Python exception. State changes made before an exception is
      raised are kept, as in Python.
    - The Telegram client, the file system, the scheduler and the terminal
      are the environment: their answers are fields of [Env], indexed by
      the number of interactions made so far, and every interaction is
      appended to the world's [trace].

    What the embedding takes for granted.
    - [asyncio.CancelledError] derives from [BaseException], as it does
      from Python 3.8 on.
    - Each script runs a single task, so the forwarder's lock never waits.
    - A message iterator yields its messages without failing.
    - Time passes only while the script waits for the outside: in sleeps
      and in calls.
    - The history file holds a JSON document or text that is not one; a
      write that fails leaves the file as it was.
    - Of the lines the scripts print, those of [line] are recorded; menus
      and decorations are not.
    - Dead code is left out: [_handle_media_message] and
      [_update_history] of the forwarder are never called. *)

From stdpp Require Import gmap strings list fin_maps pretty.
From Stdlib Require Import ZArith Lia Ascii String.

Open Scope string_scope.
Open Scope Z_scope.

(** ** Python values and exceptions *)

(** The exception classes the scripts raise or catch. [CancelledError] and
    [KeyboardInterrupt] derive from [BaseException] (Python 3.8 and later),
    so [except Exception] does not catch them. *)
Inductive exn_class :=
  | ValueError
  | OSError
  | EOFError
  | IndexError
  | TypeError
  | RPCError
  | CancelledError
  | KeyboardInterrupt.

Record exn := Exn { exn_cls : exn_class; exn_msg : string }.

Definition is_Exception (e : exn) : bool :=
  match exn_cls e with
  | CancelledError | KeyboardInterrupt => false
  | _ => true
  end.

Definition is_ValueError (e : exn) : bool :=
  match exn_cls e with ValueError => true | _ => false end.

Definition is_CancelledError (e : exn) : bool :=
  match exn_cls e with CancelledError => true | _ => false end.

Definition is_KeyboardInterrupt (e : exn) : bool :=
  match exn_cls e with KeyboardInterrupt => true | _ => false end.

Definition is_IndexError (e : exn) : bool :=
  match exn_cls e with IndexError => true | _ => false end.

(** What a call gives back: a value or an exception. *)
Inductive outcome (A : Type) :=
  | Returns (a : A)
  | Raises (e : exn).
Arguments Returns {A} a.
Arguments Raises {A} e.

(** The outcome of running a piece of code: a value, an exception, or
    [Unfinished] when a [while True] loop is still running after the number
    of rounds it was given. *)
Inductive result (A : Type) :=
  | Ok (a : A)
  | Raise (e : exn)
  | Unfinished.
Arguments Ok {A} a.
Arguments Raise {A} e.
Arguments Unfinished {A}.

(** ** Strings as Python uses them *)

Module PyStr.

Definition is_ascii_digit (c : ascii) : bool :=
  let n := nat_of_ascii c in (48 <=? n)%nat && (n <=? 57)%nat.

Fixpoint all_digits (s : string) : bool :=
  match s with
  | EmptyString => true
  | String c s' => is_ascii_digit c && all_digits s'
  end.

(** [str.isdigit()]: non-empty and every character a digit. *)
Definition isdigit (s : string) : bool :=
  match s with
  | EmptyString => false
  | _ => all_digits s
  end.

(** [s.startswith(p)] *)
Fixpoint startswith (p s : string) : bool :=
  match p, s with
  | EmptyString, _ => true
  | String a p', String b s' => if Ascii.eqb a b then startswith p' s' else false
  | String _ _, EmptyString => false
  end.

(** [s.replace(old, new)] for a non-empty [old]: the occurrences of [old]
    are replaced from left to right, without overlap. [skip] counts the
    characters of a matched occurrence still to be passed over. *)
Fixpoint replace_skip (skip : nat) (old new s : string) : string :=
  match s with
  | EmptyString => EmptyString
  | String c s' =>
      match skip with
      | S k => replace_skip k old new s'
      | O =>
          if startswith old s
          then new +:+ replace_skip (String.length old - 1) old new s'
          else String c (replace_skip O old new s')
      end
  end.

Definition replace (old new s : string) : string :=
  replace_skip O old new s.

Fixpoint digits_value (acc : Z) (s : string) : Z :=
  match s with
  | EmptyString => acc
  | String c s' => digits_value (10 * acc + (Z.of_nat (nat_of_ascii c) - 48)) s'
  end.

(** [int(s)] on a string made of digits and minus signs, the only strings
    the scripts pass to it: an optional leading ["-"] and at least one
    digit, anything else raises [ValueError]. *)
Definition int (s : string) : outcome Z :=
  let bad := Raises (Exn ValueError
               ("invalid literal for int() with base 10: '" +:+ s +:+ "'")) in
  match s with
  | String "-" s' => if isdigit s' then Returns (- digits_value 0 s') else bad
  | _ => if isdigit s then Returns (digits_value 0 s) else bad
  end.

(** [str(n)] for an integer. *)
Definition str (n : Z) : string := pretty n.

Definition lower_ascii (c : ascii) : ascii :=
  let n := nat_of_ascii c in
  if (65 <=? n)%nat && (n <=? 90)%nat then ascii_of_nat (n + 32) else c.

(** [s.lower()] *)
Fixpoint lower (s : string) : string :=
  match s with
  | EmptyString => EmptyString
  | String c s' => String (lower_ascii c) (lower s')
  end.

(** [s.split(sep)] for a one-character separator. *)
Fixpoint split_aux (sep : ascii) (cur : string) (s : string) : list string :=
  match s with
  | EmptyString => [String.rev cur]
  | String c s' =>
      if Ascii.eqb c sep
      then String.rev cur :: split_aux sep EmptyString s'
      else split_aux sep (String c cur) s'
  end.

Definition split (sep : ascii) (s : string) : list string :=
  split_aux sep EmptyString s.

(** [s.strip(chars)]: the characters satisfying [p] are removed from
    both ends. *)
Fixpoint lstrip (p : ascii -> bool) (s : string) : string :=
  match s with
  | EmptyString => EmptyString
  | String c s' => if p c then lstrip p s' else s
  end.

Definition strip (p : ascii -> bool) (s : string) : string :=
  String.rev (lstrip p (String.rev (lstrip p s))).

Definition is_alnum (c : ascii) : bool :=
  let n := nat_of_ascii c in
  ((48 <=? n)%nat && (n <=? 57)%nat)
  || ((65 <=? n)%nat && (n <=? 90)%nat)
  || ((97 <=? n)%nat && (n <=? 122)%nat).

Fixpoint filter (p : ascii -> bool) (s : string) : string :=
  match s with
  | EmptyString => EmptyString
  | String c s' => if p c then String c (filter p s') else filter p s'
  end.

(** The part of [s] from its last ["."] on, if it has one. *)
Fixpoint from_last_dot (s : string) : option string :=
  match s with
  | EmptyString => None
  | String c s' =>
      match from_last_dot s' with
      | Some e => Some e
      | None => if Ascii.eqb c "." then Some s else None
      end
  end.

Fixpoint has_char (c : ascii) (s : string) : bool :=
  match s with
  | EmptyString => false
  | String c' s' => Ascii.eqb c c' || has_char c s'
  end.

(** The part of [s] after its last ["/"]. *)
Fixpoint basename (s : string) : string :=
  match s with
  | EmptyString => EmptyString
  | String c s' =>
      if has_char "/" s' then basename s'
      else if Ascii.eqb c "/" then s' else s
  end.

(** [os.path.splitext(p)[1]]: the extension starts at the last dot of the
    base name, and leading dots of the base name do not count. *)
Definition splitext_ext (p : string) : string :=
  default "" (from_last_dot (lstrip (Ascii.eqb ".") (basename p))).

(** Truth value of an optional string: [None] and [""] are false. *)
Definition truthy (o : option string) : bool :=
  match o with
  | Some (String _ _) => true
  | _ => false
  end.

(** [s.endswith(suffix)] *)
Definition endswith (suffix s : string) : bool :=
  startswith (String.rev suffix) (String.rev s).

(** [s.endswith((a, b, ...))] *)
Definition endswith_any (suffixes : list string) (s : string) : bool :=
  existsb (fun suffix => endswith suffix s) suffixes.

(** The ASCII characters that [str.strip()] removes and that [int()]
    ignores at both ends. *)
Definition is_space (c : ascii) : bool :=
  let n := nat_of_ascii c in
  ((9 <=? n)%nat && (n <=? 13)%nat) || ((28 <=? n)%nat && (n <=? 32)%nat).

(** Digits, with single underscores between them. [after_digit] says
    whether the character before was a digit. *)
Fixpoint grouped_digits (after_digit : bool) (s : string) : bool :=
  match s with
  | EmptyString => after_digit
  | String c s' =>
      if is_ascii_digit c then grouped_digits true s'
      else if Ascii.eqb c "_" then after_digit && grouped_digits false s'
      else false
  end.

(** [int(s)] on any ASCII string: white space around, an optional sign,
    and digits that single underscores may group. *)
Definition int_literal (s : string) : outcome Z :=
  let bad := Raises (Exn ValueError
               ("invalid literal for int() with base 10: '" +:+ s +:+ "'")) in
  let t := strip is_space s in
  let value body :=
    if grouped_digits false body
    then Returns (digits_value 0 (filter is_ascii_digit body))
    else bad in
  match t with
  | String "-" body =>
      match value body with
      | Returns n => Returns (- n)
      | Raises e => Raises e
      end
  | String "+" body => value body
  | _ => value t
  end.

(** [l.index(x)]: the first position of [x], or [ValueError]. *)
Fixpoint index (x : string) (l : list string) : outcome nat :=
  match l with
  | [] => Raises (Exn ValueError "value is not in list")
  | y :: l' =>
      if String.eqb y x then Returns O
      else match index x l' with
           | Returns i => Returns (Datatypes.S i)
           | Raises e => Raises e
           end
  end.

End PyStr.

(** ** The outside world *)

(** One second of wall-clock time, in clock units (microseconds). *)
Definition second : Z := 1000000.

(** What [client.get_entity] is asked to resolve: an integer id or a name. *)
Inductive ident :=
  | IdInt (n : Z)
  | IdStr (s : string).

Inductive entity_kind := Channel | Chat | User.

Record entity := Entity {
  ent_id : Z;
  ent_title : string;
  ent_kind : entity_kind
}.

(** [isinstance(entity, (Channel, Chat))] *)
Definition is_channel_or_chat (e : entity) : bool :=
  match ent_kind e with
  | Channel | Chat => true
  | User => false
  end.

(** The document attached to a message: its MIME type and the [file_name]
    of each attribute that has one, in order. *)
Record document := Document {
  mime_type : string;
  file_names : list string
}.

(** A Telegram message as the scripts read it. [msg_media] and [msg_photo]
    say whether [message.media] and [message.photo] are set; [msg_text] may
    be [None] or empty. *)
Record message := Message {
  msg_id : Z;
  msg_media : bool;
  msg_photo : bool;
  msg_text : option string;
  msg_document : option document
}.

(** Lines the scripts print, one constructor per message the properties
    below refer to. *)
Inductive line :=
  | ErrorLoadingHistory (e : exn)
  | ErrorSavingHistory (e : exn)
  | RateLimitWaitCancelled
  | RateLimitError (e : exn)
  | ProcessingMessage (id : Z)
  | CopyingMedia (id : Z)
  | UploadingMedia (target : string)
  | MediaTransferred
  | FailedToDownloadMedia
  | CopyingText (target : string)
  | FailedToSendText
  | NoContentToCopy (id : Z)
  | SuccessfullySent (sent_id : Z) (target : string)
  | FailedToSendMessage
  | ErrorSendingMessage (e : exn)
  | ErrorProcessingMessage (e : exn)
  | ErrorProcessingMessageId (id : Z) (e : exn)
  | ForwardingCancelled
  | ErrorInForwardMessages (e : exn)
  | Progress
  | TargetLastMessage (target : Z)
  | TargetError (target : Z) (e : exn)
  | AddedChannel (title : string)
  | FailedToAdd (name : string) (e : exn)
  | OperationCancelled
  | ProgramInterrupted
  | TopLevelError (e : exn)
  | SessionSaved
  | UploadFailed (filename target : string) (e : exn)
  | Uploaded (filename target : string)
  | Downloaded (filename : string).

(** The interactions of a script with the outside, as recorded in the
    trace. *)
Inductive event :=
  | EvPrint (l : line)
  | EvSleep (duration : Z)
  | EvStart
  | EvDisconnect
  | EvGetEntity (i : ident)
  | EvIterMessages (source : Z) (limit : option Z) (offset_id : Z)
  | EvGetMessages (chat : Z)
  | EvDownloadMedia (id : Z) (path : string)
  | EvSendFile (target : ident) (path : string) (caption : option string)
  | EvSendMessage (target : Z) (text : string)
  | EvDeleteMessages (target : Z)
  | EvExists (path : string)
  | EvGetSize (path : string)
  | EvRemove (path : string)
  | EvReadHistory
  | EvWriteHistory
  | EvPrompt.

(** How a sleep ends: the task wakes [extra] clock units late, or a
    cancellation is delivered [after] clock units. *)
Inductive sleep_answer :=
  | Woke (extra : N)
  | Interrupted (after : N).

(** The environment: the answer of the outside to the [n]-th interaction. *)
Record Env := {
  env_latency : nat -> N;
  env_sleep : nat -> sleep_answer;
  env_start : nat -> outcome unit;
  env_disconnect : nat -> outcome unit;
  env_get_entity : nat -> ident -> outcome entity;
  env_iter_messages : nat -> Z -> option Z -> Z -> list message;
  env_get_messages : nat -> Z -> outcome (list message);
  env_download_media : nat -> message -> string -> outcome (option string);
  env_send_file : nat -> ident -> string -> outcome (option Z);
  env_send_message : nat -> Z -> string -> outcome (option Z);
  env_delete_messages : nat -> Z -> outcome unit;
  env_exists : nat -> string -> bool;
  env_getsize : nat -> string -> outcome Z;
  env_remove : nat -> string -> outcome unit;
  env_write : nat -> outcome unit;
  env_prompt : nat -> outcome string
}.

(** The history file on disk: missing, present but not readable, present
    with text that is not JSON, or holding the JSON document [doc]. *)
Inductive file (D : Type) :=
  | Absent
  | Unreadable
  | NotJson
  | Json (doc : D).
Arguments Absent {D}.
Arguments Unreadable {D}.
Arguments NotJson {D}.
Arguments Json {D} doc.

Record World (D : Type) := {
  env : Env;
  now : Z;
  tick : nat;
  trace : list event;
  history_file : file D
}.
Arguments env {D} w.
Arguments now {D} w.
Arguments tick {D} w.
Arguments trace {D} w.
Arguments history_file {D} w.

(** The state a method runs in: the object and the world. *)
Record St (S D : Type) := {
  self : S;
  world : World D
}.
Arguments self {S D} s.
Arguments world {S D} s.

(** ** The monad of methods *)

Definition M (S D A : Type) : Type := St S D -> result A * St S D.

Section Monad.
Context {S D : Type}.

Definition ret {A} (a : A) : M S D A := fun σ => (Ok a, σ).

Definition bind {A B} (m : M S D A) (k : A -> M S D B) : M S D B :=
  fun σ =>
    match m σ with
    | (Ok a, σ') => k a σ'
    | (Raise e, σ') => (Raise e, σ')
    | (Unfinished, σ') => (Unfinished, σ')
    end.

Definition raise {A} (e : exn) : M S D A := fun σ => (Raise e, σ).

(** A computation that touches neither the object nor the world. *)
Definition lift {A} (r : outcome A) : M S D A :=
  fun σ =>
    match r with
    | Returns a => (Ok a, σ)
    | Raises e => (Raise e, σ)
    end.

(** A loop that has used up its rounds. *)
Definition unfinished {A} : M S D A := fun σ => (Unfinished, σ).

(** [try: m except <catches> as e: h e] *)
Definition try_except {A} (m : M S D A) (catches : exn -> bool)
    (h : exn -> M S D A) : M S D A :=
  fun σ =>
    match m σ with
    | (Ok a, σ') => (Ok a, σ')
    | (Raise e, σ') => if catches e then h e σ' else (Raise e, σ')
    | (Unfinished, σ') => (Unfinished, σ')
    end.

(** [try: m finally: fin]. An exception of [fin] replaces the outcome
    of [m]. *)
Definition try_finally {A} (m : M S D A) (fin : M S D unit) : M S D A :=
  fun σ =>
    match m σ with
    | (Unfinished, σ') => (Unfinished, σ')
    | (r, σ') =>
        match fin σ' with
        | (Ok _, σ'') => (r, σ'')
        | (Raise e, σ'') => (Raise e, σ'')
        | (Unfinished, σ'') => (Unfinished, σ'')
        end
    end.

Definition gets {A} (f : S -> A) : M S D A := fun σ => (Ok (f (self σ)), σ).

Definition modify (f : S -> S) : M S D unit :=
  fun σ => (Ok tt, {| self := f (self σ); world := world σ |}).

Definition with_world (f : World D -> World D) (σ : St S D) : St S D :=
  {| self := self σ; world := f (world σ) |}.

Definition log (ev : event) (w : World D) : World D :=
  {| env := env w; now := now w; tick := tick w;
     trace := trace w ++ [ev]; history_file := history_file w |}.

(** One interaction: it is recorded, takes the time the environment says,
    and moves on to the environment's next answer. *)
Definition advance (ev : event) (w : World D) : World D :=
  {| env := env w;
     now := now w + Z.of_N (env_latency (env w) (tick w));
     tick := Datatypes.S (tick w);
     trace := trace w ++ [ev];
     history_file := history_file w |}.

Definition interact {A} (ev : event) (answer : Env -> nat -> A) : M S D A :=
  fun σ => (Ok (answer (env (world σ)) (tick (world σ))), with_world (advance ev) σ).

(** An interaction that can fail. *)
Definition call {A} (ev : event) (answer : Env -> nat -> outcome A) : M S D A :=
  fun σ =>
    match answer (env (world σ)) (tick (world σ)) with
    | Returns a => (Ok a, with_world (advance ev) σ)
    | Raises e => (Raise e, with_world (advance ev) σ)
    end.

(** [print(...)] and [rprint(...)] *)
Definition say (l : line) : M S D unit :=
  fun σ => (Ok tt, with_world (log (EvPrint l)) σ).

(** [time.time()] and [datetime.now()] *)
Definition time_time : M S D Z := fun σ => (Ok (now (world σ)), σ).

Definition pass_time (d : Z) (ev : event) (w : World D) : World D :=
  {| env := env w; now := now w + d; tick := Datatypes.S (tick w);
     trace := trace w ++ [ev]; history_file := history_file w |}.

(** [await asyncio.sleep(d)]: the task is suspended for at least [d]
    (not at all when [d] is negative), unless it is cancelled meanwhile. *)
Definition asyncio_sleep (d : Z) : M S D unit :=
  fun σ =>
    match env_sleep (env (world σ)) (tick (world σ)) with
    | Woke extra =>
        (Ok tt, with_world (pass_time (Z.max 0 d + Z.of_N extra) (EvSleep d)) σ)
    | Interrupted after =>
        (Raise (Exn CancelledError ""),
         with_world (pass_time (Z.of_N after) (EvSleep d)) σ)
    end.

(** [d] clock units go by while the script does something else. *)
Definition idle (d : Z) : M S D unit :=
  fun σ =>
    (Ok tt,
     with_world (fun w => {| env := env w; now := now w + d; tick := tick w;
                             trace := trace w; history_file := history_file w |}) σ).

(** The events recorded since the trace had [n] events. *)
Definition events_since (n : nat) : M S D (list event) :=
  fun σ => (Ok (skipn n (trace (world σ))), σ).

Definition trace_length : M S D nat :=
  fun σ => (Ok (List.length (trace (world σ))), σ).

(** Reading the history file: [open(path)] then [json.load]. *)
Definition read_history : M S D D :=
  fun σ =>
    let σ' := with_world (advance EvReadHistory) σ in
    match history_file (world σ) with
    | Json doc => (Ok doc, σ')
    | NotJson => (Raise (Exn ValueError "Expecting value"), σ')
    | Unreadable => (Raise (Exn OSError "Permission denied"), σ')
    | Absent => (Raise (Exn OSError "No such file or directory"), σ')
    end.

Definition store (doc : D) (w : World D) : World D :=
  {| env := env w; now := now w; tick := tick w; trace := trace w;
     history_file := Json doc |}.

(** Writing the history file: [open(path, 'w')] then [json.dump]. When
    the environment refuses the write, the file is left as it was. *)
Definition write_history (doc : D) : M S D unit :=
  fun σ =>
    let σ' := with_world (advance EvWriteHistory) σ in
    match env_write (env (world σ)) (tick (world σ)) with
    | Returns _ => (Ok tt, with_world (store doc) σ')
    | Raises e => (Raise e, σ')
    end.

(** [os.path.exists(history_file)] *)
Definition history_exists : M S D bool :=
  fun σ =>
    (Ok (match history_file (world σ) with Absent => false | _ => true end), σ).

(** [for x in xs: acc = body x acc], for a loop that updates local
    variables [acc]. *)
Fixpoint fold_each {A B} (xs : list A) (acc : B) (body : A -> B -> M S D B)
    : M S D B :=
  match xs with
  | [] => ret acc
  | x :: xs' => bind (body x acc) (fun acc' => fold_each xs' acc' body)
  end.

(** [for x in xs: body x] *)
Fixpoint for_each {A} (xs : list A) (body : A -> M S D unit) : M S D unit :=
  match xs with
  | [] => ret tt
  | x :: xs' => bind (body x) (fun _ => for_each xs' body)
  end.

End Monad.

Declare Scope py_scope.
Delimit Scope py_scope with py.
Notation "'let*' x ':=' m 'in' k" := (bind m (fun x => k))
  (at level 10, x name, m at level 100, k at level 200) : py_scope.
Notation "m ';;' k" := (bind m (fun _ => k))
  (at level 100, k at level 200, right associativity) : py_scope.
Open Scope py_scope.

(** ** channel_forwarder.py *)

Module Forwarder.

(** A value of [forward_history]. [forward_message] records a [Sent]
    entry for a message it has sent; [forward_messages] records a [Seen]
    entry for a message it has gone through. Timestamps are clock
    readings. *)
Inductive entry :=
  | Sent (timestamp : Z) (source_channel target_channel : string)
         (source_message_id target_message_id : Z)
  | Seen (timestamp : Z) (source : string) (message_id : Z).

Record Stats := {
  forwarded : Z;
  skipped : Z;
  failed : Z;
  last_message_id : option Z;
  last_update : Z;
  messages_in_window : Z;
  last_print : Z
}.

Record TelegramForwarder := {
  source_channels : list string;
  target_channels : list string;
  forward_history : gmap string entry;
  sources : list entity;
  targets : list entity;
  stats : Stats;
  last_request_time : Z;
  requests_in_window : Z
}.

Abbreviation history := (gmap string entry).
Abbreviation Method := (M TelegramForwarder history).

Definition RATE_LIMIT : Z := 30.
Definition RATE_WINDOW : Z := 1 * second.

(** *** Field updates *)

Definition set_stats (f : Stats -> Stats) (s : TelegramForwarder) : TelegramForwarder :=
  {| source_channels := source_channels s; target_channels := target_channels s;
     forward_history := forward_history s; sources := sources s;
     targets := targets s; stats := f (stats s);
     last_request_time := last_request_time s;
     requests_in_window := requests_in_window s |}.

Definition set_forward_history (f : history -> history) (s : TelegramForwarder)
    : TelegramForwarder :=
  {| source_channels := source_channels s; target_channels := target_channels s;
     forward_history := f (forward_history s); sources := sources s;
     targets := targets s; stats := stats s;
     last_request_time := last_request_time s;
     requests_in_window := requests_in_window s |}.

Definition set_sources (f : list entity -> list entity) (s : TelegramForwarder)
    : TelegramForwarder :=
  {| source_channels := source_channels s; target_channels := target_channels s;
     forward_history := forward_history s; sources := f (sources s);
     targets := targets s; stats := stats s;
     last_request_time := last_request_time s;
     requests_in_window := requests_in_window s |}.

Definition set_targets (f : list entity -> list entity) (s : TelegramForwarder)
    : TelegramForwarder :=
  {| source_channels := source_channels s; target_channels := target_channels s;
     forward_history := forward_history s; sources := sources s;
     targets := f (targets s); stats := stats s;
     last_request_time := last_request_time s;
     requests_in_window := requests_in_window s |}.

Definition set_last_request_time (t : Z) (s : TelegramForwarder) : TelegramForwarder :=
  {| source_channels := source_channels s; target_channels := target_channels s;
     forward_history := forward_history s; sources := sources s;
     targets := targets s; stats := stats s;
     last_request_time := t;
     requests_in_window := requests_in_window s |}.

Definition set_requests_in_window (n : Z) (s : TelegramForwarder) : TelegramForwarder :=
  {| source_channels := source_channels s; target_channels := target_channels s;
     forward_history := forward_history s; sources := sources s;
     targets := targets s; stats := stats s;
     last_request_time := last_request_time s;
     requests_in_window := n |}.

Definition incr_forwarded (st : Stats) : Stats :=
  {| forwarded := forwarded st + 1; skipped := skipped st; failed := failed st;
     last_message_id := last_message_id st; last_update := last_update st;
     messages_in_window := messages_in_window st; last_print := last_print st |}.

Definition incr_skipped (st : Stats) : Stats :=
  {| forwarded := forwarded st; skipped := skipped st + 1; failed := failed st;
     last_message_id := last_message_id st; last_update := last_update st;
     messages_in_window := messages_in_window st; last_print := last_print st |}.

Definition incr_failed (st : Stats) : Stats :=
  {| forwarded := forwarded st; skipped := skipped st; failed := failed st + 1;
     last_message_id := last_message_id st; last_update := last_update st;
     messages_in_window := messages_in_window st; last_print := last_print st |}.

(** [stats['messages_in_window'] += 1; stats['last_message_id'] = id] *)
Definition note_message (id : Z) (st : Stats) : Stats :=
  {| forwarded := forwarded st; skipped := skipped st; failed := failed st;
     last_message_id := Some id; last_update := last_update st;
     messages_in_window := messages_in_window st + 1; last_print := last_print st |}.

(** [stats['messages_in_window'] = 0; stats['last_print'] = t] *)
Definition note_print (t : Z) (st : Stats) : Stats :=
  {| forwarded := forwarded st; skipped := skipped st; failed := failed st;
     last_message_id := last_message_id st; last_update := last_update st;
     messages_in_window := 0; last_print := t |}.

(** *** History store *)

Section AnyObject.
Context {S : Type}.

(** [load_history]: it reads no attribute but the path of the file. *)
Definition load_history : M S history history :=
  try_except
    (let* there := history_exists in
     if there then read_history else ret ∅)
    is_Exception
    (fun e => say (ErrorLoadingHistory e) ;; ret ∅).
End AnyObject.

Definition save_history : Method unit :=
  try_except
    (let* h := gets forward_history in
     write_history h)
    is_Exception
    (fun e => say (ErrorSavingHistory e)).

(** [TelegramForwarder()]: the configured channel names come from the
    process environment. *)
Definition __init__ (source_names target_names : list string)
    (w : World history) : result unit * St TelegramForwarder history :=
  let '(r, σ) := load_history {| self := tt; world := w |} in
  let h := match r with Ok h => h | _ => ∅ end in
  let t := now (world σ) in
  (match r with Ok _ => Ok tt | Raise e => Raise e | Unfinished => Unfinished end,
   {| self :=
        {| source_channels := source_names;
           target_channels := target_names;
           forward_history := h;
           sources := [];
           targets := [];
           stats := {| forwarded := 0; skipped := 0; failed := 0;
                       last_message_id := None; last_update := t;
                       messages_in_window := 0; last_print := t |};
           last_request_time := t;
           requests_in_window := 0 |};
      world := world σ |}).

(** *** Rate limiter *)

(** [_wait_for_rate_limit]. The lock is not modelled: the script runs one
    task, so [async with self.request_lock] never waits. *)
Definition _wait_for_rate_limit : Method unit :=
  try_except
    (let* current_time := time_time in
     let* last := gets last_request_time in
     let time_passed := current_time - last in
     (if RATE_WINDOW <=? time_passed then
        modify (set_requests_in_window 0) ;;
        modify (set_last_request_time current_time)
      else
        let* n := gets requests_in_window in
        if RATE_LIMIT <=? n then
          let wait_time := RATE_WINDOW - time_passed in
          try_except (asyncio_sleep wait_time) is_CancelledError
            (fun e => say RateLimitWaitCancelled ;; raise e) ;;
          modify (set_requests_in_window 0) ;;
          let* t := time_time in
          modify (set_last_request_time t)
        else ret tt) ;;
     let* n' := gets requests_in_window in
     modify (set_requests_in_window (n' + 1)))
    (fun e => is_CancelledError e || is_Exception e)
    (fun e =>
       if is_CancelledError e then raise e
       else say (RateLimitError e) ;; raise e).

(** *** Entity resolver *)

(** [for fmt in candidates: try: return await get_entity(fmt)
    except ValueError: continue]; [None] when the loop ends without a
    return. *)
Fixpoint try_candidates (candidates : list ident) : Method (option entity) :=
  match candidates with
  | [] => ret None
  | c :: rest =>
      let* found :=
        try_except
          (let* e := call (EvGetEntity c) (fun env n => env_get_entity env n c) in
           ret (Some e))
          is_ValueError
          (fun _ => ret None) in
      match found with
      | Some e => ret (Some e)
      | None => try_candidates rest
      end
  end.

(** Evaluating the list display [[int(a), int(b), int(c)]]: the first
    [int] that fails raises, before any candidate is tried. *)
Definition numeric_candidates (channel_name : string) : Method (list ident) :=
  let clean_id := PyStr.replace "-100" "" channel_name in
  let* a := lift (PyStr.int channel_name) in
  let* b := lift (PyStr.int ("-100" +:+ clean_id)) in
  let* c := lift (PyStr.int clean_id) in
  ret [IdInt a; IdInt b; IdInt c].

Definition _get_entity_from_name (channel_name : string) : Method entity :=
  try_except
    (let* by_id :=
       if PyStr.isdigit (PyStr.replace "-" "" channel_name) then
         let* ids := numeric_candidates channel_name in
         try_candidates ids
       else ret None in
     match by_id with
     | Some e => ret e
     | None =>
         let* by_name :=
           try_candidates [IdStr channel_name; IdStr ("@" +:+ channel_name)] in
         match by_name with
         | Some e => ret e
         | None =>
             raise (Exn ValueError ("Could not find channel: " +:+ channel_name))
         end
     end)
    is_Exception
    (fun e =>
       raise (Exn ValueError
                ("Invalid channel format: " +:+ channel_name
                   +:+ " (" +:+ exn_msg e +:+ ")"))).

Definition initialize_channels : Method unit :=
  let* srcs := gets source_channels in
  for_each srcs (fun channel =>
    try_except
      (let* entity := _get_entity_from_name channel in
       if is_channel_or_chat entity then
         modify (set_sources (fun l => (l ++ [entity])%list)) ;;
         say (AddedChannel (ent_title entity))
       else ret tt)
      is_Exception
      (fun e => say (FailedToAdd channel e))) ;;
  let* tgts := gets target_channels in
  for_each tgts (fun channel =>
    try_except
      (let* entity := _get_entity_from_name channel in
       if is_channel_or_chat entity then
         modify (set_targets (fun l => (l ++ [entity])%list)) ;;
         say (AddedChannel (ent_title entity))
       else ret tt)
      is_Exception
      (fun e => say (FailedToAdd channel e))).

(** *** Transfer of one message to one target *)

Definition dedup_key (source_id : string) (id : Z) : string :=
  source_id +:+ "_" +:+ PyStr.str id.

(** [forward_message]. The inner block either produces the message that
    was sent ([inl]) or returns early ([inr]). *)
Definition forward_message (source_channel target_channel : entity)
    (message : message) : Method bool :=
  _wait_for_rate_limit ;;
  try_except
    (let message_id := dedup_key (PyStr.str (ent_id source_channel)) (msg_id message) in
     let target_id := PyStr.str (ent_id target_channel) in
     say (ProcessingMessage (msg_id message)) ;;
     try_except
       (let* outcome :=
          if msg_media message then
            say (CopyingMedia (msg_id message)) ;;
            let temp_path := "temp_" +:+ PyStr.str (msg_id message) in
            let* file_path :=
              call (EvDownloadMedia (msg_id message) temp_path)
                   (fun env n => env_download_media env n message temp_path) in
            match file_path with
            | Some (String c p as path) =>
                let caption := msg_text message in
                say (UploadingMedia (ent_title target_channel)) ;;
                let* sent_message :=
                  call (EvSendFile (IdInt (ent_id target_channel)) path caption)
                       (fun env n =>
                          env_send_file env n (IdInt (ent_id target_channel)) path) in
                let* there :=
                  interact (EvExists path) (fun env n => env_exists env n path) in
                (if there then
                   call (EvRemove path) (fun env n => env_remove env n path) ;;
                   say MediaTransferred
                 else ret tt) ;;
                ret (inl sent_message)
            | _ =>
                say FailedToDownloadMedia ;;
                ret (inr false)
            end
          else if PyStr.truthy (msg_text message) then
            let text := default "" (msg_text message) in
            say (CopyingText (ent_title target_channel)) ;;
            let* sent_message :=
              call (EvSendMessage (ent_id target_channel) text)
                   (fun env n => env_send_message env n (ent_id target_channel) text) in
            match sent_message with
            | Some _ => ret (inl sent_message)
            | None => say FailedToSendText ;; ret (inr false)
            end
          else
            say (NoContentToCopy (msg_id message)) ;;
            ret (inr false) in
        match outcome with
        | inr early => ret early
        | inl (Some sent_id) =>
            say (SuccessfullySent sent_id (ent_title target_channel)) ;;
            let* t := time_time in
            modify (set_forward_history
                      (<[message_id :=
                           Sent t (PyStr.str (ent_id source_channel)) target_id
                                (msg_id message) sent_id]>)) ;;
            save_history ;;
            ret true
        | inl None =>
            say FailedToSendMessage ;;
            ret false
        end)
       is_Exception
       (fun e => say (ErrorSendingMessage e) ;; ret false))
    is_Exception
    (fun e => say (ErrorProcessingMessage e) ;; ret false).

(** *** Progress report *)

Definition print_progress : Method unit :=
  say Progress ;;
  let* tgts := gets targets in
  for_each tgts (fun target =>
    try_except
      (call (EvGetMessages (ent_id target))
            (fun env n => env_get_messages env n (ent_id target)) ;;
       say (TargetLastMessage (ent_id target)))
      is_Exception
      (fun e => say (TargetError (ent_id target) e))).

(** *** Transfer loop *)

(** The body of the [async for] loop of [forward_messages], with its
    [try] / [except Exception]. [continue] ends the body. *)
Definition forward_messages_body (source : entity) (source_id : string)
    (message : message) : Method unit :=
  try_except
    (_wait_for_rate_limit ;;
     let message_hash := dedup_key source_id (msg_id message) in
     let* h := gets forward_history in
     match h !! message_hash with
     | Some _ => modify (set_stats incr_skipped)
     | None =>
         let* tgts := gets targets in
         for_each tgts (fun target =>
           let* success := forward_message source target message in
           (if success : bool then modify (set_stats incr_forwarded)
            else modify (set_stats incr_failed)) ;;
           asyncio_sleep (second / 2)) ;;
         let* t := time_time in
         modify (set_forward_history
                   (<[message_hash := Seen t (ent_title source) (msg_id message)]>)) ;;
         save_history ;;
         modify (set_stats (note_message (msg_id message))) ;;
         let* current_time := time_time in
         let* printed := gets (fun s => last_print (stats s)) in
         if 10 * second <=? current_time - printed then
           print_progress ;;
           modify (set_stats (note_print current_time))
         else ret tt
     end)
    is_Exception
    (fun e =>
       say (ErrorProcessingMessageId (msg_id message) e) ;;
       modify (set_stats incr_failed)).

(** [forward_messages]. The iterator is taken to yield its messages
    without failing. *)
Definition forward_messages (source : entity) (limit : option Z) (offset_id : Z)
    : Method unit :=
  try_finally
    (try_except
       (let source_id := PyStr.str (ent_id source) in
        let* messages :=
          interact (EvIterMessages (ent_id source) limit offset_id)
                   (fun env n => env_iter_messages env n (ent_id source) limit offset_id) in
        for_each messages (forward_messages_body source source_id))
       (fun e => is_CancelledError e || is_Exception e)
       (fun e =>
          if is_CancelledError e then say ForwardingCancelled ;; raise e
          else say (ErrorInForwardMessages e)))
    print_progress.

(** *** Menu *)

Definition verify_permissions : Method unit :=
  let* srcs := gets sources in
  for_each srcs (fun source =>
    try_except
      (call (EvGetMessages (ent_id source))
            (fun env n => env_get_messages env n (ent_id source)) ;;
       ret tt)
      is_Exception
      (fun e => say (TargetError (ent_id source) e))) ;;
  let* tgts := gets targets in
  for_each tgts (fun target =>
    try_except
      (let text := "Test message - will be deleted" in
       let* test_msg :=
         call (EvSendMessage (ent_id target) text)
              (fun env n => env_send_message env n (ent_id target) text) in
       match test_msg with
       | Some _ =>
           call (EvDeleteMessages (ent_id target))
                (fun env n => env_delete_messages env n (ent_id target))
       | None => ret tt
       end)
      is_Exception
      (fun e => say (TargetError (ent_id target) e))).

(** [int(k.split('_')[1])] *)
Definition key_message_id (k : string) : outcome Z :=
  match PyStr.split "_" k with
  | _ :: part :: _ => PyStr.int part
  | _ => Raises (Exn IndexError "list index out of range")
  end.

(** The values of a generator, up to the first one that raises. *)
Fixpoint collect (rs : list (outcome Z)) : outcome (list Z) :=
  match rs with
  | [] => Returns []
  | Returns n :: rs' =>
      match collect rs' with
      | Returns ns => Returns (n :: ns)
      | Raises e => Raises e
      end
  | Raises e :: _ => Raises e
  end.

(** [max(xs, default=d)] *)
Definition py_max (d : Z) (xs : list Z) : Z :=
  match xs with
  | [] => d
  | x :: xs' => fold_left Z.max xs' x
  end.

(** The keys [k] of the history with [k.startswith(str(source.id))]. *)
Definition keys_starting_with (h : history) (source_id : Z) : list string :=
  List.filter (PyStr.startswith (PyStr.str source_id)) (map fst (map_to_list h)).

(** The offset the menu resumes from:
    [max((int(k.split('_')[1]) for k in forward_history.keys()
          if k.startswith(str(source.id))), default=0)]. *)
Definition resume_offset (h : history) (source_id : Z) : outcome Z :=
  match collect (map key_message_id (keys_starting_with h source_id)) with
  | Returns ids => Returns (py_max 0 ids)
  | Raises e => Raises e
  end.

(** [input("Press Enter to continue...")] *)
Definition press_enter : Method unit :=
  call EvPrompt (fun env n => env_prompt env n) ;; ret tt.

(** Choice 4 of the menu. *)
Definition test_single_message : Method unit :=
  try_except
    (let* srcs := gets sources in
     let* tgts := gets targets in
     match srcs, tgts with
     | source :: _, _ :: _ =>
         let* messages :=
           call (EvGetMessages (ent_id source))
                (fun env n => env_get_messages env n (ent_id source)) in
         match messages with
         | [] => press_enter
         | message :: _ =>
             for_each tgts (fun target =>
               forward_message source target message ;; ret tt) ;;
             press_enter
         end
     | _, _ => press_enter
     end)
    is_Exception
    (fun e => say (TopLevelError e) ;; press_enter).

(** [interactive_menu]: at most [rounds] turns of its [while True]. The
    text of the menu is not recorded. *)
Fixpoint interactive_menu (rounds : nat) : Method unit :=
  match rounds with
  | O => unfinished
  | Datatypes.S rounds' =>
      let* choice := call EvPrompt (fun env n => env_prompt env n) in
      if String.eqb choice "4" then
        test_single_message ;;
        interactive_menu rounds'
      else if String.eqb choice "5" then
        ret tt
      else if String.eqb choice "1" then
        let* srcs := gets sources in
        for_each srcs (fun source => forward_messages source None 0) ;;
        interactive_menu rounds'
      else if String.eqb choice "2" then
        let* srcs := gets sources in
        for_each srcs (fun source =>
          let* h := gets forward_history in
          let* last_id := lift (resume_offset h (ent_id source)) in
          forward_messages source None last_id) ;;
        interactive_menu rounds'
      else if String.eqb choice "3" then
        verify_permissions ;;
        press_enter ;;
        interactive_menu rounds'
      else interactive_menu rounds'
  end.

(** *** Entry point *)

Definition finalizer : Method unit :=
  save_history ;;
  call EvDisconnect (fun env n => env_disconnect env n) ;;
  say SessionSaved.

(** What [main] runs inside its [try]. *)
Definition session (rounds : nat) : Method unit :=
  call EvStart (fun env n => env_start env n) ;;
  initialize_channels ;;
  interactive_menu rounds.

Definition main_body (rounds : nat) : Method unit :=
  try_finally
    (try_except
       (session rounds)
       (fun e => is_CancelledError e || is_KeyboardInterrupt e || is_Exception e)
       (fun e =>
          if is_CancelledError e then say OperationCancelled
          else if is_KeyboardInterrupt e then say ProgramInterrupted
          else say (TopLevelError e)))
    finalizer.

Definition main (source_names target_names : list string) (rounds : nat)
    (w : World history) : result unit * St TelegramForwarder history :=
  match __init__ source_names target_names w with
  | (Ok _, σ) => main_body rounds σ
  | other => other
  end.

End Forwarder.

(** ** pdfuploader.py *)

Module Uploader.

(** A file of the media folder with what [filepath.stat()] says of it.
    The file is taken not to change while [upload_file] runs.
    [st_mtime] is the text Python prints for the modification time. *)
Record local_file := {
  file_path : string;
  file_name : string;
  st_size : Z;
  st_mtime : string
}.

Record meta := {
  filename : string;
  timestamp : Z;
  size : Z
}.

Record Stats := {
  uploaded : Z;
  skipped : Z;
  failed : Z;
  total_size : Z;
  last_file : option string
}.

Record TelegramUploader := {
  target_names : list string;
  upload_history : gmap string (gmap string meta);
  targets : list entity;
  stats : Stats
}.

Abbreviation history := (gmap string (gmap string meta)).
Abbreviation Method := (M TelegramUploader history).

Definition set_stats (f : Stats -> Stats) (s : TelegramUploader) : TelegramUploader :=
  {| target_names := target_names s; upload_history := upload_history s;
     targets := targets s; stats := f (stats s) |}.

Definition set_upload_history (f : history -> history) (s : TelegramUploader)
    : TelegramUploader :=
  {| target_names := target_names s; upload_history := f (upload_history s);
     targets := targets s; stats := stats s |}.

Definition set_targets (f : list entity -> list entity) (s : TelegramUploader)
    : TelegramUploader :=
  {| target_names := target_names s; upload_history := upload_history s;
     targets := f (targets s); stats := stats s |}.

Definition incr_skipped (st : Stats) : Stats :=
  {| uploaded := uploaded st; skipped := skipped st + 1; failed := failed st;
     total_size := total_size st; last_file := last_file st |}.

Definition incr_failed (st : Stats) : Stats :=
  {| uploaded := uploaded st; skipped := skipped st; failed := failed st + 1;
     total_size := total_size st; last_file := last_file st |}.

(** [uploaded += 1; total_size += size; last_file = name] *)
Definition note_upload (f : local_file) (st : Stats) : Stats :=
  {| uploaded := uploaded st + 1; skipped := skipped st; failed := failed st;
     total_size := total_size st + st_size f; last_file := Some (file_name f) |}.

Section AnyObject.
Context {S : Type}.

Definition load_history : M S history history :=
  try_except
    (let* there := history_exists in
     if there then read_history else ret ∅)
    is_Exception
    (fun e => say (ErrorLoadingHistory e) ;; ret ∅).
End AnyObject.

(** [save_history]: [mkdir] and [write_text], with no handler. *)
Definition save_history : Method unit :=
  let* h := gets upload_history in
  write_history h.

Fixpoint try_candidates (candidates : list ident) : Method (option entity) :=
  match candidates with
  | [] => ret None
  | c :: rest =>
      let* found :=
        try_except
          (let* e := call (EvGetEntity c) (fun env n => env_get_entity env n c) in
           ret (Some e))
          is_ValueError
          (fun _ => ret None) in
      match found with
      | Some e => ret (Some e)
      | None => try_candidates rest
      end
  end.

Definition numeric_candidates (target_name : string) : Method (list ident) :=
  let clean_id := PyStr.replace "-100" "" target_name in
  let* a := lift (PyStr.int target_name) in
  let* b := lift (PyStr.int ("-100" +:+ clean_id)) in
  let* c := lift (PyStr.int clean_id) in
  ret [IdInt a; IdInt b; IdInt c].

Definition _get_entity_from_name (target_name : string) : Method entity :=
  try_except
    (let* by_id :=
       if PyStr.isdigit (PyStr.replace "-" "" target_name) then
         let* ids := numeric_candidates target_name in
         try_candidates ids
       else ret None in
     match by_id with
     | Some e => ret e
     | None =>
         let* by_name :=
           try_candidates [IdStr target_name;
                           IdStr ("@" +:+ target_name);
                           IdStr (PyStr.lower target_name);
                           IdStr ("@" +:+ PyStr.lower target_name)] in
         match by_name with
         | Some e => ret e
         | None =>
             raise (Exn ValueError ("Could not find channel: " +:+ target_name))
         end
     end)
    is_Exception
    (fun e =>
       raise (Exn ValueError
                ("Invalid target format: " +:+ target_name
                   +:+ " (" +:+ exn_msg e +:+ ")"))).

(** [target_id in self.upload_history and
     file_hash in self.upload_history[target_id]] *)
Definition already_uploaded (h : history) (target_id file_hash : string) : bool :=
  match h !! target_id with
  | Some files => bool_decide (is_Some (files !! file_hash))
  | None => false
  end.

Definition file_key (f : local_file) : string :=
  PyStr.str (st_size f) +:+ "_" +:+ st_mtime f.

Definition upload_file (filepath : local_file) (target : entity) : Method bool :=
  let target_id := PyStr.str (ent_id target) in
  let file_hash := file_key filepath in
  let* h := gets upload_history in
  if already_uploaded h target_id file_hash then
    modify (set_stats incr_skipped) ;;
    ret false
  else
    try_except
      (call (EvSendFile (IdInt (ent_id target)) (file_path filepath) None)
            (fun env n =>
               env_send_file env n (IdInt (ent_id target)) (file_path filepath)) ;;
       let* h' := gets upload_history in
       (match h' !! target_id with
        | None => modify (set_upload_history (<[target_id := ∅]>))
        | Some _ => ret tt
        end) ;;
       let* t := time_time in
       modify (set_upload_history
                 (alter (<[file_hash :=
                             {| filename := file_name filepath;
                                timestamp := t;
                                size := st_size filepath |}]>) target_id)) ;;
       modify (set_stats (note_upload filepath)) ;;
       save_history ;;
       say (Uploaded (file_name filepath) (ent_title target)) ;;
       ret true)
      is_Exception
      (fun e =>
         say (UploadFailed (file_name filepath) (ent_title target) e) ;;
         modify (set_stats incr_failed) ;;
         ret false).

Definition print_progress : Method unit := say Progress.

(** The loop of [start_upload] over the files it was given; the local
    variable [last_update] is the accumulator. *)
Definition upload_all (files : list local_file) (last_update : Z) : Method Z :=
  fold_each files last_update (fun file last_update =>
    let* tgts := gets targets in
    for_each tgts (fun target =>
      upload_file file target ;;
      asyncio_sleep (2 * second)) ;;
    let* t := time_time in
    if 120 * second <=? t - last_update then
      print_progress ;;
      time_time
    else ret last_update).

(** [start_upload(resume=False)] on the sorted listing of the media
    folder. *)
Definition start_upload (files : list local_file) : Method unit :=
  let* tgts := gets targets in
  match tgts, files with
  | [], _ => ret tt
  | _, [] => ret tt
  | _, _ =>
      let* start_time := time_time in
      upload_all files start_time ;;
      print_progress
  end.

(** [initialize_targets]. The summary it prints at the end is not
    recorded. *)
Definition initialize_targets : Method unit :=
  let* names := gets target_names in
  for_each names (fun target_name =>
    try_except
      (let* entity :=
         _get_entity_from_name
           (PyStr.strip (Ascii.eqb "@") (PyStr.strip PyStr.is_space target_name)) in
       if is_channel_or_chat entity then
         modify (set_targets (fun l => (l ++ [entity])%list)) ;;
         say (AddedChannel (ent_title entity))
       else ret tt)
      is_Exception
      (fun e => say (FailedToAdd target_name e))).

(** [resume_upload] on the sorted listing of the media folder: the files
    after the one [stats['last_file']] names. *)
Definition resume_upload (files : list local_file) : Method (list local_file) :=
  let* last := gets (fun s => last_file (stats s)) in
  if PyStr.truthy last then
    try_except
      (let* last_idx := lift (PyStr.index (default "" last) (map file_name files)) in
       ret (skipn (last_idx + 1) files))
      is_ValueError
      (fun _ => ret files)
  else ret files.

(** [start_upload(resume=True)] on the sorted listing of the media
    folder. *)
Definition start_upload_resume (listing : list local_file) : Method unit :=
  let* tgts := gets targets in
  match tgts with
  | [] => ret tt
  | _ =>
      let* files := resume_upload listing in
      match files with
      | [] => ret tt
      | _ =>
          let* start_time := time_time in
          upload_all files start_time ;;
          print_progress
      end
  end.

End Uploader.

(** ** The downloads folder *)

(** A file of the downloads folder as the scan of [get_existing_files]
    finds it: its name, what reading it and hashing its content gives
    (the MD5 digest in hexadecimal, or the exception of the read), and
    its size. The folder is taken not to change during the scan. *)
Record dir_entry := {
  entry_name : string;
  entry_hash : outcome string;
  entry_size : Z
}.

(** ** pdfscrapper.py *)

Module Scrapper.

Definition DELAY_BETWEEN_DOWNLOADS : Z := 1 * second.
Definition MAX_DOWNLOADS_PER_MINUTE : Z := 600.
Definition PROGRESS_UPDATE_INTERVAL : Z := 60 * second.
Definition DOWNLOADS_DIR : string := "ebooks".

Definition EBOOK_FORMATS : list (string * string) :=
  [("application/pdf", ".pdf");
   ("application/epub+zip", ".epub");
   ("application/x-mobipocket-ebook", ".mobi");
   ("application/vnd.amazon.ebook", ".azw")].

Record DownloadStats := {
  downloaded_files : Z;
  skipped_files : Z;
  total_size : Z;
  start_time : Z;
  last_message_id : option Z;
  files_since_last_update : Z
}.

Record TelegramDownloader := {
  stats : DownloadStats;
  processed_ids : gset Z
}.

Abbreviation Method := (M TelegramDownloader unit).

Definition set_stats (f : DownloadStats -> DownloadStats) (s : TelegramDownloader)
    : TelegramDownloader :=
  {| stats := f (stats s); processed_ids := processed_ids s |}.

Definition set_processed_ids (f : gset Z -> gset Z) (s : TelegramDownloader)
    : TelegramDownloader :=
  {| stats := stats s; processed_ids := f (processed_ids s) |}.

Definition incr_skipped (st : DownloadStats) : DownloadStats :=
  {| downloaded_files := downloaded_files st;
     skipped_files := skipped_files st + 1;
     total_size := total_size st; start_time := start_time st;
     last_message_id := last_message_id st;
     files_since_last_update := files_since_last_update st |}.

Definition note_download (file_size : Z) (st : DownloadStats) : DownloadStats :=
  {| downloaded_files := downloaded_files st + 1;
     skipped_files := skipped_files st;
     total_size := total_size st + file_size; start_time := start_time st;
     last_message_id := last_message_id st;
     files_since_last_update := files_since_last_update st + 1 |}.

Definition set_last_message_id (id : Z) (st : DownloadStats) : DownloadStats :=
  {| downloaded_files := downloaded_files st;
     skipped_files := skipped_files st;
     total_size := total_size st; start_time := start_time st;
     last_message_id := Some id;
     files_since_last_update := files_since_last_update st |}.

Definition reset_files_since_last_update (st : DownloadStats) : DownloadStats :=
  {| downloaded_files := downloaded_files st;
     skipped_files := skipped_files st;
     total_size := total_size st; start_time := start_time st;
     last_message_id := last_message_id st;
     files_since_last_update := 0 |}.

(** The first attribute whose extension is an e-book one. *)
Fixpoint ebook_attribute (names : list string) : option string :=
  match names with
  | [] => None
  | name :: rest =>
      let file_ext := PyStr.lower (PyStr.splitext_ext name) in
      if bool_decide (file_ext ∈ map snd EBOOK_FORMATS) then Some file_ext
      else ebook_attribute rest
  end.

(** [is_ebook(message)]: the extension when the message is an e-book. *)
Definition is_ebook (message : option message) : option string :=
  match message with
  | None => None
  | Some m =>
      match msg_document m with
      | None => None
      | Some doc =>
          match List.find (fun kv => String.eqb (fst kv) (mime_type doc)) EBOOK_FORMATS with
          | Some kv => Some (snd kv)
          | None => ebook_attribute (file_names doc)
          end
      end
  end.

Definition handle_rate_limiting (minute_count minute_start : Z) : Method Z :=
  if MAX_DOWNLOADS_PER_MINUTE <=? minute_count then
    let* current_time := time_time in
    (if current_time - minute_start <? 60 * second then
       asyncio_sleep (60 * second - (current_time - minute_start))
     else ret tt) ;;
    ret 0
  else ret minute_count.

Definition generate_filename (message : message) (ext : string) : string :=
  let original_name :=
    match msg_document message with
    | Some doc => default "" (head (file_names doc))
    | None => ""
    end in
  let original_name :=
    if String.eqb original_name ""
    then "ebook_" +:+ PyStr.str (msg_id message) +:+ ext
    else original_name in
  let safe_filename :=
    PyStr.filter
      (fun c => PyStr.is_alnum c
                || Ascii.eqb c " " || Ascii.eqb c "-"
                || Ascii.eqb c "_" || Ascii.eqb c ".")
      original_name in
  PyStr.str (msg_id message) +:+ "_" +:+ safe_filename.

Definition update_stats (message : message) (path : string) : Method unit :=
  let* file_size := call (EvGetSize path) (fun env n => env_getsize env n path) in
  modify (set_stats (note_download file_size)) ;;
  modify (set_processed_ids (fun ids => {[msg_id message]} ∪ ids)).

Definition download_ebook (message : message) (ext : string) : Method unit :=
  let filename := generate_filename message ext in
  let file := DOWNLOADS_DIR +:+ "/" +:+ filename in
  let* path :=
    call (EvDownloadMedia (msg_id message) file)
         (fun env n => env_download_media env n message file) in
  (match path with
   | Some (String c p as path) =>
       let* there := interact (EvExists path) (fun env n => env_exists env n path) in
       if there then
         update_stats message path ;;
         let* _ := call (EvGetSize path) (fun env n => env_getsize env n path) in
         say (Downloaded filename)
       else ret tt
   | _ => ret tt
   end) ;;
  asyncio_sleep DELAY_BETWEEN_DOWNLOADS.

Definition process_single_message (message : option message)
    (minute_count minute_start : Z) : Method (Z * bool) :=
  match message with
  | None => ret (minute_count, false)
  | Some m =>
      let* ids := gets processed_ids in
      if bool_decide (msg_id m ∈ ids) then
        modify (set_stats incr_skipped) ;;
        ret (minute_count, false)
      else
        match is_ebook message with
        | None => ret (minute_count, false)
        | Some ext =>
            let* minute_count := handle_rate_limiting minute_count minute_start in
            download_ebook m ext ;;
            ret (minute_count + 1, true)
        end
  end.

Definition should_update_progress (last_progress_update : Z) : Method bool :=
  let* t := time_time in
  ret (PROGRESS_UPDATE_INTERVAL <=? t - last_progress_update).

(** The local variables of [download_media] that its loop updates.
    [minute_start] is not among them: it is assigned once, before the
    loop. *)
Record locals := {
  minute_count : Z;
  last_progress_update : Z
}.

Definition download_media_body (minute_start : Z) (message : message) (l : locals)
    : Method locals :=
  modify (set_stats (set_last_message_id (msg_id message))) ;;
  try_except
    (let* r := process_single_message (Some message) (minute_count l) minute_start in
     let l' := {| minute_count := fst r;
                  last_progress_update := last_progress_update l |} in
     if snd r then
       let* due := should_update_progress (last_progress_update l) in
       if due then
         say Progress ;;
         let* t := time_time in
         modify (set_stats reset_files_since_last_update) ;;
         ret {| minute_count := fst r; last_progress_update := t |}
       else ret l'
     else ret l')
    is_Exception
    (fun e =>
       say (ErrorProcessingMessageId (msg_id message) e) ;;
       asyncio_sleep DELAY_BETWEEN_DOWNLOADS ;;
       ret l).

Definition download_media (channel_username : string) (start_from_msg_id : option Z)
    : Method unit :=
  try_except
    (let* channel :=
       call (EvGetEntity (IdStr channel_username))
            (fun env n => env_get_entity env n (IdStr channel_username)) in
     let* minute_start := time_time in
     let* last_progress_update := time_time in
     modify (set_stats reset_files_since_last_update) ;;
     let offset := default 0 start_from_msg_id in
     let* messages :=
       interact (EvIterMessages (ent_id channel) None offset)
                (fun env n => env_iter_messages env n (ent_id channel) None offset) in
     fold_each messages
       {| minute_count := 0; last_progress_update := last_progress_update |}
       (download_media_body minute_start) ;;
     say Progress)
    is_Exception
    (fun e => say (TopLevelError e) ;; raise e).

(** [get_file_hash]: a read that fails is reported and gives [None]. *)
Definition get_file_hash (e : dir_entry) : Method (option string) :=
  try_except
    (let* h := lift (entry_hash e) in ret (Some h))
    is_Exception
    (fun _ => ret None).

(** [get_existing_files] on the listing of the downloads folder. The
    local variables [existing_files], [total_size] and [file_count] are
    the accumulator of the loop. *)
Definition get_existing_files (listing : list dir_entry)
    : Method (gmap string string * Z * Z) :=
  fold_each listing (∅, 0, 0) (fun e acc =>
    let '(existing_files, total_size, file_count) := acc in
    if PyStr.endswith_any (map snd EBOOK_FORMATS) (PyStr.lower (entry_name e)) then
      let* file_hash := get_file_hash e in
      let acc' :=
        match file_hash with
        | Some (String _ _ as h) =>
            (<[h := entry_name e]> existing_files,
             total_size + entry_size e, file_count + 1)
        | _ => acc
        end in
      try_except
        (match PyStr.split "_" (entry_name e) with
         | _ :: part :: _ =>
             let* msg_id :=
               match PyStr.split "." part with
               | first :: _ => lift (PyStr.int_literal first)
               | [] => raise (Exn IndexError "list index out of range")
               end in
             if 0 <? msg_id
             then modify (set_processed_ids (fun ids => {[msg_id]} ∪ ids))
             else ret tt
         | _ => ret tt
         end)
        (fun ex => is_ValueError ex || is_IndexError ex)
        (fun _ => ret tt) ;;
      ret acc'
    else ret acc).

(** [initialize] *)
Definition initialize (listing : list dir_entry) : Method unit :=
  call EvStart (fun env n => env_start env n) ;;
  get_existing_files listing ;;
  ret tt.

End Scrapper.

(** ** hello.py *)

Module Hello.

Definition DELAY_BETWEEN_DOWNLOADS : Z := 1 * second.
Definition MAX_DOWNLOADS_PER_MINUTE : Z := 600.
Definition DOWNLOADS_DIR : string := "downloads".

Record DownloadStats := {
  downloaded_files : Z;
  skipped_files : Z;
  total_size : Z;
  last_message_id : option Z
}.

(** The downloader together with the local variables of
    [download_media], which its loop body assigns before statements that
    can raise. *)
Record TelegramDownloader := {
  stats : DownloadStats;
  processed_ids : gset Z;
  target_channels : list string;
  download_count : Z;
  minute_count : Z;
  minute_start : Z;
  last_progress_update : Z
}.

Abbreviation Method := (M TelegramDownloader unit).

Definition set_stats (f : DownloadStats -> DownloadStats) (s : TelegramDownloader)
    : TelegramDownloader :=
  {| stats := f (stats s); processed_ids := processed_ids s;
     target_channels := target_channels s;
     download_count := download_count s; minute_count := minute_count s;
     minute_start := minute_start s;
     last_progress_update := last_progress_update s |}.

Definition set_processed_ids (f : gset Z -> gset Z) (s : TelegramDownloader)
    : TelegramDownloader :=
  {| stats := stats s; processed_ids := f (processed_ids s);
     target_channels := target_channels s;
     download_count := download_count s; minute_count := minute_count s;
     minute_start := minute_start s;
     last_progress_update := last_progress_update s |}.

(** [minute_count = 0; minute_start = t] *)
Definition restart_window (t : Z) (s : TelegramDownloader) : TelegramDownloader :=
  {| stats := stats s; processed_ids := processed_ids s;
     target_channels := target_channels s;
     download_count := download_count s; minute_count := 0;
     minute_start := t;
     last_progress_update := last_progress_update s |}.

(** [download_count += 1; minute_count += 1] *)
Definition count_download (s : TelegramDownloader) : TelegramDownloader :=
  {| stats := stats s; processed_ids := processed_ids s;
     target_channels := target_channels s;
     download_count := download_count s + 1; minute_count := minute_count s + 1;
     minute_start := minute_start s;
     last_progress_update := last_progress_update s |}.

Definition set_last_progress_update (t : Z) (s : TelegramDownloader)
    : TelegramDownloader :=
  {| stats := stats s; processed_ids := processed_ids s;
     target_channels := target_channels s;
     download_count := download_count s; minute_count := minute_count s;
     minute_start := minute_start s;
     last_progress_update := t |}.

Definition incr_skipped (st : DownloadStats) : DownloadStats :=
  {| downloaded_files := downloaded_files st;
     skipped_files := skipped_files st + 1;
     total_size := total_size st;
     last_message_id := last_message_id st |}.

Definition note_download (file_size : Z) (st : DownloadStats) : DownloadStats :=
  {| downloaded_files := downloaded_files st + 1;
     skipped_files := skipped_files st;
     total_size := total_size st + file_size;
     last_message_id := last_message_id st |}.

Definition set_last_message_id (id : Z) (st : DownloadStats) : DownloadStats :=
  {| downloaded_files := downloaded_files st;
     skipped_files := skipped_files st;
     total_size := total_size st;
     last_message_id := Some id |}.

Definition is_gif_document (m : message) : bool :=
  match msg_document m with
  | Some doc => String.eqb (mime_type doc) "image/gif"
  | None => false
  end.

(** The rate limiting checks of the loop of [download_media]. *)
Definition rate_limiting_checks : Method unit :=
  let* current_time := time_time in
  let* count := gets minute_count in
  if MAX_DOWNLOADS_PER_MINUTE <=? count then
    let* started := gets minute_start in
    (if current_time - started <? 60 * second then
       asyncio_sleep (60 * second - (current_time - started))
     else ret tt) ;;
    let* t := time_time in
    modify (restart_window t)
  else ret tt.

Definition upload_to_channels (filepath : string) : Method unit :=
  let* channels := gets target_channels in
  match channels with
  | [] => ret tt
  | _ =>
      try_except
        (for_each channels (fun channel =>
           try_except
             (call (EvSendFile (IdStr channel) filepath None)
                   (fun env n => env_send_file env n (IdStr channel) filepath) ;;
              asyncio_sleep (2 * second))
             is_Exception
             (fun e => say (UploadFailed filepath channel e))))
        is_Exception
        (fun e => say (TopLevelError e))
  end.

(** [os.path.getsize(path)]; it raises [TypeError] on [None]. *)
Definition getsize (path : option string) : Method Z :=
  match path with
  | Some p => call (EvGetSize p) (fun env n => env_getsize env n p)
  | None => raise (Exn TypeError "stat: path should be string, not NoneType")
  end.

(** The body of the loop of [download_media]; [continue] ends it. *)
Definition download_media_body (message : message) : Method unit :=
  let* ids := gets processed_ids in
  if bool_decide (msg_id message ∈ ids) then
    modify (set_stats incr_skipped)
  else
    modify (set_stats (set_last_message_id (msg_id message))) ;;
    try_except
      (if msg_photo message || is_gif_document message then
         let* ids' := gets processed_ids in
         if bool_decide (msg_id message ∈ ids') then
           modify (set_stats incr_skipped)
         else
           rate_limiting_checks ;;
           let prefix := if msg_photo message then "photo" else "gif" in
           let ext := if msg_photo message then ".jpg" else ".gif" in
           let filename := prefix +:+ "_" +:+ PyStr.str (msg_id message) +:+ ext in
           let file := DOWNLOADS_DIR +:+ "/" +:+ filename in
           let* path :=
             call (EvDownloadMedia (msg_id message) file)
                  (fun env n => env_download_media env n message file) in
           let* file_size := getsize path in
           modify (set_stats (note_download file_size)) ;;
           modify (set_processed_ids (fun ids => {[msg_id message]} ∪ ids)) ;;
           say (Downloaded filename) ;;
           modify count_download ;;
           let* t := time_time in
           let* printed := gets last_progress_update in
           (if 10 * second <=? t - printed then
              say Progress ;;
              let* t' := time_time in
              modify (set_last_progress_update t')
            else ret tt) ;;
           asyncio_sleep DELAY_BETWEEN_DOWNLOADS ;;
           match path with
           | Some (String c p as path) => upload_to_channels path
           | _ => ret tt
           end
       else ret tt)
      is_Exception
      (fun e =>
         say (ErrorProcessingMessageId (msg_id message) e) ;;
         asyncio_sleep DELAY_BETWEEN_DOWNLOADS).

(** [download_media]: [download_count], [minute_count], [minute_start]
    and [last_progress_update] are set before the loop. *)
Definition download_media (channel_username : string) (start_from_msg_id : option Z)
    : Method unit :=
  let* channel :=
    call (EvGetEntity (IdStr channel_username))
         (fun env n => env_get_entity env n (IdStr channel_username)) in
  let* t := time_time in
  modify (fun s =>
    {| stats := stats s; processed_ids := processed_ids s;
       target_channels := target_channels s;
       download_count := 0; minute_count := 0; minute_start := t;
       last_progress_update := t |}) ;;
  let offset := default 0 start_from_msg_id in
  let* messages :=
    interact (EvIterMessages (ent_id channel) None offset)
             (fun env n => env_iter_messages env n (ent_id channel) None offset) in
  for_each messages download_media_body ;;
  say Progress.

(** [get_file_hash]: it has no handler. *)
Definition get_file_hash (e : dir_entry) : Method (option string) :=
  let* h := lift (entry_hash e) in ret (Some h).

(** [get_existing_files] on the listing of the downloads folder. Its bare
    [except] catches whatever parsing the name raises. *)
Definition get_existing_files (listing : list dir_entry)
    : Method (gmap string string * Z * Z) :=
  fold_each listing (∅, 0, 0) (fun e acc =>
    let '(existing_files, total_size, file_count) := acc in
    if PyStr.endswith_any [".jpg"; ".jpeg"; ".gif"; ".png"] (PyStr.lower (entry_name e)) then
      let* file_hash := get_file_hash e in
      let acc' :=
        match file_hash with
        | Some (String _ _ as h) =>
            (<[h := entry_name e]> existing_files,
             total_size + entry_size e, file_count + 1)
        | _ => acc
        end in
      try_except
        (let* part :=
           match PyStr.split "_" (entry_name e) with
           | _ :: part :: _ => ret part
           | _ => raise (Exn IndexError "list index out of range")
           end in
         let* msg_id :=
           match PyStr.split "." part with
           | first :: _ => lift (PyStr.int_literal first)
           | [] => raise (Exn IndexError "list index out of range")
           end in
         modify (set_processed_ids (fun ids => {[msg_id]} ∪ ids)))
        (fun _ => true)
        (fun _ => ret tt) ;;
      ret acc'
    else ret acc).

(** [initialize] *)
Definition initialize (listing : list dir_entry) : Method unit :=
  call EvStart (fun env n => env_start env n) ;;
  get_existing_files listing ;;
  ret tt.

End Hello.

(** ** Sequences of calls of the forwarder's rate limiter *)

Module Calls.
Import Forwarder.

(** What is seen of one call of [_wait_for_rate_limit]: when it arrived,
    the window start before and after it, the sleeps it made, and the
    count it left. *)
Record report := {
  arrived : Z;
  window_before : Z;
  waited : list event;
  window : Z;
  counted : Z
}.

(** The calls arrive one after the other, the first [gap] after now, each
    next one [gap] after the previous one returned. *)
Fixpoint calls (gaps : list Z) : Method (list report) :=
  match gaps with
  | [] => ret []
  | gap :: rest =>
      idle gap ;;
      let* t := time_time in
      let* start := gets last_request_time in
      let* n := trace_length in
      _wait_for_rate_limit ;;
      let* evs := events_since n in
      let* start' := gets last_request_time in
      let* count := gets requests_in_window in
      let* reports := calls rest in
      ret ({| arrived := t; window_before := start; waited := evs;
              window := start'; counted := count |} :: reports)
  end.

(** The calls credited to the window that starts at [w]. *)
Definition in_window (w : Z) (reports : list report) : list report :=
  List.filter (fun r => window r =? w) reports.

(** Those of them that went through without sleeping. *)
Definition unslept (reports : list report) : list report :=
  List.filter (fun r => match waited r with [] => true | _ => false end) reports.

End Calls.

(** ** Sample environments and states *)

Module Sample.

(** An environment in which nothing fails: no entity is known, channels
    are empty, sleeps end on time and calls take no time. *)
Definition calm : Env :=
  {| env_latency := fun _ => 0%N;
     env_sleep := fun _ => Woke 0;
     env_start := fun _ => Returns tt;
     env_disconnect := fun _ => Returns tt;
     env_get_entity := fun _ _ =>
       Raises (Exn ValueError "Cannot find any entity corresponding to the input");
     env_iter_messages := fun _ _ _ _ => [];
     env_get_messages := fun _ _ => Returns [];
     env_download_media := fun _ _ path => Returns (Some path);
     env_send_file := fun _ _ _ => Returns (Some 1);
     env_send_message := fun _ _ _ => Returns (Some 1);
     env_delete_messages := fun _ _ => Returns tt;
     env_exists := fun _ _ => true;
     env_getsize := fun _ _ => Returns 1024;
     env_remove := fun _ _ => Returns tt;
     env_write := fun _ => Returns tt;
     env_prompt := fun _ => Returns "5" |}.

Definition with_get_entity (f : nat -> ident -> outcome entity) (e : Env) : Env :=
  {| env_latency := env_latency e; env_sleep := env_sleep e;
     env_start := env_start e; env_disconnect := env_disconnect e;
     env_get_entity := f;
     env_iter_messages := env_iter_messages e;
     env_get_messages := env_get_messages e;
     env_download_media := env_download_media e;
     env_send_file := env_send_file e;
     env_send_message := env_send_message e;
     env_delete_messages := env_delete_messages e;
     env_exists := env_exists e; env_getsize := env_getsize e;
     env_remove := env_remove e; env_write := env_write e;
     env_prompt := env_prompt e |}.

Definition with_iter_messages (f : nat -> Z -> option Z -> Z -> list message)
    (e : Env) : Env :=
  {| env_latency := env_latency e; env_sleep := env_sleep e;
     env_start := env_start e; env_disconnect := env_disconnect e;
     env_get_entity := env_get_entity e;
     env_iter_messages := f;
     env_get_messages := env_get_messages e;
     env_download_media := env_download_media e;
     env_send_file := env_send_file e;
     env_send_message := env_send_message e;
     env_delete_messages := env_delete_messages e;
     env_exists := env_exists e; env_getsize := env_getsize e;
     env_remove := env_remove e; env_write := env_write e;
     env_prompt := env_prompt e |}.

Definition with_write (f : nat -> outcome unit) (e : Env) : Env :=
  {| env_latency := env_latency e; env_sleep := env_sleep e;
     env_start := env_start e; env_disconnect := env_disconnect e;
     env_get_entity := env_get_entity e;
     env_iter_messages := env_iter_messages e;
     env_get_messages := env_get_messages e;
     env_download_media := env_download_media e;
     env_send_file := env_send_file e;
     env_send_message := env_send_message e;
     env_delete_messages := env_delete_messages e;
     env_exists := env_exists e; env_getsize := env_getsize e;
     env_remove := env_remove e; env_write := f;
     env_prompt := env_prompt e |}.

Definition with_prompt (f : nat -> outcome string) (e : Env) : Env :=
  {| env_latency := env_latency e; env_sleep := env_sleep e;
     env_start := env_start e; env_disconnect := env_disconnect e;
     env_get_entity := env_get_entity e;
     env_iter_messages := env_iter_messages e;
     env_get_messages := env_get_messages e;
     env_download_media := env_download_media e;
     env_send_file := env_send_file e;
     env_send_message := env_send_message e;
     env_delete_messages := env_delete_messages e;
     env_exists := env_exists e; env_getsize := env_getsize e;
     env_remove := env_remove e; env_write := env_write e;
     env_prompt := f |}.

(** The world at time [t], before any interaction. *)
Definition boot {D} (e : Env) (t : Z) (f : file D) : World D :=
  {| env := e; now := t; tick := 0; trace := []; history_file := f |}.

Definition news : entity := Entity 100 "News" Channel.
Definition archive : entity := Entity 200 "Archive" Channel.
Definition mirror : entity := Entity 300 "Mirror" Channel.

(** A message with neither media nor text. *)
Definition empty_message (id : Z) : message :=
  {| msg_id := id; msg_media := false; msg_photo := false;
     msg_text := Some ""; msg_document := None |}.

Definition text_message (id : Z) (text : string) : message :=
  {| msg_id := id; msg_media := false; msg_photo := false;
     msg_text := Some text; msg_document := None |}.

Definition pdf_message (id : Z) : message :=
  {| msg_id := id; msg_media := true; msg_photo := false;
     msg_text := None;
     msg_document := Some (Document "application/pdf" ["book.pdf"]) |}.

(** A forwarder that has just been constructed at time [t], with the
    given history, sources and targets. *)
Definition forwarder (h : gmap string Forwarder.entry) (srcs tgts : list entity)
    (t : Z) : Forwarder.TelegramForwarder :=
  {| Forwarder.source_channels := [];
     Forwarder.target_channels := [];
     Forwarder.forward_history := h;
     Forwarder.sources := srcs;
     Forwarder.targets := tgts;
     Forwarder.stats :=
       {| Forwarder.forwarded := 0; Forwarder.skipped := 0;
          Forwarder.failed := 0; Forwarder.last_message_id := None;
          Forwarder.last_update := t; Forwarder.messages_in_window := 0;
          Forwarder.last_print := t |};
     Forwarder.last_request_time := t;
     Forwarder.requests_in_window := 0 |}.

Definition uploader (h : gmap string (gmap string Uploader.meta))
    (tgts : list entity) : Uploader.TelegramUploader :=
  {| Uploader.target_names := [];
     Uploader.upload_history := h;
     Uploader.targets := tgts;
     Uploader.stats :=
       {| Uploader.uploaded := 0; Uploader.skipped := 0; Uploader.failed := 0;
          Uploader.total_size := 0; Uploader.last_file := None |} |}.

Definition downloader (ids : gset Z) : Scrapper.TelegramDownloader :=
  {| Scrapper.stats :=
       {| Scrapper.downloaded_files := 0; Scrapper.skipped_files := 0;
          Scrapper.total_size := 0; Scrapper.start_time := 0;
          Scrapper.last_message_id := None;
          Scrapper.files_since_last_update := 0 |};
     Scrapper.processed_ids := ids |}.

(** The history of a run that has gone through messages 1 to [n] of the
    channel News, and the channel's messages, newest first. *)
Definition seen_up_to (n : nat) : gmap string Forwarder.entry :=
  list_to_map
    (map (fun i => (Forwarder.dedup_key "100" (Z.of_nat i),
                    Forwarder.Seen 0 "News" (Z.of_nat i)))
         (seq 1 n)).

Definition messages_down_from (n : nat) : list message :=
  map (fun i => text_message (Z.of_nat i) "text") (rev (seq 1 n)).

(** An environment for a whole run of the forwarder: the two configured
    names resolve, the user picks choice 1, the channel News has 31
    messages, and a cancellation is delivered during the first sleep. *)
Definition interrupted_run : Env :=
  {| env_latency := fun _ => 0%N;
     env_sleep := fun _ => Interrupted 250000;
     env_start := fun _ => Returns tt;
     env_disconnect := fun _ => Returns tt;
     env_get_entity := fun _ i =>
       match i with
       | IdStr "news" => Returns news
       | IdStr "archive" => Returns archive
       | _ => Raises (Exn ValueError "Cannot find any entity corresponding to the input")
       end;
     env_iter_messages := fun _ _ _ _ => messages_down_from 31;
     env_get_messages := fun _ _ => Returns [];
     env_download_media := fun _ _ path => Returns (Some path);
     env_send_file := fun _ _ _ => Returns (Some 1);
     env_send_message := fun _ _ _ => Returns (Some 1);
     env_delete_messages := fun _ _ => Returns tt;
     env_exists := fun _ _ => true;
     env_getsize := fun _ _ => Returns 1024;
     env_remove := fun _ _ => Returns tt;
     env_write := fun _ => Returns tt;
     env_prompt := fun _ => Returns "1" |}.

Definition book : Uploader.local_file :=
  {| Uploader.file_path := "media_files/book.pdf";
     Uploader.file_name := "book.pdf";
     Uploader.st_size := 2048;
     Uploader.st_mtime := "1700000000.5" |}.

End Sample.

(** ** Vocabulary of the properties *)

(** The calls that move content: a download, an upload or a sent text. *)
Definition is_transfer_call (ev : event) : bool :=
  match ev with
  | EvDownloadMedia _ _ | EvSendFile _ _ _ | EvSendMessage _ _ => true
  | _ => false
  end.

(** Reading the last message of a target, for the progress report, raises
    nothing but an [Exception]. *)
Definition progress_answers (e : Env) : Prop :=
  forall n chat ex, env_get_messages e n chat = Raises ex -> is_Exception ex = true.

(** Every sleep ends: no cancellation is delivered. *)
Definition sleeps_end (e : Env) : Prop := forall n, exists extra, env_sleep e n = Woke extra.

(** An environment that delivers no cancellation: every sleep ends, and
    what the calls used here raise derives from [Exception]. *)
Definition polite (e : Env) : Prop :=
  (forall n, exists extra, env_sleep e n = Woke extra)
  /\ progress_answers e
  /\ (forall n ex, env_write e n = Raises ex -> is_Exception ex = true).

(** The file system accepts every write of the history file. *)
Definition writes_succeed (e : Env) : Prop := forall n, env_write e n = Returns tt.

(** A method respects the relation [R] between the state it starts in and
    the state it ends in, however it ends. *)
Definition preserves {S D A} (R : St S D -> St S D -> Prop) (m : M S D A) : Prop :=
  forall σ r σ', m σ = (r, σ') -> R σ σ'.

(** Steps of the world that keep the environment and the history file:
    printing, calls, sleeps. *)
Definition quiet {D} (g : World D -> World D) : Prop :=
  forall w, env (g w) = env w /\ history_file (g w) = history_file w.

Module ForwarderSpec.
Import Forwarder Calls.

Implicit Types σ : St TelegramForwarder history.

(** The object after a call that leaves the window at [t] with [n]
    requests counted. *)
Definition window_at (t n : Z) (s : TelegramForwarder) : TelegramForwarder :=
  set_requests_in_window n (set_last_request_time t s).

Definition time_passed σ : Z := now (world σ) - last_request_time (self σ).

(** What a call of the rate limiter may change: its own two fields, the
    clock, and the trace, to which it adds no transfer call. *)
Definition limiter_only σ σ' : Prop :=
  forward_history (self σ') = forward_history (self σ)
  /\ stats (self σ') = stats (self σ)
  /\ sources (self σ') = sources (self σ)
  /\ targets (self σ') = targets (self σ)
  /\ env (world σ') = env (world σ)
  /\ history_file (world σ') = history_file (world σ)
  /\ exists evs, trace (world σ') = (trace (world σ) ++ evs)%list
       /\ Forall (fun ev => is_transfer_call ev = false) evs.

Definition no_content (m : message) : Prop :=
  msg_media m = false /\ PyStr.truthy (msg_text m) = false.

(** [stats['failed'] += k] *)
Definition add_failed (k : Z) (st : Stats) : Stats :=
  {| forwarded := forwarded st; skipped := skipped st; failed := failed st + k;
     last_message_id := last_message_id st; last_update := last_update st;
     messages_in_window := messages_in_window st; last_print := last_print st |}.

(** What the transfer of a message with no content may change: the rate
    limiter's fields, the clock, the trace, and the failed counter, which
    goes up by [k]. *)
Definition failed_only (k : Z) σ σ' : Prop :=
  forward_history (self σ') = forward_history (self σ)
  /\ stats (self σ') = add_failed k (stats (self σ))
  /\ targets (self σ') = targets (self σ)
  /\ env (world σ') = env (world σ)
  /\ history_file (world σ') = history_file (world σ).

(** Between two points of a run: when writes succeed, either the history
    and the file are the ones they were, or the file holds the whole
    history of the later point. *)
Definition in_step σ σ' : Prop :=
  env (world σ') = env (world σ)
  /\ (writes_succeed (env (world σ)) ->
      (forward_history (self σ') = forward_history (self σ)
       /\ history_file (world σ') = history_file (world σ))
      \/ history_file (world σ') = Json (forward_history (self σ'))).

(** A call either goes through without sleeping, inside the window it is
    credited to, or sleeps for what is left of the open window, after
    which a new window starts with the call as its first request. *)
Definition well_behaved (r : report) : Prop :=
  (waited r = []
   /\ window r <= arrived r < window r + RATE_WINDOW
   /\ 1 <= counted r <= RATE_LIMIT)
  \/ (waited r = [EvSleep (RATE_WINDOW - (arrived r - window_before r))]
      /\ 0 <= arrived r - window_before r < RATE_WINDOW
      /\ arrived r + (RATE_WINDOW - (arrived r - window_before r)) <= window r
      /\ counted r = 1).

Definition credited (w : Z) (reports : list report) : Z :=
  Z.of_nat (List.length (in_window w reports)).

End ForwarderSpec.

Module UploaderSpec.
Import Uploader.

Implicit Types σ : St TelegramUploader history.

(** The entries of the history under the targets other than [target_id]
    are the ones they were. *)
Definition others_untouched (target_id : string) σ σ' : Prop :=
  forall other, other <> target_id ->
    upload_history (self σ') !! other = upload_history (self σ) !! other.

Definition in_step σ σ' : Prop :=
  env (world σ') = env (world σ)
  /\ (writes_succeed (env (world σ)) ->
      (upload_history (self σ') = upload_history (self σ)
       /\ history_file (world σ') = history_file (world σ))
      \/ history_file (world σ') = Json (upload_history (self σ'))).

End UploaderSpec.

(** An environment that delivers neither a cancellation nor an
    interrupt: every sleep ends, and whatever a call raises derives from
    [Exception]. *)
Record civil (e : Env) : Prop := {
  civil_sleep : sleeps_end e;
  civil_start : forall n x, env_start e n = Raises x -> is_Exception x = true;
  civil_disconnect : forall n x, env_disconnect e n = Raises x -> is_Exception x = true;
  civil_get_entity : forall n i x, env_get_entity e n i = Raises x -> is_Exception x = true;
  civil_get_messages :
    forall n chat x, env_get_messages e n chat = Raises x -> is_Exception x = true;
  civil_download_media :
    forall n m path x, env_download_media e n m path = Raises x -> is_Exception x = true;
  civil_send_file :
    forall n target path x, env_send_file e n target path = Raises x -> is_Exception x = true;
  civil_send_message :
    forall n target text x,
      env_send_message e n target text = Raises x -> is_Exception x = true;
  civil_delete_messages :
    forall n target x, env_delete_messages e n target = Raises x -> is_Exception x = true;
  civil_getsize : forall n path x, env_getsize e n path = Raises x -> is_Exception x = true;
  civil_remove : forall n path x, env_remove e n path = Raises x -> is_Exception x = true;
  civil_write : forall n x, env_write e n = Raises x -> is_Exception x = true;
  civil_prompt : forall n x, env_prompt e n = Raises x -> is_Exception x = true
}.

(** How a method may end. It does end, and it keeps the environment. An
    exception it raises that derives from [Exception] is allowed only when
    [exceptions] is set; any other exception it raises was delivered by
    the environment, which is then not civil. *)
Definition orderly {S D A} (exceptions : bool) (m : M S D A) : Prop :=
  forall σ r σ', m σ = (r, σ') ->
    env (world σ') = env (world σ)
    /\ match r with
       | Ok _ => True
       | Raise e => if is_Exception e then exceptions = true else ~ civil (env (world σ))
       | Unfinished => False
       end.

(** A relation between the object before and the object after. *)
Definition on_self {S D} (P : S -> S -> Prop) (σ σ' : St S D) : Prop :=
  P (self σ) (self σ').

(** The events a run from [σ] to [σ'] has added to the trace. *)
Definition added {S D} (σ σ' : St S D) (evs : list event) : Prop :=
  trace (world σ') = (trace (world σ) ++ evs)%list.

(** A run from [σ] to [σ'] has added to the trace only events that
    satisfy [ok]. *)
Definition emits {S D} (ok : event -> Prop) (σ σ' : St S D) : Prop :=
  exists evs, added σ σ' evs /\ Forall ok evs.

(** The object has changed as [P] allows and the trace has grown by
    events that satisfy [ok]. *)
Definition framed {S D} (P : S -> S -> Prop) (ok : event -> Prop) (σ σ' : St S D) : Prop :=
  on_self P σ σ' /\ emits ok σ σ'.

(** The chats a script writes to: the targets of its uploads, of the
    texts it sends and of its deletions. *)
Definition written_chat (ev : event) : option ident :=
  match ev with
  | EvSendFile target _ _ => Some target
  | EvSendMessage target _ => Some (IdInt target)
  | EvDeleteMessages target => Some (IdInt target)
  | _ => None
  end.

(** The event writes to no chat outside the entities [tgts]. *)
Definition writes_within (tgts : list entity) (ev : event) : Prop :=
  forall chat, written_chat ev = Some chat -> exists t, In t tgts /\ chat = IdInt (ent_id t).

Module ForwarderFrames.
Import Forwarder.

Implicit Types σ : St TelegramForwarder history.


(** The history has kept every key it had. *)
Definition keeps_keys (s s' : TelegramForwarder) : Prop :=
  forall k, is_Some (forward_history s !! k) -> is_Some (forward_history s' !! k).

(** The targets are the ones they were, and nothing was written to a
    chat outside [tgts]. *)
Definition within (tgts : list entity) σ σ' : Prop :=
  framed (fun s s' => targets s' = targets s) (writes_within tgts) σ σ'.

(** The same, for the targets of the state the run starts in. *)
Definition within_targets σ σ' : Prop := within (targets (self σ)) σ σ'.

End ForwarderFrames.

Module UploaderFrames.
Import Uploader.

Implicit Types σ : St TelegramUploader history.

(** The history has kept every file it had recorded for every target. *)
Definition keeps_files (s s' : TelegramUploader) : Prop :=
  forall target_id file_hash,
    already_uploaded (upload_history s) target_id file_hash = true ->
    already_uploaded (upload_history s') target_id file_hash = true.

(** The targets are the ones they were, and nothing was written to a
    chat outside [tgts]. *)
Definition within (tgts : list entity) σ σ' : Prop :=
  framed (fun s s' => targets s' = targets s) (writes_within tgts) σ σ'.

End UploaderFrames.

Module ForwarderGrowth.
Import Forwarder.

Implicit Types σ : St TelegramForwarder history.

(** The targets have grown by channels and groups. *)
Definition more_targets (s s' : TelegramForwarder) : Prop :=
  exists more, targets s' = (targets s ++ more)%list
               /\ Forall (fun t => is_channel_or_chat t = true) more.

(** Over a whole session: the targets have grown by channels and groups,
    and nothing was written to a chat outside the targets the session
    ended with. *)
Definition grows_within σ σ' : Prop :=
  on_self more_targets σ σ'
  /\ emits (writes_within (targets (self σ'))) σ σ'.

End ForwarderGrowth.

Module UploaderWrites.
Import Uploader UploaderFrames.

Implicit Types σ : St TelegramUploader history.

(** Nothing was written to a chat outside the targets of the state the
    run starts in, and the targets are the ones they were. *)
Definition within_targets σ σ' : Prop := within (targets (self σ)) σ σ'.

End UploaderWrites.

Module ScrapperNames.
Import Scrapper.

(** The characters [generate_filename] keeps of the original name. *)
Definition safe_char (c : ascii) : bool :=
  PyStr.is_alnum c || Ascii.eqb c " " || Ascii.eqb c "-" || Ascii.eqb c "_" || Ascii.eqb c ".".

(** The message carries no file name, so that [generate_filename] makes
    one up. *)
Definition unnamed (m : message) : Prop :=
  match msg_document m with
  | Some doc => default "" (head (file_names doc)) = ""
  | None => True
  end.

End ScrapperNames.

(** * Properties *)

(** ** Python strings *)

Example replace_minus : PyStr.replace "-" "" "-10012345" = "10012345".
Proof. reflexivity. Qed.

Example replace_prefix : PyStr.replace "-100" "" "-10012345" = "12345".
Proof. reflexivity. Qed.

Example int_negative : PyStr.int "-10012345" = Returns (-10012345).
Proof. reflexivity. Qed.

Example int_two_signs :
  PyStr.int "-100-5" =
  Raises (Exn ValueError "invalid literal for int() with base 10: '-100-5'").
Proof. reflexivity. Qed.

Example split_key : PyStr.split "_" "100_5" = ["100"; "5"].
Proof. reflexivity. Qed.

Example splitext_plain : PyStr.splitext_ext "Some.Book.EPUB" = ".EPUB".
Proof. reflexivity. Qed.

Example splitext_hidden : PyStr.splitext_ext "dir/.bashrc" = "".
Proof. reflexivity. Qed.

(** ** Reasoning about methods *)

Section MonadFacts.
Context {S D : Type}.
Implicit Types σ : St S D.

Lemma bind_Ok {A B} (m : M S D A) (k : A -> M S D B) σ a σ' :
  m σ = (Ok a, σ') -> bind m k σ = k a σ'.
Proof. intros H. unfold bind. now rewrite H. Qed.

Lemma bind_Raise {A B} (m : M S D A) (k : A -> M S D B) σ e σ' :
  m σ = (Raise e, σ') -> bind m k σ = (Raise e, σ').
Proof. intros H. unfold bind. now rewrite H. Qed.

Lemma bind_Unfinished {A B} (m : M S D A) (k : A -> M S D B) σ σ' :
  m σ = (Unfinished, σ') -> bind m k σ = (Unfinished, σ').
Proof. intros H. unfold bind. now rewrite H. Qed.

Lemma try_except_Ok {A} (m : M S D A) catches h σ a σ' :
  m σ = (Ok a, σ') -> try_except m catches h σ = (Ok a, σ').
Proof. intros H. unfold try_except. now rewrite H. Qed.

Lemma try_except_caught {A} (m : M S D A) catches h σ e σ' :
  m σ = (Raise e, σ') -> catches e = true -> try_except m catches h σ = h e σ'.
Proof. intros H C. unfold try_except. now rewrite H, C. Qed.

Lemma try_except_passed {A} (m : M S D A) catches h σ e σ' :
  m σ = (Raise e, σ') -> catches e = false ->
  try_except m catches h σ = (Raise e, σ').
Proof. intros H C. unfold try_except. now rewrite H, C. Qed.

(** What a run of [bind m k] is made of. *)
Lemma bind_inv {A B} (m : M S D A) (k : A -> M S D B) σ r σ' :
  bind m k σ = (r, σ') ->
  (exists a σ1, m σ = (Ok a, σ1) /\ k a σ1 = (r, σ'))
  \/ (exists e, m σ = (Raise e, σ') /\ r = Raise e)
  \/ (m σ = (Unfinished, σ') /\ r = Unfinished).
Proof.
  unfold bind. destruct (m σ) as [[a|e|] σ1]; intros H.
  - left. eauto.
  - right. left. inversion H; subst. eauto.
  - right. right. inversion H; subst. eauto.
Qed.

Lemma try_except_inv {A} (m : M S D A) catches h σ r σ' :
  try_except m catches h σ = (r, σ') ->
  (exists a, m σ = (Ok a, σ') /\ r = Ok a)
  \/ (exists e σ1, m σ = (Raise e, σ1) /\ catches e = true /\ h e σ1 = (r, σ'))
  \/ (exists e, m σ = (Raise e, σ') /\ catches e = false /\ r = Raise e)
  \/ (m σ = (Unfinished, σ') /\ r = Unfinished).
Proof.
  unfold try_except. destruct (m σ) as [[a|e|] σ1]; intros H.
  - left. inversion H; subst. eauto.
  - destruct (catches e) eqn:C.
    + right. left. eauto 6.
    + right. right. left. inversion H; subst. eauto.
  - right. right. right. inversion H; subst. eauto.
Qed.

(** A loop whose body raises stops there. *)
Lemma for_each_raises {A} (before : list A) x after (body : A -> M S D unit) σ σk e σ' :
  for_each before body σ = (Ok tt, σk) ->
  body x σk = (Raise e, σ') ->
  for_each (before ++ x :: after) body σ = (Raise e, σ').
Proof.
  revert σ. induction before as [|y before IH]; intros σ Hb Hx; simpl in *.
  - inversion Hb; subst. unfold bind. now rewrite Hx.
  - destruct (bind_inv _ _ _ _ _ Hb) as [(u & σ1 & H1 & H2)|[(e' & _ & He)|[_ He]]];
      try discriminate.
    unfold bind at 1. rewrite H1. apply IH; assumption.
Qed.

(** *** Relations that every step of a method respects *)

Section Preserves.
Context (R : St S D -> St S D -> Prop).
Context (R_refl : forall σ, R σ σ).
Context (R_trans : forall σ1 σ2 σ3, R σ1 σ2 -> R σ2 σ3 -> R σ1 σ3).

Lemma preserves_ret {A} (a : A) : preserves R (ret a).
Proof using R_refl. intros σ r σ' H. inversion H; subst. apply R_refl. Qed.

Lemma preserves_raise {A} e : preserves R (@raise S D A e).
Proof using R_refl. intros σ r σ' H. inversion H; subst. apply R_refl. Qed.

Lemma preserves_unfinished {A} : preserves R (@unfinished S D A).
Proof using R_refl. intros σ r σ' H. inversion H; subst. apply R_refl. Qed.

Lemma preserves_lift {A} (o : outcome A) : preserves R (lift o).
Proof using R_refl.
  intros σ r σ' H. unfold lift in H. destruct o; inversion H; subst; apply R_refl.
Qed.

Lemma preserves_gets {A} (f : S -> A) : preserves R (gets f).
Proof using R_refl. intros σ r σ' H. inversion H; subst. apply R_refl. Qed.

Lemma preserves_time_time : preserves R time_time.
Proof using R_refl. intros σ r σ' H. inversion H; subst. apply R_refl. Qed.

Lemma preserves_history_exists : preserves R history_exists.
Proof using R_refl. intros σ r σ' H. inversion H; subst. apply R_refl. Qed.

Lemma preserves_bind {A B} (m : M S D A) (k : A -> M S D B) :
  preserves R m -> (forall a, preserves R (k a)) -> preserves R (bind m k).
Proof using R_trans.
  intros Hm Hk σ r σ' H.
  destruct (bind_inv _ _ _ _ _ H) as [(a & σ1 & H1 & H2)|[(e & H1 & _)|[H1 _]]].
  - eapply R_trans; [eapply Hm | eapply Hk]; eauto.
  - eapply Hm; eauto.
  - eapply Hm; eauto.
Qed.

Lemma preserves_try_except {A} (m : M S D A) catches h :
  preserves R m -> (forall e, preserves R (h e)) -> preserves R (try_except m catches h).
Proof using R_trans.
  intros Hm Hh σ r σ' H.
  destruct (try_except_inv _ _ _ _ _ _ H)
    as [(a & H1 & _)|[(e & σ1 & H1 & _ & H2)|[(e & H1 & _)|[H1 _]]]].
  - eapply Hm; eauto.
  - eapply R_trans; [eapply Hm | eapply Hh]; eauto.
  - eapply Hm; eauto.
  - eapply Hm; eauto.
Qed.

Lemma preserves_try_finally {A} (m : M S D A) fin :
  preserves R m -> preserves R fin -> preserves R (try_finally m fin).
Proof using R_trans.
  intros Hm Hf σ r σ' H. unfold try_finally in H.
  destruct (m σ) as [[a|e|] σ1] eqn:E1.
  - destruct (fin σ1) as [[u|e'|] σ2] eqn:E2; inversion H; subst;
      (eapply R_trans; [eapply Hm | eapply Hf]; eauto).
  - destruct (fin σ1) as [[u|e'|] σ2] eqn:E2; inversion H; subst;
      (eapply R_trans; [eapply Hm | eapply Hf]; eauto).
  - inversion H; subst. eapply Hm; eauto.
Qed.

Lemma preserves_for_each {A} (xs : list A) (body : A -> M S D unit) :
  (forall x, preserves R (body x)) -> preserves R (for_each xs body).
Proof using R_refl R_trans.
  intros Hb. induction xs as [|x xs IH]; simpl.
  - apply preserves_ret.
  - apply preserves_bind; auto.
Qed.

Lemma preserves_fold_each {A B} (xs : list A) (acc : B) body :
  (forall x b, preserves R (body x b)) -> preserves R (fold_each xs acc body).
Proof using R_refl R_trans.
  intros Hb. revert acc. induction xs as [|x xs IH]; intros acc; simpl.
  - apply preserves_ret.
  - apply preserves_bind; auto.
Qed.

Lemma preserves_if {A} (b : bool) (m1 m2 : M S D A) :
  preserves R m1 -> preserves R m2 -> preserves R (if b then m1 else m2).
Proof. destruct b; auto. Qed.

(** Steps that change the object or the world respect [R] when each
    such change does. *)
Lemma preserves_modify (f : S -> S) :
  (forall σ, R σ {| self := f (self σ); world := world σ |}) ->
  preserves R (modify f).
Proof. intros Hf σ r σ' H. inversion H; subst. apply Hf. Qed.

Lemma preserves_world {A} (m : M S D A) :
  (forall σ r σ', m σ = (r, σ') -> exists g, σ' = with_world g σ /\ R σ (with_world g σ)) ->
  preserves R m.
Proof. intros Hm σ r σ' H. destruct (Hm _ _ _ H) as (g & -> & HR). exact HR. Qed.

Lemma quiet_log ev : @quiet D (log ev).
Proof. intros w. split; reflexivity. Qed.

Lemma quiet_advance ev : @quiet D (advance ev).
Proof. intros w. split; reflexivity. Qed.

Lemma quiet_pass_time d ev : @quiet D (pass_time d ev).
Proof. intros w. split; reflexivity. Qed.

Context (R_quiet : forall σ g, quiet g -> R σ (with_world g σ)).

Lemma preserves_say l : preserves R (say l).
Proof using R_quiet.
  intros σ r σ' H. inversion H; subst. apply R_quiet, quiet_log.
Qed.

Lemma preserves_interact {A} ev (answer : Env -> nat -> A) : preserves R (interact ev answer).
Proof using R_quiet.
  intros σ r σ' H. inversion H; subst. apply R_quiet, quiet_advance.
Qed.

Lemma preserves_call {A} ev (answer : Env -> nat -> outcome A) : preserves R (call ev answer).
Proof using R_quiet.
  intros σ r σ' H. unfold call in H.
  destruct (answer _ _); inversion H; subst; apply R_quiet, quiet_advance.
Qed.

Lemma preserves_asyncio_sleep d : preserves R (asyncio_sleep d).
Proof using R_quiet.
  intros σ r σ' H. unfold asyncio_sleep in H.
  destruct (env_sleep _ _); inversion H; subst; apply R_quiet, quiet_pass_time.
Qed.

Lemma preserves_read_history : preserves R read_history.
Proof using R_quiet.
  intros σ r σ' H. unfold read_history in H.
  destruct (history_file _); inversion H; subst; apply R_quiet, quiet_advance.
Qed.

End Preserves.

End MonadFacts.

(** ** The forwarder's rate limiter *)

Module ForwarderLimiter.
Import Forwarder ForwarderSpec.

Implicit Types σ : St TelegramForwarder history.

(** The window is over: the call opens a new one and is its first
    request. It does not sleep. *)
Lemma wait_window_over σ :
  RATE_WINDOW <= time_passed σ ->
  _wait_for_rate_limit σ =
    (Ok tt, {| self := window_at (now (world σ)) 1 (self σ); world := world σ |}).
Proof.
  intros H. unfold time_passed in H.
  unfold _wait_for_rate_limit, try_except, bind, time_time, gets, modify; simpl.
  destruct (Z.leb_spec RATE_WINDOW (now (world σ) - last_request_time (self σ)));
    [reflexivity | lia].
Qed.

(** The window is open and has budget left: the call is counted and does
    not sleep. *)
Lemma wait_under_budget σ :
  time_passed σ < RATE_WINDOW ->
  requests_in_window (self σ) < RATE_LIMIT ->
  _wait_for_rate_limit σ =
    (Ok tt, {| self := set_requests_in_window (requests_in_window (self σ) + 1) (self σ);
               world := world σ |}).
Proof.
  intros H1 H2. unfold time_passed in H1.
  unfold _wait_for_rate_limit, try_except, bind, time_time, gets, modify; simpl.
  destruct (Z.leb_spec RATE_WINDOW (now (world σ) - last_request_time (self σ)));
    [lia |].
  simpl.
  destruct (Z.leb_spec RATE_LIMIT (requests_in_window (self σ))); [lia | reflexivity].
Qed.

(** The window is open and its budget is spent: the call sleeps for the
    rest of the window; when it wakes, a new window starts at the wake-up
    time and the call is its first request. *)
Lemma wait_budget_spent σ extra :
  time_passed σ < RATE_WINDOW ->
  RATE_LIMIT <= requests_in_window (self σ) ->
  env_sleep (env (world σ)) (tick (world σ)) = Woke extra ->
  let d := RATE_WINDOW - time_passed σ in
  let w' := pass_time (Z.max 0 d + Z.of_N extra) (EvSleep d) (world σ) in
  _wait_for_rate_limit σ =
    (Ok tt, {| self := window_at (now w') 1 (self σ); world := w' |}).
Proof.
  intros H1 H2 H3. unfold time_passed in *.
  unfold _wait_for_rate_limit, try_except, bind, time_time, gets, modify, asyncio_sleep;
    simpl.
  destruct (Z.leb_spec RATE_WINDOW (now (world σ) - last_request_time (self σ)));
    [lia |].
  simpl.
  destruct (Z.leb_spec RATE_LIMIT (requests_in_window (self σ))); [| lia].
  simpl. rewrite H3. reflexivity.
Qed.

(** A cancellation delivered during the sleep is raised again by the
    call, after the line that reports it. *)
Lemma wait_cancelled σ after :
  time_passed σ < RATE_WINDOW ->
  RATE_LIMIT <= requests_in_window (self σ) ->
  env_sleep (env (world σ)) (tick (world σ)) = Interrupted after ->
  let d := RATE_WINDOW - time_passed σ in
  _wait_for_rate_limit σ =
    (Raise (Exn CancelledError ""),
     with_world (log (EvPrint RateLimitWaitCancelled))
       (with_world (pass_time (Z.of_N after) (EvSleep d)) σ)).
Proof.
  intros H1 H2 H3. unfold time_passed in *.
  unfold _wait_for_rate_limit, try_except, bind, time_time, gets, modify, asyncio_sleep,
    say, raise; simpl.
  destruct (Z.leb_spec RATE_WINDOW (now (world σ) - last_request_time (self σ)));
    [lia |].
  simpl.
  destruct (Z.leb_spec RATE_LIMIT (requests_in_window (self σ))); [| lia].
  simpl. rewrite H3. reflexivity.
Qed.

(** The four cases above are all there is. *)
Lemma wait_cases σ :
  (RATE_WINDOW <= time_passed σ)
  \/ (time_passed σ < RATE_WINDOW /\ requests_in_window (self σ) < RATE_LIMIT)
  \/ (time_passed σ < RATE_WINDOW /\ RATE_LIMIT <= requests_in_window (self σ)
      /\ exists extra, env_sleep (env (world σ)) (tick (world σ)) = Woke extra)
  \/ (time_passed σ < RATE_WINDOW /\ RATE_LIMIT <= requests_in_window (self σ)
      /\ exists after, env_sleep (env (world σ)) (tick (world σ)) = Interrupted after).
Proof.
  destruct (Z_lt_le_dec (time_passed σ) RATE_WINDOW) as [H1|H1]; [| now left].
  destruct (Z_lt_le_dec (requests_in_window (self σ)) RATE_LIMIT) as [H2|H2];
    [right; left; auto |].
  destruct (env_sleep (env (world σ)) (tick (world σ))) as [x|x] eqn:E.
  - right; right; left. eauto.
  - right; right; right. eauto.
Qed.

End ForwarderLimiter.

(** ** Skipping what the history already holds *)

Module ForwarderSkip.
Import Forwarder ForwarderSpec ForwarderLimiter.

Implicit Types σ : St TelegramForwarder history.

Lemma limiter_only_refl σ : limiter_only σ σ.
Proof.
  unfold limiter_only. repeat split; auto.
  exists []. split; [now rewrite app_nil_r | constructor].
Qed.

Lemma wait_limiter_only σ r σ' :
  _wait_for_rate_limit σ = (r, σ') -> limiter_only σ σ'.
Proof.
  intros H.
  destruct (wait_cases σ) as [C|[[C1 C2]|[(C1 & C2 & x & C3)|(C1 & C2 & x & C3)]]].
  - rewrite (wait_window_over σ C) in H. inversion H; subst.
    unfold limiter_only; simpl. repeat split; auto.
    exists []. split; [now rewrite app_nil_r | constructor].
  - rewrite (wait_under_budget σ C1 C2) in H. inversion H; subst.
    unfold limiter_only; simpl. repeat split; auto.
    exists []. split; [now rewrite app_nil_r | constructor].
  - rewrite (wait_budget_spent σ x C1 C2 C3) in H. inversion H; subst.
    unfold limiter_only; simpl. repeat split; auto.
    eexists. split; [reflexivity | repeat constructor].
  - rewrite (wait_cancelled σ x C1 C2 C3) in H. inversion H; subst.
    unfold limiter_only; simpl. repeat split; auto.
    exists [EvSleep (RATE_WINDOW - time_passed σ); EvPrint RateLimitWaitCancelled].
    split; [now rewrite <- app_assoc | repeat constructor].
Qed.

(** The rate limiter raises nothing but the cancellation of its sleep. *)
Lemma wait_raises_cancellation σ e σ' :
  _wait_for_rate_limit σ = (Raise e, σ') -> e = Exn CancelledError "".
Proof.
  intros H.
  destruct (wait_cases σ) as [C|[[C1 C2]|[(C1 & C2 & x & C3)|(C1 & C2 & x & C3)]]].
  - rewrite (wait_window_over σ C) in H. discriminate.
  - rewrite (wait_under_budget σ C1 C2) in H. discriminate.
  - rewrite (wait_budget_spent σ x C1 C2 C3) in H. discriminate.
  - rewrite (wait_cancelled σ x C1 C2 C3) in H. now inversion H.
Qed.

Lemma wait_finishes σ σ' : _wait_for_rate_limit σ <> (Unfinished, σ').
Proof.
  intros H.
  destruct (wait_cases σ) as [C|[[C1 C2]|[(C1 & C2 & x & C3)|(C1 & C2 & x & C3)]]].
  - rewrite (wait_window_over σ C) in H. discriminate.
  - rewrite (wait_under_budget σ C1 C2) in H. discriminate.
  - rewrite (wait_budget_spent σ x C1 C2 C3) in H. discriminate.
  - rewrite (wait_cancelled σ x C1 C2 C3) in H. discriminate.
Qed.

(** The loop body on a message whose key the history holds: once the rate
    limiter has returned, the message is counted as skipped and nothing
    else happens. When the rate limiter raises, so does the body. *)
Lemma body_on_known_key source source_id message σ :
  is_Some (forward_history (self σ) !! dedup_key source_id (msg_id message)) ->
  forward_messages_body source source_id message σ =
    match _wait_for_rate_limit σ with
    | (Ok _, σ1) => (Ok tt, {| self := set_stats incr_skipped (self σ1); world := world σ1 |})
    | other => other
    end.
Proof.
  intros [entry Hk].
  unfold forward_messages_body, try_except at 1, bind at 1.
  destruct (_wait_for_rate_limit σ) as [[[]|e|] σ1] eqn:W.
  - destruct (wait_limiter_only _ _ _ W) as (Hh & _).
    unfold bind, gets, modify. simpl. rewrite Hh, Hk. reflexivity.
  - rewrite (wait_raises_cancellation _ _ _ W). reflexivity.
  - reflexivity.
Qed.

(** The body starts with the rate limiter: what the rate limiter raises,
    the body raises, from the state the rate limiter left. *)
Lemma body_reraises_wait source source_id message σ e σ1 :
  _wait_for_rate_limit σ = (Raise e, σ1) ->
  forward_messages_body source source_id message σ = (Raise e, σ1).
Proof.
  intros W. unfold forward_messages_body, try_except, bind. rewrite W.
  rewrite (wait_raises_cancellation _ _ _ W). reflexivity.
Qed.

End ForwarderSkip.

(** C2. An item whose dedup key the history (or the set of processed ids)
    already holds is never transferred again. In the forwarder, once the
    loop has reached the item's membership test (its rate-limiter call has
    returned), the body returns normally, so the loop goes on with the next
    item; the history is the one it was, the skipped counter is one higher,
    the other counters are unchanged, and no download, upload or send was
    made. In the uploader, [upload_file] returns [False] with only the
    skipped counter changed. In both downloaders the message is left with
    only the skipped counter changed. *)
Theorem known_key_is_skipped_not_transferred :
  (forall source source_id message
          (σ σ' : St Forwarder.TelegramForwarder Forwarder.history) r,
     is_Some (Forwarder.forward_history (self σ)
                !! Forwarder.dedup_key source_id (msg_id message)) ->
     Forwarder.forward_messages_body source source_id message σ = (r, σ') ->
     Forwarder.forward_history (self σ') = Forwarder.forward_history (self σ)
     /\ (exists evs, trace (world σ') = (trace (world σ) ++ evs)%list
           /\ Forall (fun ev => is_transfer_call ev = false) evs)
     /\ ((exists σ1, Forwarder._wait_for_rate_limit σ = (Ok tt, σ1)) ->
         r = Ok tt
         /\ Forwarder.skipped (Forwarder.stats (self σ'))
            = Forwarder.skipped (Forwarder.stats (self σ)) + 1
         /\ Forwarder.forwarded (Forwarder.stats (self σ'))
            = Forwarder.forwarded (Forwarder.stats (self σ))
         /\ Forwarder.failed (Forwarder.stats (self σ'))
            = Forwarder.failed (Forwarder.stats (self σ))))
  /\ (forall filepath target (σ : St Uploader.TelegramUploader Uploader.history),
        Uploader.already_uploaded (Uploader.upload_history (self σ))
          (PyStr.str (ent_id target)) (Uploader.file_key filepath) = true ->
        Uploader.upload_file filepath target σ =
          (Ok false,
           {| self := Uploader.set_stats Uploader.incr_skipped (self σ);
              world := world σ |}))
  /\ (forall message count start (σ : St Scrapper.TelegramDownloader unit),
        msg_id message ∈ Scrapper.processed_ids (self σ) ->
        Scrapper.process_single_message (Some message) count start σ =
          (Ok (count, false),
           {| self := Scrapper.set_stats Scrapper.incr_skipped (self σ);
              world := world σ |}))
  /\ (forall message (σ : St Hello.TelegramDownloader unit),
        msg_id message ∈ Hello.processed_ids (self σ) ->
        Hello.download_media_body message σ =
          (Ok tt,
           {| self := Hello.set_stats Hello.incr_skipped (self σ);
              world := world σ |})).
Proof.
  split; [| split; [| split]].
  - intros source source_id message σ σ' r Hk Hb.
    rewrite (ForwarderSkip.body_on_known_key _ _ _ _ Hk) in Hb.
    destruct (Forwarder._wait_for_rate_limit σ) as [[[]|e|] σ1] eqn:W.
    + destruct (ForwarderSkip.wait_limiter_only _ _ _ W)
        as (Hh & Hs & _ & _ & _ & _ & Ht).
      inversion Hb; subst; simpl.
      split; [exact Hh |]. split; [exact Ht |].
      intros _. rewrite Hs. simpl. auto.
    + destruct (ForwarderSkip.wait_limiter_only _ _ _ W)
        as (Hh & Hs & _ & _ & _ & _ & Ht).
      inversion Hb; subst.
      split; [exact Hh |]. split; [exact Ht |].
      intros [σ2 Hσ2]. discriminate.
    + destruct (ForwarderSkip.wait_limiter_only _ _ _ W)
        as (Hh & Hs & _ & _ & _ & _ & Ht).
      inversion Hb; subst.
      split; [exact Hh |]. split; [exact Ht |].
      intros [σ2 Hσ2]. discriminate.
  - intros filepath target σ H.
    unfold Uploader.upload_file, bind, gets. simpl. rewrite H. reflexivity.
  - intros message count start σ H.
    unfold Scrapper.process_single_message, bind, gets. simpl.
    rewrite bool_decide_eq_true_2 by exact H. reflexivity.
  - intros message σ H.
    unfold Hello.download_media_body, bind, gets. simpl.
    rewrite bool_decide_eq_true_2 by exact H. reflexivity.
Qed.

(** C2 on the history [{"100_5": ...}] and message 5 of channel 100: the
    loop body returns, counts one skip, leaves the history as it was and
    makes no transfer call. *)
Lemma known_key_is_skipped_witness :
  let σ : St Forwarder.TelegramForwarder Forwarder.history :=
    {| self := Sample.forwarder {["100_5" := Forwarder.Seen 0 "News" 5]}
                 [Sample.news] [Sample.archive] 0;
       world := Sample.boot Sample.calm 0 Absent |} in
  let out := Forwarder.forward_messages_body Sample.news "100" (Sample.text_message 5 "hello") σ in
  fst out = Ok tt
  /\ Forwarder.skipped (Forwarder.stats (self (snd out))) = 0 + 1
  /\ Forwarder.forward_history (self (snd out)) = Forwarder.forward_history (self σ)
  /\ exists evs, trace (world (snd out)) = (trace (world σ) ++ evs)%list
       /\ Forall (fun ev => is_transfer_call ev = false) evs.
Proof.
  intros σ out.
  destruct (proj1 known_key_is_skipped_not_transferred
              Sample.news "100" (Sample.text_message 5 "hello") σ (snd out) (fst out))
    as (Hh & Ht & Hs).
  - vm_compute. eexists. reflexivity.
  - subst out. destruct (Forwarder.forward_messages_body _ _ _ σ). reflexivity.
  - destruct Hs as (Hr & Hsk & _).
    { eexists. vm_compute. reflexivity. }
    split; [exact Hr |]. split; [exact Hsk |]. split; [exact Hh | exact Ht].
Defined.

(** ** The order of the rate limiter and the membership test *)

(** C6, as stated, fails: on the history [{"100_5": ...}], with the budget
    of the open window spent, the loop body on message 5 of channel 100
    sleeps in the rate limiter for the whole window before it counts the
    message as skipped. *)
Lemma known_item_still_waits_for_rate_limit :
  let σ : St Forwarder.TelegramForwarder Forwarder.history :=
    {| self := Forwarder.set_requests_in_window 30
                 (Sample.forwarder {["100_5" := Forwarder.Seen 0 "News" 5]}
                    [Sample.news] [Sample.archive] 0);
       world := Sample.boot Sample.calm 0 Absent |} in
  let out := Forwarder.forward_messages_body Sample.news "100"
               (Sample.text_message 5 "hello") σ in
  Forwarder.forward_history (self σ) !! Forwarder.dedup_key "100" 5
    = Some (Forwarder.Seen 0 "News" 5)
  /\ fst out = Ok tt
  /\ trace (world (snd out)) = [EvSleep Forwarder.RATE_WINDOW]
  /\ now (world (snd out)) = now (world σ) + Forwarder.RATE_WINDOW
  /\ Forwarder.requests_in_window (self (snd out)) = 1
  /\ Forwarder.skipped (Forwarder.stats (self (snd out))) = 1.
Proof. vm_compute. repeat split; reflexivity. Qed.

(** C6, amended. In the forwarder's loop the rate limiter is called first
    for every item, and the membership test on the item's dedup key comes
    after it: when the rate limiter raises, the body raises the same
    exception from the state the rate limiter left, whatever the history
    holds; and for an item whose key is present, the body is one call of
    the rate limiter followed by the increment of the skipped counter, and
    nothing else. *)
Theorem rate_limiter_runs_before_membership_test
    source source_id message (σ σ1 : St Forwarder.TelegramForwarder Forwarder.history) :
  (forall e, Forwarder._wait_for_rate_limit σ = (Raise e, σ1) ->
     Forwarder.forward_messages_body source source_id message σ = (Raise e, σ1))
  /\ (is_Some (Forwarder.forward_history (self σ)
                 !! Forwarder.dedup_key source_id (msg_id message)) ->
      Forwarder._wait_for_rate_limit σ = (Ok tt, σ1) ->
      Forwarder.forward_messages_body source source_id message σ =
        (Ok tt, {| self := Forwarder.set_stats Forwarder.incr_skipped (self σ1);
                   world := world σ1 |})).
Proof.
  split.
  - intros e W. apply ForwarderSkip.body_reraises_wait, W.
  - intros Hk W. rewrite (ForwarderSkip.body_on_known_key _ _ _ _ Hk), W. reflexivity.
Qed.

(** C6 amended, on the history [{"100_5": ...}]: within budget the known
    message 5 is counted by the rate limiter and then skipped. *)
Lemma rate_limiter_runs_before_membership_test_witness :
  let σ : St Forwarder.TelegramForwarder Forwarder.history :=
    {| self := Sample.forwarder {["100_5" := Forwarder.Seen 0 "News" 5]}
                 [Sample.news] [Sample.archive] 0;
       world := Sample.boot Sample.calm 0 Absent |} in
  let σ1 : St Forwarder.TelegramForwarder Forwarder.history :=
    {| self := Forwarder.set_requests_in_window 1 (self σ); world := world σ |} in
  Forwarder.forward_messages_body Sample.news "100" (Sample.text_message 5 "hello") σ =
    (Ok tt, {| self := Forwarder.set_stats Forwarder.incr_skipped (self σ1);
               world := world σ1 |}).
Proof.
  intros σ σ1.
  apply (proj2 (rate_limiter_runs_before_membership_test
                  Sample.news "100" (Sample.text_message 5 "hello") σ σ1)).
  - vm_compute. eexists. reflexivity.
  - vm_compute. reflexivity.
Defined.

(** ** Messages with nothing to copy *)

Lemma calm_is_polite_at {D} t (f : file D) : polite (env (Sample.boot Sample.calm t f)).
Proof.
  repeat split.
  - intros n. exists 0%N. reflexivity.
  - intros n chat ex H. discriminate H.
  - intros n ex H. discriminate H.
Defined.

Module ForwarderNoContent.
Import Forwarder ForwarderSpec ForwarderLimiter ForwarderSkip.

Implicit Types σ : St TelegramForwarder history.

Lemma wait_returns σ :
  polite (env (world σ)) ->
  exists σ1, _wait_for_rate_limit σ = (Ok tt, σ1) /\ limiter_only σ σ1.
Proof.
  intros (Hs & _).
  destruct (_wait_for_rate_limit σ) as [r σ1] eqn:W.
  pose proof (wait_limiter_only _ _ _ W) as L.
  destruct (wait_cases σ) as [C|[[C1 C2]|[(C1 & C2 & x & C3)|(C1 & C2 & x & C3)]]].
  - rewrite (wait_window_over σ C) in W. inversion W; subst. eauto.
  - rewrite (wait_under_budget σ C1 C2) in W. inversion W; subst. eauto.
  - rewrite (wait_budget_spent σ x C1 C2 C3) in W. inversion W; subst. eauto.
  - destruct (Hs (tick (world σ))) as [y Hy]. congruence.
Qed.

(** [forward_message] on a message with neither media nor text: after the
    rate limiter, it reports that the message has no content and returns
    [False]; it makes no call and leaves the history alone. *)
Lemma forward_message_no_content source target m σ :
  no_content m ->
  forward_message source target m σ =
    match _wait_for_rate_limit σ with
    | (Ok _, σ1) =>
        (Ok false,
         with_world (log (EvPrint (NoContentToCopy (msg_id m))))
           (with_world (log (EvPrint (ProcessingMessage (msg_id m)))) σ1))
    | (Raise e, σ1) => (Raise e, σ1)
    | (Unfinished, σ1) => (Unfinished, σ1)
    end.
Proof.
  intros [Hm Ht]. unfold forward_message, bind at 1.
  destruct (_wait_for_rate_limit σ) as [[[]|e|] σ1]; try reflexivity.
  unfold try_except, bind, say, ret. simpl. rewrite Hm, Ht. reflexivity.
Qed.

Lemma add_failed_0 st : add_failed 0 st = st.
Proof. destruct st. unfold add_failed. simpl. f_equal. lia. Qed.

Lemma add_failed_incr_failed k st : add_failed k (incr_failed st) = add_failed (k + 1) st.
Proof. unfold incr_failed, add_failed. simpl. f_equal. lia. Qed.

(** The loop over the targets, for a message with no content: every
    target counts one failure. *)
Lemma targets_loop_no_content source m (tgts : list entity) σ :
  no_content m ->
  polite (env (world σ)) ->
  exists σ',
    for_each tgts (fun target =>
      let* success := forward_message source target m in
      (if success : bool then modify (set_stats incr_forwarded)
       else modify (set_stats incr_failed)) ;;
      asyncio_sleep (second / 2)) σ = (Ok tt, σ')
    /\ failed_only (Z.of_nat (List.length tgts)) σ σ'.
Proof.
  intros Hm. revert σ. induction tgts as [|target tgts IH]; intros σ Hp.
  - exists σ. split; [reflexivity |].
    unfold failed_only. simpl. rewrite add_failed_0. auto.
  - destruct (wait_returns σ Hp) as (σ1 & W & (Lh & Ls & _ & Lt & Le & Lf & _)).
    destruct Hp as (Hs & Hg & Hw).
    destruct (Hs (tick (world σ1))) as [extra Hx].
    set (σ2 := with_world (log (EvPrint (NoContentToCopy (msg_id m))))
                 (with_world (log (EvPrint (ProcessingMessage (msg_id m)))) σ1)).
    set (σ3 := {| self := set_stats incr_failed (self σ2); world := world σ2 |}).
    set (σ4 := with_world (pass_time (Z.max 0 (second / 2) + Z.of_N extra)
                             (EvSleep (second / 2))) σ3).
    destruct (IH σ4) as (σ' & Hrun & (Fh & Fs & Ft & Fe & Ff)).
    { subst σ4 σ3 σ2. simpl. rewrite Le. repeat split; assumption. }
    exists σ'. split.
    + cbn [for_each]. unfold bind at 1. unfold bind at 1.
      rewrite (forward_message_no_content _ _ _ _ Hm), W.
      fold σ2. unfold bind at 1, modify at 1. fold σ3.
      unfold asyncio_sleep at 1.
      replace (env_sleep (env (world σ3)) (tick (world σ3))) with (Woke extra)
        by (subst σ3 σ2; simpl; rewrite Le; symmetry; exact Hx).
      fold σ4. exact Hrun.
    + unfold failed_only.
      rewrite Fh, Fs, Ft, Fe, Ff. simpl. rewrite Lh, Ls, Lt, Le, Lf.
      rewrite add_failed_incr_failed.
      replace (Z.of_nat (List.length tgts) + 1) with (Z.pos (Pos.of_succ_nat (List.length tgts)))
        by lia.
      repeat split; reflexivity.
Qed.

Lemma save_history_returns σ :
  polite (env (world σ)) ->
  exists σ', save_history σ = (Ok tt, σ')
    /\ self σ' = self σ
    /\ env (world σ') = env (world σ)
    /\ (history_file (world σ') = Json (forward_history (self σ))
        \/ history_file (world σ') = history_file (world σ)).
Proof.
  intros (_ & _ & Hw).
  unfold save_history, try_except, bind, gets, write_history. simpl.
  destruct (env_write (env (world σ)) (tick (world σ))) as [[]|e] eqn:E.
  - eexists. split; [reflexivity |]. simpl. auto.
  - rewrite (Hw _ _ E). unfold say. eexists. split; [reflexivity |]. simpl. auto.
Qed.

Lemma progress_targets_return (tgts : list entity) σ :
  progress_answers (env (world σ)) ->
  exists σ',
    for_each tgts (fun target =>
      try_except
        (call (EvGetMessages (ent_id target))
              (fun env n => env_get_messages env n (ent_id target)) ;;
         say (TargetLastMessage (ent_id target)))
        is_Exception
        (fun e => say (TargetError (ent_id target) e))) σ = (Ok tt, σ')
    /\ self σ' = self σ
    /\ env (world σ') = env (world σ)
    /\ history_file (world σ') = history_file (world σ).
Proof.
  revert σ. induction tgts as [|target tgts IH]; intros σ Hg.
  - exists σ. auto.
  - cbn [for_each]. unfold bind at 1, try_except at 1, bind at 1, call at 1.
    destruct (env_get_messages (env (world σ)) (tick (world σ)) (ent_id target))
      as [msgs|e] eqn:E.
    + unfold say at 1.
      match goal with |- context [for_each tgts _ ?s] =>
        destruct (IH s) as (σ' & Hrun & Hself & Henv & Hfile) end.
      { exact Hg. }
      exists σ'. split; [exact Hrun |]. rewrite Hself, Henv, Hfile. simpl. auto.
    + rewrite (Hg _ _ _ E). unfold say at 1.
      match goal with |- context [for_each tgts _ ?s] =>
        destruct (IH s) as (σ' & Hrun & Hself & Henv & Hfile) end.
      { exact Hg. }
      exists σ'. split; [exact Hrun |]. rewrite Hself, Henv, Hfile. simpl. auto.
Qed.

Lemma print_progress_returns σ :
  progress_answers (env (world σ)) ->
  exists σ', print_progress σ = (Ok tt, σ')
    /\ self σ' = self σ
    /\ env (world σ') = env (world σ)
    /\ history_file (world σ') = history_file (world σ).
Proof.
  intros Hp. unfold print_progress, bind at 1, say at 1, bind at 1, gets at 1.
  match goal with |- context [for_each ?l _ ?s] =>
    destruct (progress_targets_return l s) as (σ' & Hrun & Hself & Henv & Hfile) end.
  { exact Hp. }
  exists σ'. split; [exact Hrun |]. rewrite Hself, Henv, Hfile. simpl. auto.
Qed.

End ForwarderNoContent.

(** C3, as stated, fails: the forwarder's loop body on a message with no
    media and empty text, with one target and an empty history, counts one
    failure and then records the message's dedup key in the history all
    the same, and writes the history to disk. *)
Lemma no_content_item_is_recorded :
  let σ : St Forwarder.TelegramForwarder Forwarder.history :=
    {| self := Sample.forwarder ∅ [Sample.news] [Sample.archive] 0;
       world := Sample.boot Sample.calm 0 Absent |} in
  let out := Forwarder.forward_messages_body Sample.news "100" (Sample.empty_message 5) σ in
  Forwarder.forward_history (self σ) !! Forwarder.dedup_key "100" 5 = None
  /\ fst out = Ok tt
  /\ Forwarder.failed (Forwarder.stats (self (snd out))) = 1
  /\ Forwarder.forward_history (self (snd out)) !! Forwarder.dedup_key "100" 5
     = Some (Forwarder.Seen 500000 "News" 5)
  /\ trace (world (snd out))
     = [EvPrint (ProcessingMessage 5); EvPrint (NoContentToCopy 5);
        EvSleep 500000; EvWriteHistory]
  /\ history_file (world (snd out)) = Json (Forwarder.forward_history (self (snd out))).
Proof. vm_compute. repeat split; reflexivity. Qed.

(** The loop body on a message with nothing to copy whose key the history
    does not hold, in an environment that delivers no cancellation: every
    target counts one failure, and the key is recorded all the same. *)
Lemma no_content_body_runs
    source source_id m (σ : St Forwarder.TelegramForwarder Forwarder.history) :
  ForwarderSpec.no_content m ->
  polite (env (world σ)) ->
  Forwarder.forward_history (self σ) !! Forwarder.dedup_key source_id (msg_id m) = None ->
  (forall target σ1,
     Forwarder._wait_for_rate_limit σ = (Ok tt, σ1) ->
     Forwarder.forward_message source target m σ =
       (Ok false,
        with_world (log (EvPrint (NoContentToCopy (msg_id m))))
          (with_world (log (EvPrint (ProcessingMessage (msg_id m)))) σ1)))
  /\ exists σ' t,
       Forwarder.forward_messages_body source source_id m σ = (Ok tt, σ')
       /\ Forwarder.failed (Forwarder.stats (self σ'))
          = Forwarder.failed (Forwarder.stats (self σ))
            + Z.of_nat (List.length (Forwarder.targets (self σ)))
       /\ Forwarder.forwarded (Forwarder.stats (self σ'))
          = Forwarder.forwarded (Forwarder.stats (self σ))
       /\ Forwarder.skipped (Forwarder.stats (self σ'))
          = Forwarder.skipped (Forwarder.stats (self σ))
       /\ Forwarder.forward_history (self σ')
          = <[Forwarder.dedup_key source_id (msg_id m) :=
                Forwarder.Seen t (ent_title source) (msg_id m)]>
              (Forwarder.forward_history (self σ)).
Proof.
  intros Hm Hp Hk. split.
  - intros target σ1 W.
    rewrite (ForwarderNoContent.forward_message_no_content _ _ _ _ Hm), W. reflexivity.
  - destruct (ForwarderNoContent.wait_returns σ Hp)
      as (σ1 & W & (Lh & Ls & _ & Lt & Le & Lf & _)).
    assert (Hp1 : polite (env (world σ1))) by (rewrite Le; exact Hp).
    destruct (ForwarderNoContent.targets_loop_no_content source m
                (Forwarder.targets (self σ1)) σ1 Hm Hp1)
      as (σ2 & Hloop & (Fh & Fs & Ft & Fe & Ff)).
    set (key := Forwarder.dedup_key source_id (msg_id m)) in *.
    set (entry := Forwarder.Seen (now (world σ2)) (ent_title source) (msg_id m)).
    set (σ3 := {| self := Forwarder.set_forward_history (<[key := entry]>) (self σ2);
                  world := world σ2 |}).
    assert (Hp3 : polite (env (world σ3))) by (subst σ3; simpl; rewrite Fe; exact Hp1).
    destruct (ForwarderNoContent.save_history_returns σ3 Hp3)
      as (σ4 & Hsave & Sself & Senv & _).
    set (σ5 := {| self := Forwarder.set_stats (Forwarder.note_message (msg_id m)) (self σ4);
                  world := world σ4 |}).
    assert (Hp5 : polite (env (world σ5))) by (subst σ5; simpl; rewrite Senv; exact Hp3).
    destruct (ForwarderNoContent.print_progress_returns σ5 (proj1 (proj2 Hp5)))
      as (σ6 & Hprint & Pself & Penv & _).
    assert (Hstats5 : Forwarder.stats (self σ5)
                      = Forwarder.note_message (msg_id m)
                          (ForwarderSpec.add_failed
                             (Z.of_nat (List.length (Forwarder.targets (self σ))))
                             (Forwarder.stats (self σ)))).
    { subst σ5 σ3. simpl. rewrite Sself. simpl. rewrite Fs, Ls, Lt. reflexivity. }
    assert (Hhist5 : Forwarder.forward_history (self σ5)
                     = <[key := entry]> (Forwarder.forward_history (self σ))).
    { subst σ5 σ3. simpl. rewrite Sself. simpl. rewrite Fh, Lh. reflexivity. }
    assert (Hinner :
      exists σ', Forwarder.forward_messages_body source source_id m σ = (Ok tt, σ')
        /\ Forwarder.forward_history (self σ') = Forwarder.forward_history (self σ5)
        /\ Forwarder.failed (Forwarder.stats (self σ'))
           = Forwarder.failed (Forwarder.stats (self σ5))
        /\ Forwarder.forwarded (Forwarder.stats (self σ'))
           = Forwarder.forwarded (Forwarder.stats (self σ5))
        /\ Forwarder.skipped (Forwarder.stats (self σ'))
           = Forwarder.skipped (Forwarder.stats (self σ5))).
    { unfold Forwarder.forward_messages_body.
      destruct (10 * second <=? now (world σ5)
                  - Forwarder.last_print (Forwarder.stats (self σ5))) eqn:Due.
      - eexists. split.
        + apply try_except_Ok.
          erewrite bind_Ok by exact W.
          unfold bind at 1, gets at 1. cbn [self]. fold key. rewrite Lh, Hk.
          unfold bind at 1, gets at 1.
          erewrite bind_Ok by exact Hloop.
          unfold bind at 1, time_time at 1.
          unfold bind at 1, modify at 1. fold entry. fold σ3.
          erewrite bind_Ok by exact Hsave.
          unfold bind at 1, modify at 1. fold σ5.
          unfold bind at 1, time_time at 1.
          unfold bind at 1, gets at 1.
          cbn [self]. rewrite Due.
          erewrite bind_Ok by exact Hprint.
          unfold modify. reflexivity.
        + simpl. rewrite Pself. auto.
      - eexists. split.
        + apply try_except_Ok.
          erewrite bind_Ok by exact W.
          unfold bind at 1, gets at 1. cbn [self]. fold key. rewrite Lh, Hk.
          unfold bind at 1, gets at 1.
          erewrite bind_Ok by exact Hloop.
          unfold bind at 1, time_time at 1.
          unfold bind at 1, modify at 1. fold entry. fold σ3.
          erewrite bind_Ok by exact Hsave.
          unfold bind at 1, modify at 1. fold σ5.
          unfold bind at 1, time_time at 1.
          unfold bind at 1, gets at 1.
          cbn [self]. rewrite Due.
          unfold ret. reflexivity.
        + auto. }
    destruct Hinner as (σ' & Hrun & Hh & Hf & Hfw & Hsk).
    exists σ', (now (world σ2)). split; [exact Hrun |].
    rewrite Hf, Hfw, Hsk, Hh, Hhist5, Hstats5. simpl. auto.
Qed.

(** ** Failures of the history file *)

(** C4, as stated, fails for the uploader: its [save_history] has no
    handler, so a write the file system refuses raises out of it. *)
Lemma uploader_save_history_raises :
  let σ : St Uploader.TelegramUploader Uploader.history :=
    {| self := Sample.uploader ∅ [Sample.archive];
       world := Sample.boot
                  (Sample.with_write (fun _ => Raises (Exn OSError "No space left on device"))
                     Sample.calm) 0 Absent |} in
  fst (Uploader.save_history σ) = Raise (Exn OSError "No space left on device")
  /\ trace (world (snd (Uploader.save_history σ))) = [EvWriteHistory]
  /\ history_file (world (snd (Uploader.save_history σ))) = Absent.
Proof. vm_compute. repeat split; reflexivity. Qed.

(** C4, amended. In the forwarder and in the uploader, [load_history]
    returns the empty mapping, without raising, whenever the history file
    is absent, unreadable or not JSON. In the forwarder, a history write
    that fails with an [Exception] is reported and swallowed:
    [save_history] returns normally. In the uploader, [save_history]
    raises what the failed write raised; inside [upload_file] that
    exception is caught by the handler of the upload, which reports it,
    counts a failed upload and returns [False], so the upload loop goes
    on. *)
Theorem history_file_failures :
  (forall (S : Type) (σ : St S Forwarder.history),
     (forall doc, history_file (world σ) <> Json doc) ->
     exists σ', Forwarder.load_history σ = (Ok ∅, σ') /\ self σ' = self σ)
  /\ (forall (S : Type) (σ : St S Uploader.history),
        (forall doc, history_file (world σ) <> Json doc) ->
        exists σ', Uploader.load_history σ = (Ok ∅, σ') /\ self σ' = self σ)
  /\ (forall (σ : St Forwarder.TelegramForwarder Forwarder.history) e,
        env_write (env (world σ)) (tick (world σ)) = Raises e ->
        is_Exception e = true ->
        Forwarder.save_history σ =
          (Ok tt, with_world (log (EvPrint (ErrorSavingHistory e)))
                    (with_world (advance EvWriteHistory) σ)))
  /\ (forall (σ : St Uploader.TelegramUploader Uploader.history) e,
        env_write (env (world σ)) (tick (world σ)) = Raises e ->
        Uploader.save_history σ = (Raise e, with_world (advance EvWriteHistory) σ))
  /\ (forall filepath target (σ : St Uploader.TelegramUploader Uploader.history) sent e,
        Uploader.already_uploaded (Uploader.upload_history (self σ))
          (PyStr.str (ent_id target)) (Uploader.file_key filepath) = false ->
        env_send_file (env (world σ)) (tick (world σ)) (IdInt (ent_id target))
          (Uploader.file_path filepath) = Returns sent ->
        env_write (env (world σ)) (Datatypes.S (tick (world σ))) = Raises e ->
        is_Exception e = true ->
        exists σ',
          Uploader.upload_file filepath target σ = (Ok false, σ')
          /\ Uploader.failed (Uploader.stats (self σ'))
             = Uploader.failed (Uploader.stats (self σ)) + 1
          /\ exists evs,
               trace (world σ')
               = (trace (world σ) ++ evs ++
                  [EvPrint (UploadFailed (Uploader.file_name filepath) (ent_title target) e)])%list).
Proof.
  split; [| split; [| split; [| split]]].
  - intros S [s [e t n tr f]] Hf. simpl in Hf.
    unfold Forwarder.load_history, try_except, bind, history_exists, read_history, say, ret.
    destruct f as [| | |doc]; simpl.
    + eexists. split; reflexivity.
    + eexists. split; reflexivity.
    + eexists. split; reflexivity.
    + destruct (Hf doc). reflexivity.
  - intros S [s [e t n tr f]] Hf. simpl in Hf.
    unfold Uploader.load_history, try_except, bind, history_exists, read_history, say, ret.
    destruct f as [| | |doc]; simpl.
    + eexists. split; reflexivity.
    + eexists. split; reflexivity.
    + eexists. split; reflexivity.
    + destruct (Hf doc). reflexivity.
  - intros σ e Hw He.
    unfold Forwarder.save_history, try_except, bind, gets, write_history. simpl.
    rewrite Hw, He. reflexivity.
  - intros σ e Hw.
    unfold Uploader.save_history, bind, gets, write_history. simpl.
    rewrite Hw. reflexivity.
  - intros filepath target σ sent e Hn Hs Hw He.
    unfold Uploader.upload_file, bind at 1, gets at 1. cbn [self]. rewrite Hn.
    unfold try_except, bind at 1, call at 1. rewrite Hs.
    unfold bind at 1, gets at 1.
    destruct (Uploader.upload_history (self (with_world (advance _) σ)) !! _) eqn:El;
      unfold Uploader.save_history;
      unfold bind, modify, ret, time_time, gets, write_history, say;
      simpl; rewrite Hw, He; simpl;
      (eexists; split; [reflexivity |]; simpl; split; [reflexivity |]);
      eexists [_; _]; rewrite <- !app_assoc; reflexivity.
Qed.

(** C4 amended, on a file system that refuses every write: the forwarder's
    [save_history] returns, the uploader's [upload_file] returns [False]. *)
Lemma history_file_failures_witness :
  let refuse := Sample.with_write (fun _ => Raises (Exn OSError "No space left on device"))
                  Sample.calm in
  let σf : St Forwarder.TelegramForwarder Forwarder.history :=
    {| self := Sample.forwarder ∅ [Sample.news] [Sample.archive] 0;
       world := Sample.boot refuse 0 NotJson |} in
  let σu : St Uploader.TelegramUploader Uploader.history :=
    {| self := Sample.uploader ∅ [Sample.archive];
       world := Sample.boot refuse 0 Absent |} in
  (exists σ', Forwarder.load_history σf = (Ok ∅, σ') /\ self σ' = self σf)
  /\ Forwarder.save_history σf =
       (Ok tt, with_world (log (EvPrint (ErrorSavingHistory
                                           (Exn OSError "No space left on device"))))
                 (with_world (advance EvWriteHistory) σf))
  /\ exists σ',
       Uploader.upload_file Sample.book Sample.archive σu = (Ok false, σ')
       /\ Uploader.failed (Uploader.stats (self σ'))
          = Uploader.failed (Uploader.stats (self σu)) + 1
       /\ exists evs,
            trace (world σ')
            = (trace (world σu) ++ evs ++
               [EvPrint (UploadFailed "book.pdf" "Archive"
                           (Exn OSError "No space left on device"))])%list.
Proof.
  intros refuse σf σu.
  destruct history_file_failures as (L & _ & Sv & _ & Up).
  split; [| split].
  - apply L. intros doc H. discriminate H.
  - apply Sv; reflexivity.
  - apply (Up Sample.book Sample.archive σu (Some 1)); reflexivity.
Defined.

(** ** Entity resolver *)

Module ResolverFacts.
Import Forwarder.

Implicit Types σ : St TelegramForwarder history.

(** The input of the specification's scenario: the three integers are
    tried in order and the first that resolves is returned. Here only the
    bare id 12345 is known. *)
Example candidates_in_order :
  let knows_bare := Sample.with_get_entity
    (fun _ i => match i with
                | IdInt 12345 => Returns Sample.news
                | _ => Raises (Exn ValueError "Cannot find any entity")
                end) Sample.calm in
  let σ : St TelegramForwarder history :=
    {| self := Sample.forwarder ∅ [] [] 0; world := Sample.boot knows_bare 0 Absent |} in
  fst (_get_entity_from_name "-10012345" σ) = Ok Sample.news
  /\ trace (world (snd (_get_entity_from_name "-10012345" σ)))
     = [EvGetEntity (IdInt (-10012345)); EvGetEntity (IdInt (-10012345));
        EvGetEntity (IdInt 12345)].
Proof. vm_compute. split; reflexivity. Qed.

(** A name that is not numeric: the raw string, then the string with a
    leading ["@"]; when both fail the error names the input. *)
Example names_in_order :
  let σ : St TelegramForwarder history :=
    {| self := Sample.forwarder ∅ [] [] 0; world := Sample.boot Sample.calm 0 Absent |} in
  fst (_get_entity_from_name "news" σ)
    = Raise (Exn ValueError "Invalid channel format: news (Could not find channel: news)")
  /\ trace (world (snd (_get_entity_from_name "news" σ)))
     = [EvGetEntity (IdStr "news"); EvGetEntity (IdStr "@news")].
Proof. vm_compute. split; reflexivity. Qed.

(** The candidates are tried strictly in order: when the first ones raise
    [ValueError] and the next one resolves, its entity is returned and the
    candidates after it are not tried. *)
Lemma try_candidates_first_success (failing : list ident) c rest found σ :
  (forall i x, failing !! i = Some x ->
     exists e, env_get_entity (env (world σ)) (tick (world σ) + i)%nat x = Raises e
               /\ is_ValueError e = true) ->
  env_get_entity (env (world σ)) (tick (world σ) + List.length failing)%nat c
    = Returns found ->
  exists σ',
    try_candidates (failing ++ c :: rest) σ = (Ok (Some found), σ')
    /\ self σ' = self σ
    /\ trace (world σ') = (trace (world σ) ++ map EvGetEntity (failing ++ [c]))%list.
Proof.
  revert σ. induction failing as [|x failing IH]; intros σ Hfail Hc.
  - simpl in *. rewrite Nat.add_0_r in Hc.
    unfold bind, try_except, call, ret. rewrite Hc.
    eexists. split; [reflexivity |]. split; reflexivity.
  - destruct (Hfail 0%nat x eq_refl) as (e & He & Hv).
    rewrite Nat.add_0_r in He.
    set (σ1 := with_world (advance (EvGetEntity x)) σ).
    destruct (IH σ1) as (σ' & Hrun & Hself & Htrace).
    { intros i y Hy. destruct (Hfail (Datatypes.S i) y Hy) as (e' & He' & Hv').
      exists e'. split; [| exact Hv'].
      subst σ1. simpl. rewrite <- He'. f_equal. lia. }
    { subst σ1. simpl. rewrite <- Hc. f_equal. simpl. lia. }
    exists σ'. split; [| split].
    + cbn [app try_candidates]. unfold bind at 1, try_except at 1, bind at 1, call at 1.
      rewrite He, Hv. unfold ret at 1. exact Hrun.
    + rewrite Hself. reflexivity.
    + rewrite Htrace. subst σ1. simpl. rewrite <- app_assoc. reflexivity.
Qed.

(** Whatever [Exception] the resolver raises names the input. *)
Lemma resolver_error_names_input name σ e σ' :
  _get_entity_from_name name σ = (Raise e, σ') ->
  is_Exception e = true ->
  exists reason,
    e = Exn ValueError ("Invalid channel format: " +:+ name +:+ " (" +:+ reason +:+ ")").
Proof.
  intros H He. unfold _get_entity_from_name in H.
  destruct (try_except_inv _ _ _ _ _ _ H)
    as [(a & _ & Hr)|[(e0 & σ1 & _ & _ & Hh)|[(e0 & _ & Hc & Hr)|[_ Hr]]]].
  - discriminate.
  - inversion Hh; subst. eauto.
  - inversion Hr; subst. congruence.
  - discriminate.
Qed.

End ResolverFacts.

(** C5. The resolver does not always try its candidates: for the input
    ["-5"], which is all digits once the minus sign is removed, building
    the candidate list raises ([int("-100-5")] is not an integer) before
    [get_entity] is asked anything, although the first candidate, the
    literal integer -5, would resolve. The forwarder and the uploader
    behave alike. *)
Theorem resolver_raises_before_first_candidate :
  let knows_all := Sample.with_get_entity
    (fun _ _ => Returns (Entity 5 "Group" Chat)) Sample.calm in
  let σf : St Forwarder.TelegramForwarder Forwarder.history :=
    {| self := Sample.forwarder ∅ [] [] 0; world := Sample.boot knows_all 0 Absent |} in
  let σu : St Uploader.TelegramUploader Uploader.history :=
    {| self := Sample.uploader ∅ []; world := Sample.boot knows_all 0 Absent |} in
  env_get_entity knows_all 0 (IdInt (-5)) = Returns (Entity 5 "Group" Chat)
  /\ Forwarder._get_entity_from_name "-5" σf =
       (Raise (Exn ValueError
          "Invalid channel format: -5 (invalid literal for int() with base 10: '-100-5')"),
        σf)
  /\ Uploader._get_entity_from_name "-5" σu =
       (Raise (Exn ValueError
          "Invalid target format: -5 (invalid literal for int() with base 10: '-100-5')"),
        σu)
  /\ trace (world σf) = [] /\ trace (world σu) = [].
Proof. vm_compute. repeat split; reflexivity. Qed.

(** ** Resume offset *)

(** C9. The offset the menu resumes from is not always the largest
    message id among the keys of the source: the keys are selected by
    [startswith(str(source.id))], so with the history
    [{"100_5": ..., "1000_9": ...}] the offset for source 100 is 9, taken
    from the key of source 1000, while the only key of source 100 has
    message id 5 and message 9 of source 100 was never recorded. Resuming
    (choice 2 of the menu) then iterates source 100 from offset 9. *)
Theorem resume_offset_reads_keys_of_other_sources :
  let h : Forwarder.history :=
    <["1000_9" := Forwarder.Seen 0 "Other" 9]> {["100_5" := Forwarder.Seen 0 "News" 5]} in
  let answers := Sample.with_prompt
    (fun n => match n with O => Returns "2" | _ => Returns "5" end) Sample.calm in
  let σ : St Forwarder.TelegramForwarder Forwarder.history :=
    {| self := Sample.forwarder h [Sample.news] [Sample.archive] 0;
       world := Sample.boot answers 0 (Json h) |} in
  Forwarder.keys_starting_with h 100 = ["100_5"; "1000_9"]
  /\ Forwarder.resume_offset h 100 = Returns 9
  /\ h !! Forwarder.dedup_key (PyStr.str 100) 9 = None
  /\ h !! Forwarder.dedup_key (PyStr.str 100) 5 = Some (Forwarder.Seen 0 "News" 5)
  /\ fst (Forwarder.interactive_menu 2 σ) = Ok tt
  /\ trace (world (snd (Forwarder.interactive_menu 2 σ)))
     = [EvPrompt; EvIterMessages 100 None 9; EvPrint Progress; EvGetMessages 200;
        EvPrint (TargetLastMessage 200); EvPrompt].
Proof. vm_compute. repeat split; reflexivity. Qed.

(** The scenario of the specification: the history holds ["100_5"], the
    offset is 5, and a resumed run that is handed message 5 again skips it
    without a transfer and without recording it anew; message 4 is
    forwarded and recorded. *)
Example resume_skips_the_offset_message :
  let h : Forwarder.history := {["100_5" := Forwarder.Seen 0 "News" 5]} in
  let channel := Sample.with_iter_messages
    (fun _ _ _ _ => [Sample.text_message 5 "five"; Sample.text_message 4 "four"])
    Sample.calm in
  let σ : St Forwarder.TelegramForwarder Forwarder.history :=
    {| self := Sample.forwarder h [Sample.news] [Sample.archive] 0;
       world := Sample.boot channel 0 (Json h) |} in
  let out := Forwarder.forward_messages Sample.news None 5 σ in
  Forwarder.resume_offset h 100 = Returns 5
  /\ fst out = Ok tt
  /\ Forwarder.skipped (Forwarder.stats (self (snd out))) = 1
  /\ Forwarder.forwarded (Forwarder.stats (self (snd out))) = 1
  /\ Forwarder.forward_history (self (snd out)) !! "100_5" = Some (Forwarder.Seen 0 "News" 5)
  /\ filter (fun ev => is_transfer_call ev = true) (trace (world (snd out)))
     = [EvSendMessage 200 "four"].
Proof. vm_compute. repeat split; reflexivity. Qed.

(** ** The uploader's history *)

Module UploaderFacts.
Import Uploader UploaderSpec.

Implicit Types σ : St TelegramUploader history.

Lemma others_untouched_refl target_id σ : others_untouched target_id σ σ.
Proof. intros other _. reflexivity. Qed.

Lemma others_untouched_trans target_id σ1 σ2 σ3 :
  others_untouched target_id σ1 σ2 -> others_untouched target_id σ2 σ3 ->
  others_untouched target_id σ1 σ3.
Proof. intros H1 H2 other Ho. rewrite (H2 other Ho). apply H1, Ho. Qed.

Lemma others_untouched_world target_id σ (g : World history -> World history) :
  others_untouched target_id σ (with_world g σ).
Proof. intros other _. reflexivity. Qed.

Lemma upload_file_others_untouched filepath target :
  preserves (others_untouched (PyStr.str (ent_id target))) (upload_file filepath target).
Proof.
  set (R := others_untouched (PyStr.str (ent_id target))).
  assert (Rr : forall σ, R σ σ) by apply others_untouched_refl.
  assert (Rt : forall σ1 σ2 σ3, R σ1 σ2 -> R σ2 σ3 -> R σ1 σ3)
    by apply others_untouched_trans.
  assert (Rq : forall σ g, quiet g -> R σ (with_world g σ))
    by (intros; apply others_untouched_world).
  assert (Rs : forall f, preserves R (modify (set_stats f))).
  { intros f. apply preserves_modify. intros σ other _. reflexivity. }
  unfold upload_file.
  apply preserves_bind; [auto | apply preserves_gets; auto |]. intros h.
  apply preserves_if.
  { apply preserves_bind; [auto | apply Rs |]. intros _. apply preserves_ret; auto. }
  apply preserves_try_except; [auto | |].
  - apply preserves_bind; [auto | apply preserves_call; auto |]. intros _.
    apply preserves_bind; [auto | apply preserves_gets; auto |]. intros h'.
    apply preserves_bind; [auto | |].
    { destruct (h' !! PyStr.str (ent_id target)).
      - apply preserves_ret; auto.
      - apply preserves_modify. intros σ other Ho. simpl.
        apply lookup_insert_ne. congruence. }
    intros _.
    apply preserves_bind; [auto | apply preserves_time_time; auto |]. intros t.
    apply preserves_bind; [auto | |].
    { apply preserves_modify. intros σ other Ho. simpl.
      apply lookup_alter_ne. congruence. }
    intros _.
    apply preserves_bind; [auto | apply Rs |]. intros _.
    apply preserves_bind; [auto | |].
    { unfold save_history.
      apply preserves_bind; [auto | apply preserves_gets; auto |]. intros h''.
      intros σ r σ' H. unfold write_history in H.
      destruct (env_write _ _); inversion H; subst; intros other _; reflexivity. }
    intros _.
    apply preserves_bind; [auto | apply preserves_say; auto |]. intros _.
    apply preserves_ret; auto.
  - intros e.
    apply preserves_bind; [auto | apply preserves_say; auto |]. intros _.
    apply preserves_bind; [auto | apply Rs |]. intros _.
    apply preserves_ret; auto.
Qed.

Lemma already_uploaded_spec (h : history) target_id file_hash :
  already_uploaded h target_id file_hash = true <->
  exists files, h !! target_id = Some files /\ is_Some (files !! file_hash).
Proof.
  unfold already_uploaded. destruct (h !! target_id) as [files|].
  - rewrite bool_decide_eq_true. split.
    + intros H. exists files. auto.
    + intros (files' & Hf & H). inversion Hf; subst. exact H.
  - split; [discriminate |]. intros (files & Hf & _). discriminate.
Qed.

(** A file that is not yet recorded for the target is sent: the first
    thing [upload_file] does is the call of [send_file]. *)
Lemma upload_file_sends filepath target σ :
  already_uploaded (upload_history (self σ)) (PyStr.str (ent_id target))
    (file_key filepath) = false ->
  exists r σ' evs,
    upload_file filepath target σ = (r, σ')
    /\ trace (world σ')
       = (trace (world σ)
          ++ EvSendFile (IdInt (ent_id target)) (file_path filepath) None :: evs)%list.
Proof.
  intros Hn.
  unfold upload_file, bind at 1, gets at 1. cbn [self]. rewrite Hn.
  unfold try_except, bind at 1, call at 1.
  destruct (env_send_file _ _ _ _) as [sent|e].
  - unfold bind at 1, gets at 1.
    destruct (upload_history (self (with_world (advance _) σ)) !! _) eqn:El;
      unfold save_history;
      unfold bind, modify, ret, time_time, gets, write_history, say; simpl;
      destruct (env_write _ _) as [[]|e]; simpl;
      try destruct (is_Exception e); simpl;
      do 3 eexists; (split; [reflexivity |]); simpl;
      rewrite <- ?app_assoc; reflexivity.
  - destruct (is_Exception e); simpl.
    + unfold bind, say, modify, ret. simpl.
      do 3 eexists. split; [reflexivity |]. simpl. rewrite <- app_assoc. reflexivity.
    + do 3 eexists. split; [reflexivity |]. simpl. reflexivity.
Qed.

(** A successful upload whose history write succeeds leaves on disk a
    mapping from the target's id to the files recorded for it. *)
Lemma upload_file_records filepath target σ sent :
  already_uploaded (upload_history (self σ)) (PyStr.str (ent_id target))
    (file_key filepath) = false ->
  env_send_file (env (world σ)) (tick (world σ)) (IdInt (ent_id target))
    (file_path filepath) = Returns sent ->
  env_write (env (world σ)) (Datatypes.S (tick (world σ))) = Returns tt ->
  exists σ' files t,
    upload_file filepath target σ = (Ok true, σ')
    /\ history_file (world σ') = Json (upload_history (self σ'))
    /\ upload_history (self σ') !! PyStr.str (ent_id target) = Some files
    /\ files !! file_key filepath
       = Some {| filename := file_name filepath; timestamp := t;
                 size := st_size filepath |}.
Proof.
  intros Hn Hs Hw.
  unfold upload_file, bind at 1, gets at 1. cbn [self]. rewrite Hn.
  unfold try_except, bind at 1, call at 1. rewrite Hs.
  unfold bind at 1, gets at 1.
  destruct (upload_history (self (with_world (advance _) σ)) !! _) as [files|] eqn:El;
    unfold save_history;
    unfold bind, modify, ret, time_time, gets, write_history, say; simpl;
    rewrite Hw; simpl.
  - simpl in El. do 3 eexists. split; [reflexivity |]. simpl.
    split; [reflexivity |]. split.
    + rewrite lookup_alter_eq, El. reflexivity.
    + apply lookup_insert_eq.
  - do 3 eexists. split; [reflexivity |]. simpl.
    split; [reflexivity |]. split.
    + rewrite lookup_alter_eq, lookup_insert_eq. reflexivity.
    + apply lookup_insert_eq.
Qed.

End UploaderFacts.

(** C10. In the uploader, deduplication is per target and file.
    [upload_file] skips a file for a target exactly when the history maps
    the target's id to a mapping that holds the file's [size_mtime] key:
    then it returns [False] having only counted a skip, and otherwise its
    first step is the call of [send_file]. Whatever [upload_file] does for
    one target, the skip test of every other target answers as before, for
    every file. And a successful upload leaves on disk the two-level
    mapping from target id to the recorded files, with the file's metadata
    under the target's id. *)
Theorem uploader_dedup_is_per_target_and_file
    filepath target (σ : St Uploader.TelegramUploader Uploader.history) :
  let target_id := PyStr.str (ent_id target) in
  let file_hash := Uploader.file_key filepath in
  let known := Uploader.already_uploaded (Uploader.upload_history (self σ))
                 target_id file_hash in
  (known = true <->
     exists files, Uploader.upload_history (self σ) !! target_id = Some files
                   /\ is_Some (files !! file_hash))
  /\ (known = true ->
      Uploader.upload_file filepath target σ =
        (Ok false, {| self := Uploader.set_stats Uploader.incr_skipped (self σ);
                      world := world σ |}))
  /\ (known = false ->
      exists r σ' evs,
        Uploader.upload_file filepath target σ = (r, σ')
        /\ trace (world σ')
           = (trace (world σ)
              ++ EvSendFile (IdInt (ent_id target)) (Uploader.file_path filepath) None
                 :: evs)%list)
  /\ (forall r σ' other any_file,
        Uploader.upload_file filepath target σ = (r, σ') ->
        ent_id other <> ent_id target ->
        Uploader.already_uploaded (Uploader.upload_history (self σ'))
          (PyStr.str (ent_id other)) any_file
        = Uploader.already_uploaded (Uploader.upload_history (self σ))
            (PyStr.str (ent_id other)) any_file)
  /\ (forall sent,
        known = false ->
        env_send_file (env (world σ)) (tick (world σ)) (IdInt (ent_id target))
          (Uploader.file_path filepath) = Returns sent ->
        env_write (env (world σ)) (Datatypes.S (tick (world σ))) = Returns tt ->
        exists σ' files t,
          Uploader.upload_file filepath target σ = (Ok true, σ')
          /\ history_file (world σ') = Json (Uploader.upload_history (self σ'))
          /\ Uploader.upload_history (self σ') !! target_id = Some files
          /\ files !! file_hash
             = Some {| Uploader.filename := Uploader.file_name filepath;
                       Uploader.timestamp := t;
                       Uploader.size := Uploader.st_size filepath |}).
Proof.
  intros target_id file_hash known.
  split; [| split; [| split; [| split]]].
  - apply UploaderFacts.already_uploaded_spec.
  - intros H. unfold Uploader.upload_file, bind, gets. simpl.
    fold target_id file_hash known. rewrite H. reflexivity.
  - apply UploaderFacts.upload_file_sends.
  - intros r σ' other any_file Hrun Ho.
    pose proof (UploaderFacts.upload_file_others_untouched filepath target _ _ _ Hrun
                  (PyStr.str (ent_id other))) as Hl.
    unfold Uploader.already_uploaded. rewrite Hl; [reflexivity |].
    intros E. apply Ho. unfold PyStr.str in E. exact (pretty_Z_inj _ _ E).
  - intros sent. apply UploaderFacts.upload_file_records.
Qed.

(** C10 on the file [book.pdf], already recorded for the target Archive
    only: uploading it to Mirror records it there, and leaves the answer
    for Archive as it was. *)
Lemma uploader_dedup_witness :
  let h : Uploader.history :=
    {["200" := {["2048_1700000000.5" :=
                   {| Uploader.filename := "book.pdf"; Uploader.timestamp := 0;
                      Uploader.size := 2048 |}]}]} in
  let σ : St Uploader.TelegramUploader Uploader.history :=
    {| self := Sample.uploader h [Sample.archive; Sample.mirror];
       world := Sample.boot Sample.calm 0 (Json h) |} in
  Uploader.already_uploaded h "200" "2048_1700000000.5" = true
  /\ (exists σ' files t,
        Uploader.upload_file Sample.book Sample.mirror σ = (Ok true, σ')
        /\ history_file (world σ') = Json (Uploader.upload_history (self σ'))
        /\ Uploader.upload_history (self σ') !! "300" = Some files
        /\ files !! "2048_1700000000.5"
           = Some {| Uploader.filename := "book.pdf"; Uploader.timestamp := t;
                     Uploader.size := 2048 |})
  /\ Uploader.already_uploaded
       (Uploader.upload_history (self (snd (Uploader.upload_file Sample.book Sample.mirror σ))))
       "200" "2048_1700000000.5" = true.
Proof.
  intros h σ.
  destruct (uploader_dedup_is_per_target_and_file Sample.book Sample.mirror σ)
    as (_ & _ & _ & Hother & Hrec).
  split; [reflexivity |]. split.
  - apply (Hrec (Some 1)); reflexivity.
  - transitivity (Uploader.already_uploaded (Uploader.upload_history (self σ))
                    (PyStr.str (ent_id Sample.archive)) "2048_1700000000.5");
      [| reflexivity].
    refine (Hother (fst (Uploader.upload_file Sample.book Sample.mirror σ))
              (snd (Uploader.upload_file Sample.book Sample.mirror σ))
              Sample.archive "2048_1700000000.5" _ _).
    + destruct (Uploader.upload_file Sample.book Sample.mirror σ). reflexivity.
    + discriminate.
Defined.

(** ** Every record is followed by a save *)

Module ForwarderSync.
Import Forwarder ForwarderSpec.

Implicit Types σ : St TelegramForwarder history.

Lemma in_step_refl σ : in_step σ σ.
Proof. split; auto. Qed.

Lemma in_step_trans σ1 σ2 σ3 : in_step σ1 σ2 -> in_step σ2 σ3 -> in_step σ1 σ3.
Proof.
  intros [E12 H12] [E23 H23]. split; [congruence |].
  intros W. specialize (H12 W). rewrite <- E12 in W. specialize (H23 W).
  destruct H23 as [[Hh Hf]|Hs]; [| right; exact Hs].
  destruct H12 as [[Hh' Hf']|Hs'].
  - left. split; congruence.
  - right. congruence.
Qed.

Lemma in_step_quiet σ (g : World history -> World history) :
  quiet g -> in_step σ (with_world g σ).
Proof.
  intros Hg. destruct (Hg (world σ)) as [He Hf].
  split; [exact He |]. intros _. left. split; [reflexivity | exact Hf].
Qed.

Ltac in_step_auto :=
  repeat first
    [ apply preserves_ret; exact in_step_refl
    | apply preserves_raise; exact in_step_refl
    | apply preserves_gets; exact in_step_refl
    | apply preserves_time_time; exact in_step_refl
    | apply preserves_say; exact in_step_quiet
    | apply preserves_call; exact in_step_quiet
    | apply preserves_interact; exact in_step_quiet
    | apply preserves_asyncio_sleep; exact in_step_quiet
    | apply preserves_try_except; [exact in_step_trans | | intros ?]
    | apply preserves_for_each; [exact in_step_refl | exact in_step_trans | intros ?]
    | apply preserves_if
    | assumption ].

(** Updates of the object that leave the history alone. *)
Lemma in_step_modify (f : TelegramForwarder -> TelegramForwarder) :
  (forall s, forward_history (f s) = forward_history s) ->
  preserves in_step (modify f).
Proof.
  intros Hf. apply preserves_modify. intros σ. split; [reflexivity |].
  intros _. left. simpl. auto.
Qed.

Lemma save_history_in_step : preserves in_step save_history.
Proof.
  intros σ r σ' H.
  unfold save_history, try_except, bind, gets, write_history, say in H. simpl in H.
  split.
  - destruct (env_write _ _) as [[]|e]; [now inversion H |].
    destruct (is_Exception e); now inversion H.
  - intros W. rewrite (W (tick (world σ))) in H. inversion H; subst. right. reflexivity.
Qed.

(** An insertion into the history with the save that follows it. *)
Lemma record_and_save_in_step {A} f (k : Method A) :
  preserves in_step k ->
  preserves in_step (modify (set_forward_history f) ;; save_history ;; k).
Proof.
  intros Hk σ r σ' H.
  unfold bind at 1, modify at 1 in H.
  destruct (bind_inv _ _ _ _ _ H) as [(a & σ1 & H1 & H2)|[(e & H1 & _)|[H1 _]]].
  - apply in_step_trans with σ1; [| eapply Hk; eassumption].
    clear H H2.
    unfold save_history, try_except, bind, gets, write_history, say in H1. simpl in H1.
    split.
    + destruct (env_write _ _) as [[]|e]; [now inversion H1 |].
      destruct (is_Exception e); now inversion H1.
    + intros W. rewrite (W (tick (world σ))) in H1. inversion H1; subst. right. reflexivity.
  - unfold save_history, try_except, bind, gets, write_history, say in H1. simpl in H1.
    split.
    + destruct (env_write _ _) as [[]|e']; [now inversion H1 |].
      destruct (is_Exception e'); now inversion H1.
    + intros W. rewrite (W (tick (world σ))) in H1. inversion H1.
  - unfold save_history, try_except, bind, gets, write_history, say in H1. simpl in H1.
    split.
    + destruct (env_write _ _) as [[]|e']; [now inversion H1 |].
      destruct (is_Exception e'); now inversion H1.
    + intros W. rewrite (W (tick (world σ))) in H1. inversion H1.
Qed.

Lemma wait_in_step : preserves in_step _wait_for_rate_limit.
Proof.
  intros σ r σ' H.
  destruct (ForwarderSkip.wait_limiter_only _ _ _ H) as (Hh & _ & _ & _ & He & Hf & _).
  split; [exact He |]. intros _. left. auto.
Qed.

Lemma print_progress_in_step : preserves in_step print_progress.
Proof.
  unfold print_progress.
  apply preserves_bind; [exact in_step_trans | in_step_auto | intros _].
  apply preserves_bind; [exact in_step_trans | in_step_auto | intros tgts].
  in_step_auto.
  apply preserves_bind; [exact in_step_trans | in_step_auto | intros _].
  in_step_auto.
Qed.

Lemma forward_message_in_step source target m :
  preserves in_step (forward_message source target m).
Proof.
  unfold forward_message.
  apply preserves_bind; [exact in_step_trans | exact wait_in_step | intros _].
  apply preserves_try_except; [exact in_step_trans | | intros e; cycle 1].
  2:{ apply preserves_bind; [exact in_step_trans | in_step_auto | intros _]. in_step_auto. }
  apply preserves_bind; [exact in_step_trans | in_step_auto | intros _].
  apply preserves_try_except; [exact in_step_trans | | intros e; cycle 1].
  2:{ apply preserves_bind; [exact in_step_trans | in_step_auto | intros _]. in_step_auto. }
  apply preserves_bind; [exact in_step_trans | | intros outcome].
  - destruct (msg_media m).
    + apply preserves_bind; [exact in_step_trans | in_step_auto | intros _].
      apply preserves_bind; [exact in_step_trans | in_step_auto | intros file_path].
      destruct file_path as [[|c p]|].
      * apply preserves_bind; [exact in_step_trans | in_step_auto | intros _]. in_step_auto.
      * apply preserves_bind; [exact in_step_trans | in_step_auto | intros _].
        apply preserves_bind; [exact in_step_trans | in_step_auto | intros sent].
        apply preserves_bind; [exact in_step_trans | in_step_auto | intros there].
        apply preserves_bind; [exact in_step_trans | | intros _; in_step_auto].
        destruct there; [| in_step_auto].
        apply preserves_bind; [exact in_step_trans | in_step_auto | intros _]. in_step_auto.
      * apply preserves_bind; [exact in_step_trans | in_step_auto | intros _]. in_step_auto.
    + destruct (PyStr.truthy (msg_text m)).
      * apply preserves_bind; [exact in_step_trans | in_step_auto | intros _].
        apply preserves_bind; [exact in_step_trans | in_step_auto | intros sent].
        destruct sent; [in_step_auto |].
        apply preserves_bind; [exact in_step_trans | in_step_auto | intros _]. in_step_auto.
      * apply preserves_bind; [exact in_step_trans | in_step_auto | intros _]. in_step_auto.
  - destruct outcome as [[sent_id|]|early].
    + apply preserves_bind; [exact in_step_trans | in_step_auto | intros _].
      apply preserves_bind; [exact in_step_trans | in_step_auto | intros t].
      apply record_and_save_in_step. in_step_auto.
    + apply preserves_bind; [exact in_step_trans | in_step_auto | intros _]. in_step_auto.
    + in_step_auto.
Qed.

Lemma forward_messages_body_in_step source source_id m :
  preserves in_step (forward_messages_body source source_id m).
Proof.
  unfold forward_messages_body.
  apply preserves_try_except; [exact in_step_trans | | intros e].
  2:{ apply preserves_bind; [exact in_step_trans | in_step_auto | intros _].
      apply in_step_modify. reflexivity. }
  apply preserves_bind; [exact in_step_trans | exact wait_in_step | intros _].
  apply preserves_bind; [exact in_step_trans | in_step_auto | intros h].
  destruct (h !! dedup_key source_id (msg_id m)).
  { apply in_step_modify. reflexivity. }
  apply preserves_bind; [exact in_step_trans | in_step_auto | intros tgts].
  apply preserves_bind; [exact in_step_trans | | intros _].
  { apply preserves_for_each; [exact in_step_refl | exact in_step_trans | intros target].
    apply preserves_bind; [exact in_step_trans | apply forward_message_in_step | intros ok].
    apply preserves_bind; [exact in_step_trans | | intros _; in_step_auto].
    destruct ok; apply in_step_modify; reflexivity. }
  apply preserves_bind; [exact in_step_trans | in_step_auto | intros t].
  apply record_and_save_in_step.
  apply preserves_bind; [exact in_step_trans | apply in_step_modify; reflexivity | intros _].
  apply preserves_bind; [exact in_step_trans | in_step_auto | intros t'].
  apply preserves_bind; [exact in_step_trans | in_step_auto | intros printed].
  apply preserves_if; [| in_step_auto].
  apply preserves_bind; [exact in_step_trans | exact print_progress_in_step | intros _].
  apply in_step_modify. reflexivity.
Qed.

Lemma forward_messages_in_step source limit offset_id :
  preserves in_step (forward_messages source limit offset_id).
Proof.
  unfold forward_messages.
  apply preserves_try_finally; [exact in_step_trans | | exact print_progress_in_step].
  apply preserves_try_except; [exact in_step_trans | | intros e].
  - apply preserves_bind; [exact in_step_trans | in_step_auto | intros messages].
    apply preserves_for_each; [exact in_step_refl | exact in_step_trans | intros m].
    apply forward_messages_body_in_step.
  - destruct (is_CancelledError e); [| in_step_auto].
    apply preserves_bind; [exact in_step_trans | in_step_auto | intros _]. in_step_auto.
Qed.

End ForwarderSync.

Module UploaderSync.
Import Uploader UploaderSpec.

Implicit Types σ : St TelegramUploader history.

(** [upload_file] changes the history in up to two steps (an empty mapping
    for a new target, then the entry of the file); the counters are
    updated and the history is saved before anything else can happen. *)
Lemma upload_file_in_step filepath target σ r σ' :
  upload_file filepath target σ = (r, σ') -> in_step σ σ'.
Proof.
  intros H. unfold upload_file, bind at 1, gets at 1 in H. cbn [self] in H.
  destruct (already_uploaded _ _ _).
  { inversion H; subst. split; [reflexivity |]. intros _. left. simpl. auto. }
  unfold try_except, bind at 1, call at 1 in H.
  destruct (env_send_file _ _ _ _) as [sent|e] eqn:Es.
  - unfold bind at 1, gets at 1 in H.
    destruct (upload_history (self (with_world (advance _) σ)) !! _) eqn:El;
      unfold save_history in H;
      unfold bind, modify, ret, time_time, gets, write_history, say in H; simpl in H;
      (split;
       [ destruct (env_write _ _) as [[]|e]; [now inversion H |];
         destruct (is_Exception e); now inversion H
       | intros W; rewrite (W (Datatypes.S (tick (world σ)))) in H;
         inversion H; subst; right; reflexivity ]).
  - destruct (is_Exception e).
    + unfold bind, say, modify, ret in H. simpl in H. inversion H; subst.
      split; [reflexivity |]. intros _. left. simpl. auto.
    + inversion H; subst. split; [reflexivity |]. intros _. left. simpl. auto.
Qed.

End UploaderSync.

(** ** Messages with nothing to copy are recorded and saved *)

(** C3, amended. For a message with no media and no non-empty text whose
    key the history does not hold, in an environment that delivers no
    cancellation (every sleep ends, and what reading a target's last
    message or writing the history file raises derives from [Exception]):
    each per-target transfer reports "no content" and returns failure
    without a transfer call and without touching the history, and the loop
    body returns with the failed counter raised by the number of
    configured targets and the other two counters unchanged; after the
    targets, the body records the message's dedup key in the history, as a
    [Seen] entry with the source's title and the message id, and saves the
    history: when the file system accepts the writes, the history file
    then holds the whole in-memory history, the new entry included. *)
Theorem no_content_counts_failed_and_is_recorded
    source source_id m (σ : St Forwarder.TelegramForwarder Forwarder.history) :
  ForwarderSpec.no_content m ->
  polite (env (world σ)) ->
  Forwarder.forward_history (self σ) !! Forwarder.dedup_key source_id (msg_id m) = None ->
  (forall target σ1,
     Forwarder._wait_for_rate_limit σ = (Ok tt, σ1) ->
     Forwarder.forward_message source target m σ =
       (Ok false,
        with_world (log (EvPrint (NoContentToCopy (msg_id m))))
          (with_world (log (EvPrint (ProcessingMessage (msg_id m)))) σ1)))
  /\ exists σ' t,
       Forwarder.forward_messages_body source source_id m σ = (Ok tt, σ')
       /\ Forwarder.failed (Forwarder.stats (self σ'))
          = Forwarder.failed (Forwarder.stats (self σ))
            + Z.of_nat (List.length (Forwarder.targets (self σ)))
       /\ Forwarder.forwarded (Forwarder.stats (self σ'))
          = Forwarder.forwarded (Forwarder.stats (self σ))
       /\ Forwarder.skipped (Forwarder.stats (self σ'))
          = Forwarder.skipped (Forwarder.stats (self σ))
       /\ Forwarder.forward_history (self σ')
          = <[Forwarder.dedup_key source_id (msg_id m) :=
                Forwarder.Seen t (ent_title source) (msg_id m)]>
              (Forwarder.forward_history (self σ))
       /\ (writes_succeed (env (world σ)) ->
           history_file (world σ') = Json (Forwarder.forward_history (self σ'))).
Proof.
  intros Hm Hp Hk.
  destruct (no_content_body_runs source source_id m σ Hm Hp Hk) as [Hfm Hbody].
  split; [exact Hfm |].
  destruct Hbody as (σ' & t & Hrun & Hf & Hfw & Hsk & Hh).
  exists σ', t. repeat (split; [assumption |]).
  intros W.
  destruct (proj2 (ForwarderSync.forward_messages_body_in_step _ _ _ _ _ _ Hrun) W)
    as [[Hsame _]|Hfile]; [| exact Hfile].
  rewrite Hh in Hsame.
  assert (Hl : Forwarder.forward_history (self σ)
               !! Forwarder.dedup_key source_id (msg_id m)
               = Some (Forwarder.Seen t (ent_title source) (msg_id m))).
  { rewrite <- Hsame. apply lookup_insert_eq. }
  congruence.
Qed.

(** C3 amended, on message 5 of channel 100 with two targets. *)
Lemma no_content_counts_failed_witness :
  let σ : St Forwarder.TelegramForwarder Forwarder.history :=
    {| self := Sample.forwarder ∅ [Sample.news] [Sample.archive; Sample.mirror] 0;
       world := Sample.boot Sample.calm 0 Absent |} in
  exists σ' t,
    Forwarder.forward_messages_body Sample.news "100" (Sample.empty_message 5) σ = (Ok tt, σ')
    /\ Forwarder.failed (Forwarder.stats (self σ')) = 0 + 2
    /\ Forwarder.forwarded (Forwarder.stats (self σ')) = 0
    /\ Forwarder.skipped (Forwarder.stats (self σ')) = 0
    /\ Forwarder.forward_history (self σ')
       = <["100_5" := Forwarder.Seen t "News" 5]> ∅
    /\ history_file (world σ') = Json (Forwarder.forward_history (self σ')).
Proof.
  intros σ.
  destruct (proj2 (no_content_counts_failed_and_is_recorded
                     Sample.news "100" (Sample.empty_message 5) σ
                     (conj eq_refl eq_refl) (calm_is_polite_at 0 Absent) eq_refl))
    as (σ' & t & Hrun & Hf & Hfw & Hsk & Hh & Hfile).
  exists σ', t. repeat (split; [assumption |]).
  apply Hfile. intros n. reflexivity.
Defined.

(** C7. Every operation that records an entry of the history saves the
    whole mapping before it goes on: for [forward_message], for the body
    of the forwarder's transfer loop, for the whole loop
    [forward_messages] and for the uploader's [upload_file],
    on a file system that accepts the writes, either the operation has
    left both the in-memory history and the file as they were, or the file
    holds, when the operation ends (normally or not), exactly the
    in-memory mapping of that moment. So after each recorded item the file
    on disk equals the full in-memory mapping. *)
Theorem record_is_followed_by_save :
  (forall source target m (σ σ' : St Forwarder.TelegramForwarder Forwarder.history) r,
     writes_succeed (env (world σ)) ->
     Forwarder.forward_message source target m σ = (r, σ') ->
     (Forwarder.forward_history (self σ') = Forwarder.forward_history (self σ)
      /\ history_file (world σ') = history_file (world σ))
     \/ history_file (world σ') = Json (Forwarder.forward_history (self σ')))
  /\ (forall source source_id m (σ σ' : St Forwarder.TelegramForwarder Forwarder.history) r,
        writes_succeed (env (world σ)) ->
        Forwarder.forward_messages_body source source_id m σ = (r, σ') ->
        (Forwarder.forward_history (self σ') = Forwarder.forward_history (self σ)
         /\ history_file (world σ') = history_file (world σ))
        \/ history_file (world σ') = Json (Forwarder.forward_history (self σ')))
  /\ (forall source limit offset_id
             (σ σ' : St Forwarder.TelegramForwarder Forwarder.history) r,
        writes_succeed (env (world σ)) ->
        Forwarder.forward_messages source limit offset_id σ = (r, σ') ->
        (Forwarder.forward_history (self σ') = Forwarder.forward_history (self σ)
         /\ history_file (world σ') = history_file (world σ))
        \/ history_file (world σ') = Json (Forwarder.forward_history (self σ')))
  /\ (forall filepath target (σ σ' : St Uploader.TelegramUploader Uploader.history) r,
        writes_succeed (env (world σ)) ->
        Uploader.upload_file filepath target σ = (r, σ') ->
        (Uploader.upload_history (self σ') = Uploader.upload_history (self σ)
         /\ history_file (world σ') = history_file (world σ))
        \/ history_file (world σ') = Json (Uploader.upload_history (self σ'))).
Proof.
  split; [| split; [| split]].
  - intros source target m σ σ' r W H.
    exact (proj2 (ForwarderSync.forward_message_in_step source target m σ r σ' H) W).
  - intros source source_id m σ σ' r W H.
    exact (proj2 (ForwarderSync.forward_messages_body_in_step source source_id m σ r σ' H) W).
  - intros source limit offset_id σ σ' r W H.
    exact (proj2 (ForwarderSync.forward_messages_in_step source limit offset_id σ r σ' H) W).
  - intros filepath target σ σ' r W H.
    exact (proj2 (UploaderSync.upload_file_in_step filepath target σ r σ' H) W).
Qed.

Lemma calm_writes_succeed : writes_succeed Sample.calm.
Proof. intros n. reflexivity. Defined.

(** C7 on message 4 of channel 100, sent to one target from an empty
    history: the history has changed, and the file holds it. *)
Lemma record_is_followed_by_save_witness :
  let σ : St Forwarder.TelegramForwarder Forwarder.history :=
    {| self := Sample.forwarder ∅ [Sample.news] [Sample.archive] 0;
       world := Sample.boot Sample.calm 0 Absent |} in
  let out := Forwarder.forward_messages_body Sample.news "100"
               (Sample.text_message 4 "four") σ in
  ((Forwarder.forward_history (self (snd out)) = Forwarder.forward_history (self σ)
    /\ history_file (world (snd out)) = history_file (world σ))
   \/ history_file (world (snd out)) = Json (Forwarder.forward_history (self (snd out))))
  /\ Forwarder.forward_history (self (snd out)) !! "100_4"
     = Some (Forwarder.Seen 500000 "News" 4).
Proof.
  intros σ out. split.
  - apply (proj1 (proj2 record_is_followed_by_save)
             Sample.news "100" (Sample.text_message 4 "four") σ (snd out) (fst out)).
    + exact calm_writes_succeed.
    + subst out. destruct (Forwarder.forward_messages_body _ _ _ σ). reflexivity.
  - vm_compute. reflexivity.
Defined.

(** ** Cancellation during the rate limiter's sleep *)

Module ForwarderCancel.
Import Forwarder ForwarderSpec ForwarderLimiter ForwarderSkip.

Implicit Types σ : St TelegramForwarder history.

(** [forward_message] calls the rate limiter outside its [try]. *)
Lemma forward_message_reraises_wait source target m σ e σ1 :
  _wait_for_rate_limit σ = (Raise e, σ1) ->
  forward_message source target m σ = (Raise e, σ1).
Proof. intros W. unfold forward_message. apply bind_Raise, W. Qed.

(** A cancellation raised by the body of the loop leaves
    [forward_messages] as the same cancellation, after the report of the
    cancellation and the progress report of the [finally] block. *)
Lemma forward_messages_reraises source limit offset_id σ before m after σk e σc :
  env_iter_messages (env (world σ)) (tick (world σ)) (ent_id source) limit offset_id
    = (before ++ m :: after)%list ->
  for_each before (forward_messages_body source (PyStr.str (ent_id source)))
    (with_world (advance (EvIterMessages (ent_id source) limit offset_id)) σ)
    = (Ok tt, σk) ->
  forward_messages_body source (PyStr.str (ent_id source)) m σk = (Raise e, σc) ->
  is_CancelledError e = true ->
  progress_answers (env (world σc)) ->
  exists σ' evs,
    forward_messages source limit offset_id σ = (Raise e, σ')
    /\ self σ' = self σc
    /\ env (world σ') = env (world σc)
    /\ history_file (world σ') = history_file (world σc)
    /\ trace (world σ') = (trace (world σc) ++ EvPrint ForwardingCancelled :: evs)%list.
Proof.
  intros Hm Hb Hx He Hp.
  set (σd := with_world (log (EvPrint ForwardingCancelled)) σc).
  destruct (ForwarderNoContent.print_progress_returns σd Hp)
    as (σ' & Hpr & Hself & Henv & Hfile).
  assert (Htr : exists evs, trace (world σ') = (trace (world σd) ++ evs)%list).
  { clear - Hpr. revert Hpr.
    assert (G : preserves (fun s s' : St TelegramForwarder history =>
                  exists evs, trace (world s') = (trace (world s) ++ evs)%list)
                  print_progress).
    { set (R := fun s s' : St TelegramForwarder history =>
                  exists evs, trace (world s') = (trace (world s) ++ evs)%list).
      assert (Rr : forall s, R s s) by (intros s; exists []; now rewrite app_nil_r).
      assert (Rt : forall s1 s2 s3, R s1 s2 -> R s2 s3 -> R s1 s3).
      { intros s1 s2 s3 [l1 H1] [l2 H2]. exists (l1 ++ l2)%list.
        rewrite H2, H1. now rewrite app_assoc. }
      assert (Rsay : forall l, preserves R (say l)).
      { intros l s r s' H. inversion H; subst. eexists. reflexivity. }
      assert (Rcall : forall A ev (answer : Env -> nat -> outcome A),
                preserves R (call ev answer)).
      { intros A ev answer s r s' H. unfold call in H.
        destruct (answer _ _); inversion H; subst; eexists; reflexivity. }
      unfold print_progress.
      apply preserves_bind; [exact Rt | apply Rsay | intros _].
      apply preserves_bind; [exact Rt | apply preserves_gets; exact Rr | intros tgts].
      apply preserves_for_each; [exact Rr | exact Rt | intros target].
      apply preserves_try_except; [exact Rt | | intros e0; apply Rsay].
      apply preserves_bind; [exact Rt | apply Rcall | intros _]. apply Rsay. }
    intros Hpr. exact (G _ _ _ Hpr). }
  destruct Htr as [evs Htr].
  exists σ', evs. split.
  - unfold forward_messages, try_finally.
    assert (Hinner :
      try_except
        (let* messages :=
           interact (EvIterMessages (ent_id source) limit offset_id)
             (fun env n => env_iter_messages env n (ent_id source) limit offset_id) in
         for_each messages (forward_messages_body source (PyStr.str (ent_id source))))
        (fun e => is_CancelledError e || is_Exception e)
        (fun e => if is_CancelledError e then say ForwardingCancelled ;; raise e
                  else say (ErrorInForwardMessages e)) σ = (Raise e, σd)).
    { erewrite try_except_caught.
      - rewrite He. reflexivity.
      - unfold bind at 1, interact at 1. rewrite Hm.
        eapply for_each_raises; eassumption.
      - rewrite He. reflexivity. }
    rewrite Hinner, Hpr. reflexivity.
  - rewrite Hself, Henv, Hfile, Htr. subst σd. simpl.
    rewrite <- app_assoc. auto.
Qed.

(** Choice 1 of the menu: what [forward_messages] raises for the first
    source leaves the menu. *)
Lemma menu_reraises rounds source others σ e σ' :
  env_prompt (env (world σ)) (tick (world σ)) = Returns "1" ->
  sources (self σ) = source :: others ->
  forward_messages source None 0 (with_world (advance EvPrompt) σ) = (Raise e, σ') ->
  interactive_menu (Datatypes.S rounds) σ = (Raise e, σ').
Proof.
  intros Hc Hs Hf.
  cbn [interactive_menu]. unfold bind at 1, call at 1. rewrite Hc.
  cbn [String.eqb Ascii.eqb Bool.eqb].
  unfold bind at 1, gets at 1. cbn [with_world self]. rewrite Hs.
  cbn [for_each]. apply bind_Raise, bind_Raise. exact Hf.
Qed.

(** The finalizer of [main]: when the session ends with a cancellation,
    it is reported, the history is written, and the client is
    disconnected. *)
Lemma main_body_finalizes rounds σ e σ1 :
  session rounds σ = (Raise e, σ1) ->
  is_CancelledError e = true ->
  env_write (env (world σ1)) (tick (world σ1)) = Returns tt ->
  env_disconnect (env (world σ1)) (Datatypes.S (tick (world σ1))) = Returns tt ->
  exists σ',
    main_body rounds σ = (Ok tt, σ')
    /\ self σ' = self σ1
    /\ history_file (world σ') = Json (forward_history (self σ1))
    /\ trace (world σ')
       = (trace (world σ1)
          ++ [EvPrint OperationCancelled; EvWriteHistory; EvDisconnect;
              EvPrint SessionSaved])%list.
Proof.
  intros Hs He Hw Hd.
  unfold main_body, try_finally, try_except. rewrite Hs, He. cbn [orb].
  unfold say at 1, finalizer, bind at 1, save_history, try_except at 1, bind at 1,
    gets at 1, write_history.
  cbn [with_world world self log env tick]. rewrite Hw.
  unfold bind, call, say.
  cbn [with_world world self log env tick advance store]. rewrite Hd.
  eexists. split; [reflexivity |]. simpl.
  rewrite <- !app_assoc. auto.
Qed.

End ForwarderCancel.

(** C8. A cancellation delivered while the rate limiter sleeps is raised
    again by the rate limiter, after the line that reports it; the body of
    the transfer loop and [forward_message], which both start with the
    rate limiter, raise it too; [forward_messages] raises it to its caller
    once it has reported the cancellation and printed the progress; the
    menu lets it through; and [main] then reports it, writes the history
    file, which then holds the whole in-memory history, and disconnects
    the client before it returns. *)
Theorem cancellation_in_rate_limit_sleep_reaches_finalizer :
  (forall (σ : St Forwarder.TelegramForwarder Forwarder.history) after,
     ForwarderSpec.time_passed σ < Forwarder.RATE_WINDOW ->
     Forwarder.RATE_LIMIT <= Forwarder.requests_in_window (self σ) ->
     env_sleep (env (world σ)) (tick (world σ)) = Interrupted after ->
     Forwarder._wait_for_rate_limit σ =
       (Raise (Exn CancelledError ""),
        with_world (log (EvPrint RateLimitWaitCancelled))
          (with_world (pass_time (Z.of_N after)
                         (EvSleep (Forwarder.RATE_WINDOW - ForwarderSpec.time_passed σ)))
             σ)))
  /\ (forall source source_id target m
             (σ σ1 : St Forwarder.TelegramForwarder Forwarder.history) e,
        Forwarder._wait_for_rate_limit σ = (Raise e, σ1) ->
        Forwarder.forward_messages_body source source_id m σ = (Raise e, σ1)
        /\ Forwarder.forward_message source target m σ = (Raise e, σ1))
  /\ (forall source limit offset_id before m after
             (σ σk σc : St Forwarder.TelegramForwarder Forwarder.history) e,
        env_iter_messages (env (world σ)) (tick (world σ)) (ent_id source) limit offset_id
          = (before ++ m :: after)%list ->
        for_each before
          (Forwarder.forward_messages_body source (PyStr.str (ent_id source)))
          (with_world (advance (EvIterMessages (ent_id source) limit offset_id)) σ)
          = (Ok tt, σk) ->
        Forwarder.forward_messages_body source (PyStr.str (ent_id source)) m σk
          = (Raise e, σc) ->
        is_CancelledError e = true ->
        progress_answers (env (world σc)) ->
        exists σ' evs,
          Forwarder.forward_messages source limit offset_id σ = (Raise e, σ')
          /\ self σ' = self σc
          /\ env (world σ') = env (world σc)
          /\ history_file (world σ') = history_file (world σc)
          /\ trace (world σ')
             = (trace (world σc) ++ EvPrint ForwardingCancelled :: evs)%list)
  /\ (forall rounds source others
             (σ σ' : St Forwarder.TelegramForwarder Forwarder.history) e,
        env_prompt (env (world σ)) (tick (world σ)) = Returns "1" ->
        Forwarder.sources (self σ) = source :: others ->
        Forwarder.forward_messages source None 0 (with_world (advance EvPrompt) σ)
          = (Raise e, σ') ->
        Forwarder.interactive_menu (Datatypes.S rounds) σ = (Raise e, σ'))
  /\ (forall rounds (σ σ1 : St Forwarder.TelegramForwarder Forwarder.history) e,
        Forwarder.session rounds σ = (Raise e, σ1) ->
        is_CancelledError e = true ->
        env_write (env (world σ1)) (tick (world σ1)) = Returns tt ->
        env_disconnect (env (world σ1)) (Datatypes.S (tick (world σ1))) = Returns tt ->
        exists σ',
          Forwarder.main_body rounds σ = (Ok tt, σ')
          /\ self σ' = self σ1
          /\ history_file (world σ') = Json (Forwarder.forward_history (self σ1))
          /\ trace (world σ')
             = (trace (world σ1)
                ++ [EvPrint OperationCancelled; EvWriteHistory; EvDisconnect;
                    EvPrint SessionSaved])%list).
Proof.
  split; [| split; [| split; [| split]]].
  - intros σ after H1 H2 H3. apply ForwarderLimiter.wait_cancelled; assumption.
  - intros source source_id target m σ σ1 e W. split.
    + apply ForwarderSkip.body_reraises_wait, W.
    + apply ForwarderCancel.forward_message_reraises_wait, W.
  - intros. eapply ForwarderCancel.forward_messages_reraises; eassumption.
  - intros. eapply ForwarderCancel.menu_reraises; eassumption.
  - intros. eapply ForwarderCancel.main_body_finalizes; eassumption.
Qed.

(** A whole run: the history file holds messages 1 to 31 of the channel
    News, the user picks choice 1, and the channel yields the same 31
    messages. Thirty of them pass the rate limiter at once and are
    skipped; the thirty-first makes it sleep, and the cancellation arrives
    during that sleep. [main] returns after the history has been written
    and the client disconnected. *)
Example cancelled_run_saves_and_disconnects :
  let out := Forwarder.main ["news"] ["archive"] 3
               (Sample.boot Sample.interrupted_run 0 (Json (Sample.seen_up_to 31))) in
  fst out = Ok tt
  /\ trace (world (snd out))
     = [EvReadHistory; EvStart; EvGetEntity (IdStr "news");
        EvPrint (AddedChannel "News"); EvGetEntity (IdStr "archive");
        EvPrint (AddedChannel "Archive"); EvPrompt;
        EvIterMessages 100 None 0; EvSleep 1000000;
        EvPrint RateLimitWaitCancelled; EvPrint ForwardingCancelled;
        EvPrint Progress; EvGetMessages 200;
        EvPrint (TargetLastMessage 200); EvPrint OperationCancelled;
        EvWriteHistory; EvDisconnect; EvPrint SessionSaved]
  /\ Forwarder.skipped (Forwarder.stats (self (snd out))) = 30
  /\ history_file (world (snd out)) = Json (Forwarder.forward_history (self (snd out))).
Proof. vm_compute. repeat split; reflexivity. Qed.

(** C8 on the whole run above: the session ends with the cancellation of
    the rate limiter's sleep, and [main] writes the history and
    disconnects. *)
Lemma cancellation_reaches_finalizer_witness :
  let σ0 := snd (Forwarder.__init__ ["news"] ["archive"]
                   (Sample.boot Sample.interrupted_run 0 (Json (Sample.seen_up_to 31)))) in
  let σ1 := snd (Forwarder.session 3 σ0) in
  exists σ',
    Forwarder.main_body 3 σ0 = (Ok tt, σ')
    /\ self σ' = self σ1
    /\ history_file (world σ') = Json (Forwarder.forward_history (self σ1))
    /\ trace (world σ')
       = (trace (world σ1)
          ++ [EvPrint OperationCancelled; EvWriteHistory; EvDisconnect;
              EvPrint SessionSaved])%list.
Proof.
  intros σ0 σ1.
  apply (proj2 (proj2 (proj2 (proj2 cancellation_in_rate_limit_sleep_reaches_finalizer)))
           3%nat σ0 σ1 (Exn CancelledError "")).
  - vm_compute. reflexivity.
  - reflexivity.
  - reflexivity.
  - reflexivity.
Defined.

(** ** The rate limiters of the downloaders *)

Module DownloaderLimiter.

Implicit Types σ : St Scrapper.TelegramDownloader unit.

(** Below the budget [handle_rate_limiting] does nothing. *)
Lemma scrapper_under_budget count start σ :
  count < Scrapper.MAX_DOWNLOADS_PER_MINUTE ->
  Scrapper.handle_rate_limiting count start σ = (Ok count, σ).
Proof.
  intros H. unfold Scrapper.handle_rate_limiting.
  destruct (Z.leb_spec Scrapper.MAX_DOWNLOADS_PER_MINUTE count); [lia | reflexivity].
Qed.

(** With the budget spent inside the minute, it sleeps out the minute and
    gives back a count of zero. *)
Lemma scrapper_budget_spent count start σ extra :
  Scrapper.MAX_DOWNLOADS_PER_MINUTE <= count ->
  now (world σ) - start < 60 * second ->
  env_sleep (env (world σ)) (tick (world σ)) = Woke extra ->
  let d := 60 * second - (now (world σ) - start) in
  Scrapper.handle_rate_limiting count start σ =
    (Ok 0, with_world (pass_time (Z.max 0 d + Z.of_N extra) (EvSleep d)) σ).
Proof.
  intros H1 H2 H3. unfold Scrapper.handle_rate_limiting.
  destruct (Z.leb_spec Scrapper.MAX_DOWNLOADS_PER_MINUTE count); [| lia].
  unfold bind, time_time, asyncio_sleep, ret.
  destruct (Z.ltb_spec (now (world σ) - start) (60 * second)); [| lia].
  rewrite H3. reflexivity.
Qed.

(** Once a minute has passed since [minute_start], it never sleeps,
    whatever the count. *)
Lemma scrapper_after_first_minute count start σ :
  60 * second <= now (world σ) - start ->
  exists count',
    Scrapper.handle_rate_limiting count start σ = (Ok count', σ).
Proof.
  intros H. unfold Scrapper.handle_rate_limiting.
  destruct (Scrapper.MAX_DOWNLOADS_PER_MINUTE <=? count).
  - unfold bind, time_time, ret.
    destruct (Z.ltb_spec (now (world σ) - start) (60 * second)); [lia |].
    eexists. reflexivity.
  - eexists. reflexivity.
Qed.

End DownloaderLimiter.

(** C1. In [pdfscrapper.py] no new window begins after the rate limiter
    has slept: [handle_rate_limiting] gives back only the count, and the
    loop of [download_media] keeps the [minute_start] it read before its
    first message. With the loop started at time 0 and the budget of 600
    spent 30 seconds later, the rate limiter sleeps the remaining 30
    seconds and the count restarts (from 1, for the message at hand); with
    the budget spent again one second after that sleep ended, still
    measured against [minute_start = 0], it lets the call through without
    sleeping. In [hello.py], at the same two moments, the window restarts
    at the wake-up time and the second call sleeps for the 59 seconds that
    are left of the new window. *)
Theorem scrapper_window_never_restarts :
  let σ30 : St Scrapper.TelegramDownloader unit :=
    {| self := Sample.downloader ∅; world := Sample.boot Sample.calm (30 * second) Absent |} in
  let σ61 : St Scrapper.TelegramDownloader unit :=
    {| self := Sample.downloader ∅; world := Sample.boot Sample.calm (61 * second) Absent |} in
  let hello (count start t : Z) : St Hello.TelegramDownloader unit :=
    {| self := {| Hello.stats := {| Hello.downloaded_files := 0; Hello.skipped_files := 0;
                                    Hello.total_size := 0; Hello.last_message_id := None |};
                  Hello.processed_ids := ∅; Hello.target_channels := [];
                  Hello.download_count := 0; Hello.minute_count := count;
                  Hello.minute_start := start; Hello.last_progress_update := 0 |};
       world := Sample.boot Sample.calm t Absent |} in
  Scrapper.handle_rate_limiting 600 0 σ30 =
    (Ok 0, with_world (pass_time (30 * second) (EvSleep (30 * second))) σ30)
  /\ fst (Scrapper.download_media_body 0 (Sample.pdf_message 7)
            {| Scrapper.minute_count := 600;
               Scrapper.last_progress_update := 30 * second |} σ30)
     = Ok {| Scrapper.minute_count := 1; Scrapper.last_progress_update := 30 * second |}
  /\ Scrapper.handle_rate_limiting 600 0 σ61 = (Ok 0, σ61)
  /\ (let after := snd (Hello.rate_limiting_checks (hello 600 0 (30 * second))) in
      trace (world after) = [EvSleep (30 * second)]
      /\ Hello.minute_count (self after) = 0
      /\ Hello.minute_start (self after) = 60 * second)
  /\ trace (world (snd (Hello.rate_limiting_checks (hello 600 (60 * second) (61 * second)))))
     = [EvSleep (59 * second)].
Proof. vm_compute. repeat split; reflexivity. Qed.

(** ** The forwarder's budget per window *)

Module ForwarderBudget.
Import Forwarder ForwarderSpec ForwarderLimiter Calls.

Implicit Types σ : St TelegramForwarder history.

Lemma credited_cons w r reports :
  credited w (r :: reports) = (if window r =? w then 1 else 0) + credited w reports.
Proof.
  unfold credited, in_window. simpl. destruct (window r =? w); simpl; lia.
Qed.

Lemma credited_none w reports :
  Forall (fun r => w < window r) reports -> credited w reports = 0.
Proof.
  induction 1 as [|r reports Hr _ IH]; [reflexivity |].
  rewrite credited_cons, IH. destruct (Z.eqb_spec (window r) w); lia.
Qed.

Lemma skipn_own_length {A} (l : list A) : skipn (List.length l) l = [].
Proof. induction l; simpl; auto. Qed.

Lemma skipn_past_prefix {A} (l extra : list A) : skipn (List.length l) (l ++ extra) = extra.
Proof. induction l; simpl; auto. Qed.

(** One call, [gap] after the state [σ]. *)
Lemma one_call gap σ :
  0 <= gap ->
  sleeps_end (env (world σ)) ->
  0 <= requests_in_window (self σ) <= RATE_LIMIT ->
  last_request_time (self σ) <= now (world σ) ->
  exists σ1 evs,
    _wait_for_rate_limit (snd (idle gap σ)) = (Ok tt, σ1)
    /\ trace (world σ1) = (trace (world σ) ++ evs)%list
    /\ env (world σ1) = env (world σ)
    /\ 1 <= requests_in_window (self σ1) <= RATE_LIMIT
    /\ last_request_time (self σ1) <= now (world σ1)
    /\ well_behaved {| arrived := now (world σ) + gap;
                       window_before := last_request_time (self σ);
                       waited := evs;
                       window := last_request_time (self σ1);
                       counted := requests_in_window (self σ1) |}
    /\ ((last_request_time (self σ1) = last_request_time (self σ)
         /\ requests_in_window (self σ1) = requests_in_window (self σ) + 1)
        \/ (last_request_time (self σ) < last_request_time (self σ1)
            /\ requests_in_window (self σ1) = 1)).
Proof.
  intros Hg Hs Hc Hl.
  set (σa := snd (idle gap σ)).
  assert (Ha : time_passed σa = now (world σ) + gap - last_request_time (self σ))
    by reflexivity.
  assert (HW : 0 < RATE_WINDOW) by (unfold RATE_WINDOW, second; lia).
  destruct (wait_cases σa) as [C|[[C1 C2]|[(C1 & C2 & x & C3)|(C1 & C2 & x & C3)]]].
  - rewrite (wait_window_over σa C). rewrite Ha in C.
    eexists _, []. split; [reflexivity |]. simpl.
    rewrite app_nil_r. unfold RATE_LIMIT in *.
    repeat split; try reflexivity; try lia.
    left. simpl. unfold RATE_LIMIT. repeat split; try reflexivity; lia.
  - rewrite (wait_under_budget σa C1 C2). rewrite Ha in C1. simpl in C2.
    eexists _, []. split; [reflexivity |]. simpl.
    rewrite app_nil_r. unfold RATE_LIMIT in *.
    repeat split; try reflexivity; try lia.
    left. simpl. unfold RATE_LIMIT. repeat split; try reflexivity; lia.
  - rewrite (wait_budget_spent σa x C1 C2 C3). rewrite Ha in C1.
    eexists _, [_]. split; [reflexivity |]. simpl.
    unfold RATE_LIMIT in *.
    repeat split; try reflexivity; try lia.
    all: try (rewrite Ha; lia).
    right. simpl. unfold RATE_LIMIT. repeat split; try reflexivity; try lia.
    all: rewrite Ha; lia.
  - destruct (Hs (tick (world σ))) as [y Hy]. simpl in C3. congruence.
Qed.

(** Through any sequence of calls, no window is credited with more calls
    than the budget, and every call is well behaved. *)
Lemma calls_respect_budget gaps : forall σ,
  Forall (fun gap => 0 <= gap) gaps ->
  sleeps_end (env (world σ)) ->
  0 <= requests_in_window (self σ) <= RATE_LIMIT ->
  last_request_time (self σ) <= now (world σ) ->
  exists reports σ',
    calls gaps σ = (Ok reports, σ')
    /\ Forall well_behaved reports
    /\ Forall (fun r => last_request_time (self σ) <= window r) reports
    /\ credited (last_request_time (self σ)) reports + requests_in_window (self σ)
       <= RATE_LIMIT
    /\ forall w, w <> last_request_time (self σ) -> credited w reports <= RATE_LIMIT.
Proof.
  induction gaps as [|gap rest IH]; intros σ Hgaps Hs Hc Hl.
  - exists [], σ. split; [reflexivity |]. unfold credited. simpl.
    unfold RATE_LIMIT in *. repeat split; try constructor; try lia.
  - inversion Hgaps as [|? ? Hg Hrest]; subst.
    destruct (one_call gap σ Hg Hs Hc Hl)
      as (σ1 & evs & W & Htr & Henv & Hc1 & Hl1 & Hwb & Hcase).
    destruct (IH σ1 Hrest) as (reports & σ' & Hrun & Hall & Hge & Hcur & Hoth).
    { rewrite Henv. exact Hs. }
    { lia. }
    { exact Hl1. }
    eexists (_ :: reports), σ'. split; [| split; [| split; [| split]]].
    + cbn [calls]. unfold bind at 1, idle at 1.
      unfold bind at 1, time_time at 1.
      unfold bind at 1, gets at 1.
      unfold bind at 1, trace_length at 1.
      unfold bind at 1.
      change (with_world _ σ) with (snd (idle gap σ)). rewrite W.
      unfold bind at 1, events_since at 1.
      unfold bind at 1, gets at 1.
      unfold bind at 1, gets at 1.
      unfold bind at 1. rewrite Hrun. unfold ret.
      cbn [world trace with_world self snd idle now].
      rewrite Htr, skipn_past_prefix. reflexivity.
    + constructor; [exact Hwb | exact Hall].
    + constructor.
      * simpl. destruct Hcase as [[E _]|[E _]]; lia.
      * eapply Forall_impl; [exact Hge |]. simpl. intros r Hr.
        destruct Hcase as [[E _]|[E _]]; lia.
    + rewrite credited_cons. simpl.
      destruct Hcase as [[E1 E2]|[E1 E2]].
      * rewrite E1, Z.eqb_refl. rewrite E1, E2 in Hcur. lia.
      * destruct (Z.eqb_spec (last_request_time (self σ1)) (last_request_time (self σ)));
          [lia |].
        rewrite credited_none; [lia |].
        eapply Forall_impl; [exact Hge |]. simpl. intros r Hr. lia.
    + intros w Hw. rewrite credited_cons. simpl.
      destruct (Z.eqb_spec (last_request_time (self σ1)) w) as [E|E].
      * subst w. lia.
      * simpl. apply Hoth. congruence.
Qed.

(** The forwarder's rate limiter, over every sequence of calls that start
    from a fresh window: in each window at most [RATE_LIMIT] calls go
    through without sleeping, each within [RATE_WINDOW] of the window's
    start; every other call sleeps for the window length minus the time
    elapsed since the window started, and opens a new window, of which it
    is the first request. *)
Lemma forwarder_budget_per_window gaps σ :
  Forall (fun gap => 0 <= gap) gaps ->
  sleeps_end (env (world σ)) ->
  requests_in_window (self σ) = 0 ->
  last_request_time (self σ) <= now (world σ) ->
  exists reports σ',
    calls gaps σ = (Ok reports, σ')
    /\ Forall well_behaved reports
    /\ forall w, Z.of_nat (List.length (unslept (in_window w reports))) <= RATE_LIMIT.
Proof.
  intros Hgaps Hs Hc Hl.
  destruct (calls_respect_budget gaps σ Hgaps Hs) as (reports & σ' & Hrun & Hall & _ & Hcur & Hoth).
  { rewrite Hc. unfold RATE_LIMIT. lia. }
  { exact Hl. }
  exists reports, σ'. split; [exact Hrun |]. split; [exact Hall |].
  intros w.
  assert (Hle : Z.of_nat (List.length (unslept (in_window w reports))) <= credited w reports).
  { unfold credited, unslept. apply inj_le, filter_length_le. }
  destruct (Z.eq_dec w (last_request_time (self σ))) as [->|Hne].
  - lia.
  - specialize (Hoth w Hne). lia.
Qed.

End ForwarderBudget.

(** ** Decimal numerals *)

Module PyStrFacts.
Import PyStr.

Lemma append_cons c (s1 s2 : string) : String c s1 +:+ s2 = String c (s1 +:+ s2).
Proof. reflexivity. Qed.

Lemma append_nil_l (s : string) : "" +:+ s = s.
Proof. reflexivity. Qed.

Lemma append_nil_r (s : string) : s +:+ "" = s.
Proof. induction s as [|c s IH]; [reflexivity | now rewrite append_cons, IH]. Qed.

Lemma digits_value_app acc s1 s2 :
  digits_value acc (s1 +:+ s2) = digits_value (digits_value acc s1) s2.
Proof.
  revert acc. induction s1 as [|c s1 IH]; intros acc; [reflexivity |].
  rewrite append_cons. simpl. apply IH.
Qed.

Lemma all_digits_app s1 s2 :
  all_digits (s1 +:+ s2) = all_digits s1 && all_digits s2.
Proof.
  induction s1 as [|c s1 IH]; [reflexivity |].
  rewrite append_cons. simpl.
  rewrite IH. now destruct (is_ascii_digit c), (all_digits s1), (all_digits s2).
Qed.

Lemma has_char_app c s1 s2 : has_char c (s1 +:+ s2) = has_char c s1 || has_char c s2.
Proof.
  induction s1 as [|c1 s1 IH]; [reflexivity |].
  rewrite append_cons. simpl.
  rewrite IH. now destruct (Ascii.eqb c c1), (has_char c s1), (has_char c s2).
Qed.

Lemma app_assoc_string (s1 s2 s3 : string) : (s1 +:+ s2) +:+ s3 = s1 +:+ (s2 +:+ s3).
Proof. induction s1 as [|c s1 IH]; [reflexivity | now rewrite !append_cons, IH]. Qed.

Lemma length_app_string (s1 s2 : string) :
  String.length (s1 +:+ s2) = (String.length s1 + String.length s2)%nat.
Proof.
  induction s1 as [|c s1 IH]; [reflexivity |]. rewrite append_cons. simpl. now rewrite IH.
Qed.

(** The character [pretty] writes for a digit. *)
Lemma pretty_N_char_digit x :
  (x < 10)%N ->
  is_ascii_digit (pretty_N_char x) = true
  /\ Z.of_nat (nat_of_ascii (pretty_N_char x)) - 48 = Z.of_N x.
Proof.
  intros H.
  assert (x = 0 \/ x = 1 \/ x = 2 \/ x = 3 \/ x = 4 \/ x = 5 \/ x = 6 \/ x = 7
          \/ x = 8 \/ x = 9)%N as E by lia.
  repeat (destruct E as [->|E]; [split; reflexivity |]).
  subst x. split; reflexivity.
Qed.

(** What [pretty] writes in front of [s] for the natural number [x]: the
    decimal digits of [x], most significant first. *)
Lemma pretty_N_go_spec x : forall s,
  exists ds,
    pretty_N_go x s = ds +:+ s
    /\ all_digits ds = true
    /\ (forall acc,
          digits_value acc ds = acc * 10 ^ Z.of_nat (String.length ds) + Z.of_N x)
    /\ ((0 < x)%N -> ds <> "").
Proof.
  induction (N.lt_wf_0 x) as [x _ IH]; intros s.
  assert (x = 0 \/ 0 < x)%N as [->|Hx] by lia.
  - exists "". rewrite pretty_N_go_0.
    split; [reflexivity |]. split; [reflexivity |].
    split; [intros acc; simpl; lia | lia].
  - rewrite pretty_N_go_step by exact Hx.
    destruct (IH (x `div` 10)%N (N.div_lt x 10 Hx eq_refl)
                (String (pretty_N_char (x `mod` 10)) s))
      as (ds & Hgo & Hdig & Hval & _).
    destruct (pretty_N_char_digit (x `mod` 10)%N) as [Hc Hv].
    { apply N.mod_lt. lia. }
    exists (ds +:+ String (pretty_N_char (x `mod` 10)) "").
    split; [| split; [| split]].
    + rewrite Hgo, app_assoc_string. reflexivity.
    + rewrite all_digits_app, Hdig. simpl. now rewrite Hc.
    + intros acc. rewrite digits_value_app, Hval. simpl. rewrite Hv.
      rewrite length_app_string. simpl.
      replace (Z.of_nat (String.length ds + 1)) with (Z.of_nat (String.length ds) + 1)
        by lia.
      rewrite Z.pow_add_r by lia.
      pose proof (N.div_mod x 10) as Hdm.
      assert (Z.of_N x = 10 * Z.of_N (x `div` 10) + Z.of_N (x `mod` 10)) by lia.
      lia.
    + intros _. destruct ds; discriminate.
Qed.

(** [str(n)] for a natural number: its digits, at least one. *)
Lemma str_of_nonnegative n :
  0 <= n ->
  isdigit (str n) = true /\ digits_value 0 (str n) = n.
Proof.
  intros Hn. destruct n as [|p|p]; [split; reflexivity | | lia].
  unfold str, pretty, pretty_Z, pretty, pretty_positive, pretty, pretty_N.
  destruct (decide (N.pos p = 0%N)) as [E|_]; [discriminate |].
  destruct (pretty_N_go_spec (N.pos p) "") as (ds & Hgo & Hdig & Hval & Hne).
  rewrite Hgo.
  rewrite append_nil_r. split.
  - destruct ds as [|c ds]; [now destruct Hne |]. exact Hdig.
  - rewrite Hval. simpl. lia.
Qed.

Lemma str_of_negative p : str (Z.neg p) = String "-" (str (Z.pos p)).
Proof. reflexivity. Qed.

Lemma isdigit_all_digits s : isdigit s = true -> all_digits s = true.
Proof. destruct s; [discriminate | auto]. Qed.

Lemma all_digits_has_char c s :
  all_digits s = true -> has_char c s = true -> is_ascii_digit c = true.
Proof.
  induction s as [|c' s IH]; simpl; [discriminate |].
  intros Hd Hc. apply andb_true_iff in Hd as [Hd1 Hd2].
  apply orb_true_iff in Hc as [Hc|Hc]; [| auto].
  apply Ascii.eqb_eq in Hc. now subst.
Qed.

(** The characters of [str(n)] are digits, after a minus sign at most. *)
Lemma str_chars n c :
  has_char c (str n) = true -> is_ascii_digit c = true \/ c = "-"%char.
Proof.
  destruct n as [|p|p].
  - intros H. left. revert H. apply all_digits_has_char. reflexivity.
  - intros H. left. revert H. apply all_digits_has_char, isdigit_all_digits.
    apply (str_of_nonnegative (Z.pos p)). lia.
  - rewrite str_of_negative. simpl. intros H.
    apply orb_true_iff in H as [H|H].
    + right. now apply Ascii.eqb_eq in H.
    + left. revert H. apply all_digits_has_char, isdigit_all_digits.
      apply (str_of_nonnegative (Z.pos p)). lia.
Qed.

(** [int(str(n)) == n] *)
Lemma int_str n : int (str n) = Returns n.
Proof.
  destruct n as [|p|p].
  - reflexivity.
  - destruct (str_of_nonnegative (Z.pos p)) as [Hd Hv]; [lia |].
    unfold int. destruct (str (Z.pos p)) as [|c s] eqn:E; [discriminate |].
    assert (Hc : is_ascii_digit c = true).
    { simpl in Hd. now apply andb_true_iff in Hd as [Hd _]. }
    destruct (Ascii.eqb_spec c "-") as [->|Hne]; [discriminate |].
    assert (G : (if isdigit (String c s) then Returns (digits_value 0 (String c s))
                 else @Raises Z (Exn ValueError
                        ("invalid literal for int() with base 10: '" +:+ String c s +:+ "'")))
                = Returns (Z.pos p)).
    { rewrite Hd, Hv. reflexivity. }
    destruct c as [[] [] [] [] [] [] [] []]; try exact G. now destruct Hne.
  - destruct (str_of_nonnegative (Z.pos p)) as [Hd Hv]; [lia |].
    rewrite str_of_negative. unfold int. rewrite Hd, Hv. reflexivity.
Qed.

End PyStrFacts.

(** ** How methods end *)

Section OrderlyFacts.
Context {S D : Type}.
Implicit Types σ : St S D.

Lemma orderly_ret {A} x (a : A) : orderly x (@ret S D A a).
Proof. intros σ r σ' H. inversion H; subst. auto. Qed.

Lemma orderly_gets {A} x (f : S -> A) : orderly x (@gets S D A f).
Proof. intros σ r σ' H. inversion H; subst. auto. Qed.

Lemma orderly_modify x (f : S -> S) : orderly x (@modify S D f).
Proof. intros σ r σ' H. inversion H; subst. auto. Qed.

Lemma orderly_time_time x : orderly x (@time_time S D).
Proof. intros σ r σ' H. inversion H; subst. auto. Qed.

Lemma orderly_history_exists x : orderly x (@history_exists S D).
Proof. intros σ r σ' H. inversion H; subst. auto. Qed.

Lemma orderly_say x l : orderly x (@say S D l).
Proof. intros σ r σ' H. inversion H; subst. auto. Qed.

Lemma orderly_interact {A} x ev (answer : Env -> nat -> A) :
  orderly x (@interact S D A ev answer).
Proof. intros σ r σ' H. inversion H; subst. auto. Qed.

Lemma orderly_raise {A} e : is_Exception e = true -> orderly true (@raise S D A e).
Proof. intros He σ r σ' H. inversion H; subst. rewrite He. auto. Qed.

Lemma orderly_lift {A} (o : outcome A) :
  (forall e, o = Raises e -> is_Exception e = true) -> orderly true (@lift S D A o).
Proof.
  intros Ho σ r σ' H. unfold lift in H. destruct o as [a|e]; inversion H; subst.
  - auto.
  - rewrite (Ho e eq_refl). auto.
Qed.

Lemma orderly_call {A} ev (answer : Env -> nat -> outcome A) :
  (forall e n x, civil e -> answer e n = Raises x -> is_Exception x = true) ->
  orderly true (@call S D A ev answer).
Proof.
  intros Ha σ r σ' H. unfold call in H.
  destruct (answer _ _) as [a|e] eqn:E; inversion H; subst; simpl.
  - auto.
  - split; [reflexivity |].
    destruct (is_Exception e) eqn:He; [reflexivity |].
    intros C. rewrite (Ha _ _ _ C E) in He. discriminate.
Qed.

Lemma orderly_asyncio_sleep d : orderly false (@asyncio_sleep S D d).
Proof.
  intros σ r σ' H. unfold asyncio_sleep in H.
  destruct (env_sleep _ _) as [extra|after] eqn:E; inversion H; subst; simpl.
  - auto.
  - split; [reflexivity |]. intros C.
    destruct (civil_sleep _ C (tick (world σ))) as [extra E']. congruence.
Qed.

Lemma orderly_write_history doc : orderly true (@write_history S D doc).
Proof.
  intros σ r σ' H. unfold write_history in H.
  destruct (env_write _ _) as [[]|e] eqn:E; inversion H; subst; simpl.
  - auto.
  - split; [reflexivity |].
    destruct (is_Exception e) eqn:He; [reflexivity |].
    intros C. rewrite (civil_write _ C _ _ E) in He. discriminate.
Qed.

Lemma orderly_read_history : orderly true (@read_history S D).
Proof.
  intros σ r σ' H. unfold read_history in H.
  destruct (history_file _); inversion H; subst; simpl; auto.
Qed.

(** What is allowed without exceptions is allowed with them. *)
Lemma orderly_weaken {A} x (m : M S D A) : orderly false m -> orderly x m.
Proof.
  intros Hm σ r σ' H. destruct (Hm _ _ _ H) as [He Hr]. split; [exact He |].
  destruct r as [a|e|]; auto. destruct (is_Exception e); [discriminate | exact Hr].
Qed.

Lemma orderly_bind {A B} x (m : M S D A) (k : A -> M S D B) :
  orderly x m -> (forall a, orderly x (k a)) -> orderly x (bind m k).
Proof.
  intros Hm Hk σ r σ' H.
  destruct (bind_inv _ _ _ _ _ H) as [(a & σ1 & H1 & H2)|[(e & H1 & ->)|[H1 ->]]].
  - destruct (Hm _ _ _ H1) as [E1 _]. destruct (Hk _ _ _ _ H2) as [E2 Hr].
    split; [congruence |]. rewrite E1 in Hr. exact Hr.
  - exact (Hm _ _ _ H1).
  - exact (Hm _ _ _ H1).
Qed.

(** [except Exception] stops every exception the body is allowed. *)
Lemma orderly_except_Exception {A} x (m : M S D A) h :
  orderly true m -> (forall e, orderly x (h e)) ->
  orderly x (try_except m is_Exception h).
Proof.
  intros Hm Hh σ r σ' H.
  destruct (try_except_inv _ _ _ _ _ _ H)
    as [(a & H1 & ->)|[(e & σ1 & H1 & Hc & H2)|[(e & H1 & Hc & ->)|[H1 ->]]]].
  - destruct (Hm _ _ _ H1) as [E1 _]. auto.
  - destruct (Hm _ _ _ H1) as [E1 _]. destruct (Hh _ _ _ _ H2) as [E2 Hr].
    split; [congruence |]. rewrite E1 in Hr. exact Hr.
  - destruct (Hm _ _ _ H1) as [E1 Hr]. split; [exact E1 |].
    rewrite Hc in *. exact Hr.
  - exact (Hm _ _ _ H1).
Qed.

(** A handler for some exceptions lets the others through. *)
Lemma orderly_try_except {A} x (m : M S D A) catches h :
  orderly x m -> (forall e, orderly x (h e)) ->
  orderly x (try_except m catches h).
Proof.
  intros Hm Hh σ r σ' H.
  destruct (try_except_inv _ _ _ _ _ _ H)
    as [(a & H1 & ->)|[(e & σ1 & H1 & Hc & H2)|[(e & H1 & Hc & ->)|[H1 ->]]]].
  - destruct (Hm _ _ _ H1) as [E1 _]. auto.
  - destruct (Hm _ _ _ H1) as [E1 _]. destruct (Hh _ _ _ _ H2) as [E2 Hr].
    split; [congruence |]. rewrite E1 in Hr. exact Hr.
  - exact (Hm _ _ _ H1).
  - exact (Hm _ _ _ H1).
Qed.

(** A handler that reports what it caught and raises it again. *)
Lemma orderly_reraise {A} x (m : M S D A) catches (report : exn -> M S D unit) :
  orderly x m -> (forall e, orderly false (report e)) ->
  orderly x (try_except m catches (fun e => report e ;; raise e)).
Proof.
  intros Hm Hh σ r σ' H.
  destruct (try_except_inv _ _ _ _ _ _ H)
    as [(a & H1 & ->)|[(e & σ1 & H1 & Hc & H2)|[(e & H1 & Hc & ->)|[H1 ->]]]].
  - destruct (Hm _ _ _ H1) as [E1 _]. auto.
  - destruct (Hm _ _ _ H1) as [E1 Hr1].
    destruct (bind_inv _ _ _ _ _ H2) as [(u & σ2 & R1 & R2)|[(e' & R1 & ->)|[R1 ->]]].
    + destruct (Hh _ _ _ _ R1) as [E2 _]. inversion R2; subst.
      split; [congruence | exact Hr1].
    + destruct (Hh _ _ _ _ R1) as [E2 Hr2]. split; [congruence |].
      destruct (is_Exception e'); [discriminate |]. rewrite E1 in Hr2. exact Hr2.
    + destruct (Hh _ _ _ _ R1) as [_ []].
  - exact (Hm _ _ _ H1).
  - exact (Hm _ _ _ H1).
Qed.

Lemma orderly_try_finally {A} x (m : M S D A) fin :
  orderly x m -> orderly x fin -> orderly x (try_finally m fin).
Proof.
  intros Hm Hf σ r σ' H. unfold try_finally in H.
  destruct (m σ) as [[a|e|] σ1] eqn:E1.
  - destruct (Hm _ _ _ E1) as [Ee _].
    destruct (fin σ1) as [[u|e'|] σ2] eqn:E2; inversion H; subst;
      destruct (Hf _ _ _ E2) as [Ef Hr]; (split; [congruence |]); auto.
    rewrite Ee in Hr. exact Hr.
  - destruct (Hm _ _ _ E1) as [Ee Hre].
    destruct (fin σ1) as [[u|e'|] σ2] eqn:E2; inversion H; subst;
      destruct (Hf _ _ _ E2) as [Ef Hr]; (split; [congruence |]); auto.
    rewrite Ee in Hr. exact Hr.
  - destruct (Hm _ _ _ E1) as [_ []].
Qed.

Lemma orderly_for_each {A} x (xs : list A) (body : A -> M S D unit) :
  (forall a, orderly x (body a)) -> orderly x (for_each xs body).
Proof.
  intros Hb. induction xs as [|a xs IH]; simpl.
  - apply orderly_ret.
  - apply orderly_bind; auto.
Qed.

Lemma orderly_fold_each {A B} x (xs : list A) (acc : B) body :
  (forall a b, orderly x (body a b)) -> orderly x (@fold_each S D A B xs acc body).
Proof.
  intros Hb. revert acc. induction xs as [|a xs IH]; intros acc; simpl.
  - apply orderly_ret.
  - apply orderly_bind; auto.
Qed.

Lemma orderly_if {A} x (b : bool) (m1 m2 : M S D A) :
  orderly x m1 -> orderly x m2 -> orderly x (if b then m1 else m2).
Proof. destruct b; auto. Qed.

(** In a civil environment a method that is allowed no exception
    returns. *)
Lemma orderly_returns {A} (m : M S D A) σ :
  orderly false m -> civil (env (world σ)) ->
  exists a σ', m σ = (Ok a, σ') /\ env (world σ') = env (world σ).
Proof.
  intros Hm C. destruct (m σ) as [r σ'] eqn:E.
  destruct (Hm _ _ _ E) as [Ee Hr]. destruct r as [a|e|].
  - eauto.
  - destruct (is_Exception e); [discriminate | now destruct Hr].
  - destruct Hr.
Qed.

End OrderlyFacts.

(** Steps every method is made of. *)
Ltac orderly_step :=
  first
    [ match goal with
      | H : context [orderly] |- _ => first [ apply H | apply orderly_weaken; apply H ]
      end
    | apply orderly_ret
    | apply orderly_gets
    | apply orderly_modify
    | apply orderly_time_time
    | apply orderly_history_exists
    | apply orderly_say
    | apply orderly_interact
    | apply orderly_weaken; apply orderly_asyncio_sleep
    | apply orderly_asyncio_sleep
    | apply orderly_write_history
    | apply orderly_read_history
    | apply orderly_call;
      let e := fresh "e" in let n := fresh "n" in let x := fresh "x" in
      let C := fresh "C" in
      intros e n x C;
      first [ apply (civil_start _ C) | apply (civil_disconnect _ C)
            | apply (civil_get_entity _ C) | apply (civil_get_messages _ C)
            | apply (civil_download_media _ C) | apply (civil_send_file _ C)
            | apply (civil_send_message _ C) | apply (civil_delete_messages _ C)
            | apply (civil_getsize _ C) | apply (civil_remove _ C)
            | apply (civil_write _ C) | apply (civil_prompt _ C) ]
    | apply orderly_bind; [| intros ?]
    | apply orderly_for_each; intros ?
    | apply orderly_fold_each; intros ? ?
    | apply orderly_except_Exception; [| intros ?]
    | apply orderly_try_except; [| intros ?]
    | apply orderly_try_finally
    | apply orderly_raise; reflexivity
    | match goal with |- orderly _ (match ?x with _ => _ end) => destruct x end ].

Ltac orderly_auto := repeat orderly_step.

(** ** The forwarder contains the failures of its calls *)

Module ForwarderEnds.
Import Forwarder ForwarderSpec ForwarderLimiter ForwarderSkip.

Implicit Types σ : St TelegramForwarder history.







Lemma verify_permissions_orderly : orderly false verify_permissions.
Proof.
  unfold verify_permissions. orderly_auto.
Qed.

Lemma int_raises_ValueError s e : PyStr.int s = Raises e -> is_Exception e = true.
Proof.
  unfold PyStr.int. intros H.
  destruct s as [|c s']; [simpl in H; now inversion H |].
  destruct (Ascii.eqb_spec c "-") as [->|Hne].
  - destruct (PyStr.isdigit s'); inversion H. reflexivity.
  - assert (G : (if PyStr.isdigit (String c s')
                 then Returns (PyStr.digits_value 0 (String c s'))
                 else Raises (Exn ValueError
                        ("invalid literal for int() with base 10: '"
                           +:+ String c s' +:+ "'"))) = Raises e).
    { destruct c as [[] [] [] [] [] [] [] []]; try exact H. now destruct Hne. }
    destruct (PyStr.isdigit (String c s')); inversion G. reflexivity.
Qed.




End ForwarderEnds.

(** ** Frames *)

Section SelfFacts.
Context {S D : Type}.
Context (P : S -> S -> Prop).
Context (P_refl : forall s, P s s).
Context (P_trans : forall s1 s2 s3, P s1 s2 -> P s2 s3 -> P s1 s3).

Lemma on_self_refl (σ : St S D) : on_self P σ σ.
Proof using P_refl. apply P_refl. Qed.

Lemma on_self_trans (σ1 σ2 σ3 : St S D) :
  on_self P σ1 σ2 -> on_self P σ2 σ3 -> on_self P σ1 σ3.
Proof using P_trans. apply P_trans. Qed.

Lemma on_self_world (σ : St S D) g : on_self P σ (with_world g σ).
Proof using P_refl. apply P_refl. Qed.

Lemma on_self_quiet (σ : St S D) g : quiet g -> on_self P σ (with_world g σ).
Proof using P_refl. intros _. apply P_refl. Qed.


End SelfFacts.

(** The steps every method is made of respect a relation [R] that is
    reflexive ([Rr]), transitive ([Rt]) and kept by quiet steps of the
    world ([Rq]). *)
Ltac frame_step Rr Rt Rq :=
  first
    [ match goal with H : context [preserves] |- _ => apply H end
    | apply preserves_ret; exact Rr
    | apply preserves_raise; exact Rr
    | apply preserves_lift; exact Rr
    | apply preserves_gets; exact Rr
    | apply preserves_time_time; exact Rr
    | apply preserves_history_exists; exact Rr
    | apply preserves_say; exact Rq
    | apply preserves_call; exact Rq
    | apply preserves_interact; exact Rq
    | apply preserves_asyncio_sleep; exact Rq
    | apply preserves_read_history; exact Rq
    | apply preserves_bind; [exact Rt | | intros ?]
    | apply preserves_try_except; [exact Rt | | intros ?]
    | apply preserves_try_finally; [exact Rt | | ]
    | apply preserves_for_each; [exact Rr | exact Rt | intros ?]
    | apply preserves_fold_each; [exact Rr | exact Rt | intros ? ?]
    | match goal with |- preserves _ (match ?x with _ => _ end) => destruct x end ].

Ltac frame_auto Rr Rt Rq := repeat frame_step Rr Rt Rq.


(** ** The tally of the forwarder *)

Module ForwarderTally.
Import Forwarder ForwarderSpec ForwarderFrames ForwarderLimiter ForwarderSkip ForwarderEnds.

Implicit Types σ : St TelegramForwarder history.










End ForwarderTally.

(** ** What a run adds to the trace *)

Section FramedFacts.
Context {S D : Type}.
Context (P : S -> S -> Prop) (ok : event -> Prop).
Context (P_refl : forall s, P s s).
Context (P_trans : forall s1 s2 s3, P s1 s2 -> P s2 s3 -> P s1 s3).
Implicit Types σ : St S D.

Lemma emits_refl σ : emits ok σ σ.
Proof. exists []. split; [unfold added; now rewrite app_nil_r | constructor]. Qed.

Lemma emits_trans σ1 σ2 σ3 : emits ok σ1 σ2 -> emits ok σ2 σ3 -> emits ok σ1 σ3.
Proof.
  intros (l1 & H1 & F1) (l2 & H2 & F2). exists (l1 ++ l2)%list. split.
  - unfold added in *. rewrite H2, H1. now rewrite app_assoc.
  - apply Forall_app. auto.
Qed.

Lemma emits_one σ σ' ev : added σ σ' [ev] -> ok ev -> emits ok σ σ'.
Proof. intros H Hok. exists [ev]. split; [exact H | repeat constructor; exact Hok]. Qed.

Lemma framed_refl σ : framed P ok σ σ.
Proof using P_refl. split; [apply P_refl | apply emits_refl]. Qed.

Lemma framed_trans σ1 σ2 σ3 :
  framed P ok σ1 σ2 -> framed P ok σ2 σ3 -> framed P ok σ1 σ3.
Proof using P_trans.
  intros [A1 A2] [B1 B2]. split; [eapply P_trans; eauto | eapply emits_trans; eauto].
Qed.

Lemma framed_modify (f : S -> S) :
  (forall s, P s (f s)) -> preserves (framed P ok) (@modify S D f).
Proof.
  intros Hf σ r σ' H. inversion H; subst. split; [apply Hf |].
  exists []. split; [unfold added; simpl; now rewrite app_nil_r | constructor].
Qed.

Lemma framed_say l : ok (EvPrint l) -> preserves (framed P ok) (@say S D l).
Proof using P_refl.
  intros Hok σ r σ' H. inversion H; subst. split; [apply P_refl |].
  eapply emits_one; [reflexivity | exact Hok].
Qed.

Lemma framed_interact {A} ev (answer : Env -> nat -> A) :
  ok ev -> preserves (framed P ok) (@interact S D A ev answer).
Proof using P_refl.
  intros Hok σ r σ' H. inversion H; subst. split; [apply P_refl |].
  eapply emits_one; [reflexivity | exact Hok].
Qed.

Lemma framed_call {A} ev (answer : Env -> nat -> outcome A) :
  ok ev -> preserves (framed P ok) (@call S D A ev answer).
Proof using P_refl.
  intros Hok σ r σ' H. unfold call in H.
  destruct (answer _ _); inversion H; subst; (split; [apply P_refl |]);
    (eapply emits_one; [reflexivity | exact Hok]).
Qed.

Lemma framed_asyncio_sleep d :
  ok (EvSleep d) -> preserves (framed P ok) (@asyncio_sleep S D d).
Proof using P_refl.
  intros Hok σ r σ' H. unfold asyncio_sleep in H.
  destruct (env_sleep _ _); inversion H; subst; (split; [apply P_refl |]);
    (eapply emits_one; [reflexivity | exact Hok]).
Qed.

Lemma framed_write_history doc :
  ok EvWriteHistory -> preserves (framed P ok) (@write_history S D doc).
Proof using P_refl.
  intros Hok σ r σ' H. unfold write_history in H.
  destruct (env_write _ _); inversion H; subst; (split; [apply P_refl |]);
    (eapply emits_one; [reflexivity | exact Hok]).
Qed.

Lemma framed_read_history :
  ok EvReadHistory -> preserves (framed P ok) (@read_history S D).
Proof using P_refl.
  intros Hok σ r σ' H. unfold read_history in H.
  destruct (history_file _); inversion H; subst; (split; [apply P_refl |]);
    (eapply emits_one; [reflexivity | exact Hok]).
Qed.

End FramedFacts.

Create HintDb frames.

(** The steps every method is made of respect [framed P ok]; [Rr] and
    [Rt] say that it is reflexive and transitive, [okay] proves that an
    event satisfies [ok], and [upd] that an update of the object is one
    that [P] allows. *)
Ltac framed_step Rr Rt okay upd :=
  first
    [ match goal with H : context [preserves] |- _ => apply H end
    | apply preserves_ret; apply Rr
    | apply preserves_raise; apply Rr
    | apply preserves_lift; apply Rr
    | apply preserves_gets; apply Rr
    | apply preserves_time_time; apply Rr
    | apply preserves_history_exists; apply Rr
    | apply framed_say; [solve [auto with frames] | okay]
    | apply framed_call; [solve [auto with frames] | okay]
    | apply framed_interact; [solve [auto with frames] | okay]
    | apply framed_asyncio_sleep; [solve [auto with frames] | okay]
    | apply framed_write_history; [solve [auto with frames] | okay]
    | apply framed_read_history; [solve [auto with frames] | okay]
    | apply framed_modify; upd
    | apply preserves_bind; [apply Rt | | intros ?]
    | apply preserves_try_except; [apply Rt | | intros ?]
    | apply preserves_try_finally; [apply Rt | | ]
    | apply preserves_for_each; [apply Rr | apply Rt | intros ?]
    | apply preserves_fold_each; [apply Rr | apply Rt | intros ? ?]
    | match goal with |- preserves _ (match ?x with _ => _ end) => destruct x eqn:? end ].

Ltac framed_auto Rr Rt okay upd := repeat framed_step Rr Rt okay upd.

(** An event that writes to no chat. *)
Ltac writes_nowhere := intros ? ?; discriminate.

(** ** The chats the forwarder writes to *)

Section GetsFacts.
Context {S D : Type}.

(** A step that reads the object and goes on with what it read. *)
Lemma preserves_gets_then {A B} (R : St S D -> St S D -> Prop) (f : S -> A)
    (k : A -> M S D B) :
  (forall σ r σ', k (f (self σ)) σ = (r, σ') -> R σ σ') ->
  preserves R (bind (gets f) k).
Proof. intros Hk σ r σ' H. apply (Hk σ r σ'). exact H. Qed.

(** A loop whose body respects [R] on the elements of the list. *)
Lemma preserves_for_each_in {A} (R : St S D -> St S D -> Prop) (xs : list A)
    (body : A -> M S D unit) :
  (forall σ, R σ σ) ->
  (forall σ1 σ2 σ3, R σ1 σ2 -> R σ2 σ3 -> R σ1 σ3) ->
  (forall x, In x xs -> preserves R (body x)) ->
  preserves R (for_each xs body).
Proof.
  intros Rr Rt. induction xs as [|x xs IH]; intros Hb; simpl.
  - apply preserves_ret, Rr.
  - apply preserves_bind; [exact Rt | apply Hb; now left |].
    intros _. apply IH. intros y Hy. apply Hb. now right.
Qed.

End GetsFacts.

Module ForwarderWrites.
Import Forwarder ForwarderSpec ForwarderFrames.

Implicit Types σ : St TelegramForwarder history.

Lemma within_refl tgts σ : within tgts σ σ.
Proof. apply framed_refl. reflexivity. Qed.

Lemma within_trans tgts σ1 σ2 σ3 :
  within tgts σ1 σ2 -> within tgts σ2 σ3 -> within tgts σ1 σ3.
Proof. apply framed_trans. intros s1 s2 s3 H1 H2. congruence. Qed.

(** An event that writes to the chat of [target], one of [tgts]. *)
Ltac writes_to_target :=
  first
    [ writes_nowhere
    | let chat := fresh "chat" in
      let Hc := fresh "Hc" in
      intros chat Hc; inversion Hc; subst; eexists; split; [eassumption | reflexivity] ].

Ltac within_auto :=
  framed_auto within_refl within_trans writes_to_target ltac:(intros ?; reflexivity).

Lemma wait_within tgts : preserves (within tgts) _wait_for_rate_limit.
Proof. unfold _wait_for_rate_limit. within_auto. Qed.

Lemma save_history_within tgts : preserves (within tgts) save_history.
Proof. unfold save_history. within_auto. Qed.

Lemma print_progress_within tgts : preserves (within tgts) print_progress.
Proof. unfold print_progress. within_auto. Qed.

Lemma forward_message_within tgts source target m :
  In target tgts -> preserves (within tgts) (forward_message source target m).
Proof.
  intros Hin.
  pose proof (wait_within tgts) as Hw. pose proof (save_history_within tgts) as Hs.
  unfold forward_message. within_auto.
Qed.

Lemma within_targets_refl σ : within_targets σ σ.
Proof. apply within_refl. Qed.

Lemma within_targets_trans σ1 σ2 σ3 :
  within_targets σ1 σ2 -> within_targets σ2 σ3 -> within_targets σ1 σ3.
Proof.
  unfold within_targets. intros H12 H23.
  apply within_trans with σ2; [exact H12 |].
  destruct H12 as [E _]. unfold on_self in E. rewrite <- E. exact H23.
Qed.

Lemma from_within {A} (m : Method A) :
  (forall tgts, preserves (within tgts) m) -> preserves within_targets m.
Proof. intros H σ r σ' Hm. exact (H _ _ _ _ Hm). Qed.

Ltac within_targets_auto :=
  repeat first
    [ match goal with H : context [preserves] |- _ => apply H end
    | solve [apply from_within; intros ?; within_auto]
    | apply preserves_bind; [exact within_targets_trans | | intros ?]
    | apply preserves_try_except; [exact within_targets_trans | | intros ?]
    | apply preserves_for_each; [exact within_targets_refl | exact within_targets_trans | intros ?]
    | match goal with |- preserves _ (match ?x with _ => _ end) => destruct x end ].

Lemma forward_messages_body_within source source_id m :
  preserves within_targets (forward_messages_body source source_id m).
Proof.
  unfold forward_messages_body.
  apply preserves_try_except; [exact within_targets_trans | | intros e].
  2:{ apply from_within. intros tgts. within_auto. }
  apply preserves_bind;
    [exact within_targets_trans | apply from_within, wait_within | intros _].
  apply preserves_bind;
    [exact within_targets_trans | apply from_within; intros tgts; within_auto | intros h].
  destruct (h !! dedup_key source_id (msg_id m)).
  { apply from_within. intros tgts. within_auto. }
  apply preserves_gets_then. intros σ r σ' H.
  match type of H with
  | ?m σ = _ => assert (G : preserves (within (targets (self σ))) m)
  end.
  { pose proof (save_history_within (targets (self σ))) as Hs.
    pose proof (print_progress_within (targets (self σ))) as Hp.
    apply preserves_bind; [apply within_trans | | intros _; within_auto].
    apply preserves_for_each_in; [apply within_refl | apply within_trans |].
    intros target Hin.
    pose proof (forward_message_within (targets (self σ)) source target m Hin) as Hf.
    within_auto. }
  exact (G σ r σ' H).
Qed.

Lemma forward_messages_within source limit offset_id :
  preserves within_targets (forward_messages source limit offset_id).
Proof.
  pose proof (forward_messages_body_within source) as Hb.
  unfold forward_messages.
  apply preserves_try_finally;
    [exact within_targets_trans | | apply from_within, print_progress_within].
  within_targets_auto.
Qed.

Lemma verify_permissions_within : preserves within_targets verify_permissions.
Proof.
  unfold verify_permissions.
  apply preserves_bind;
    [exact within_targets_trans | apply from_within; intros tgts; within_auto | intros srcs].
  apply preserves_bind;
    [exact within_targets_trans | apply from_within; intros tgts; within_auto | intros _].
  apply preserves_gets_then. intros σ r σ' H.
  match type of H with
  | ?m σ = _ => assert (G : preserves (within (targets (self σ))) m)
  end.
  { apply preserves_for_each_in; [apply within_refl | apply within_trans |].
    intros target Hin. within_auto. }
  exact (G σ r σ' H).
Qed.

End ForwarderWrites.

Module ForwarderSession.
Import Forwarder ForwarderSpec ForwarderFrames ForwarderGrowth ForwarderWrites.

Implicit Types σ : St TelegramForwarder history.

Lemma test_single_message_within : preserves within_targets test_single_message.
Proof.
  unfold test_single_message, press_enter.
  apply preserves_try_except; [exact within_targets_trans | | intros e].
  2:{ apply from_within. intros tgts. within_auto. }
  apply preserves_bind;
    [exact within_targets_trans | apply from_within; intros tgts; within_auto | intros srcs].
  apply preserves_gets_then. intros σ r σ' H.
  match type of H with
  | ?m σ = _ => assert (G : preserves (within (targets (self σ))) m)
  end.
  { destruct srcs as [|source srcs]; [within_auto |].
    destruct (targets (self σ)) as [|t0 tgts] eqn:Et; [within_auto |].
    rewrite <- Et.
    apply preserves_bind; [apply within_trans | within_auto | intros messages].
    destruct messages as [|message messages]; [within_auto |].
    apply preserves_bind; [apply within_trans | | intros _; within_auto].
    apply preserves_for_each_in; [apply within_refl | apply within_trans |].
    intros target Hin.
    pose proof (forward_message_within (targets (self σ)) source target message Hin) as Hf.
    within_auto. }
  exact (G σ r σ' H).
Qed.

Lemma interactive_menu_within rounds : preserves within_targets (interactive_menu rounds).
Proof.
  induction rounds as [|rounds IH]; cbn [interactive_menu].
  - apply preserves_unfinished, within_targets_refl.
  - pose proof test_single_message_within as Ht.
    pose proof verify_permissions_within as Hv.
    pose proof forward_messages_within as Hf.
    unfold press_enter. within_targets_auto.
Qed.

Lemma writes_within_more tgts tgts' ev :
  (forall t, In t tgts -> In t tgts') -> writes_within tgts ev -> writes_within tgts' ev.
Proof. intros Hsub H chat Hc. destruct (H chat Hc) as (t & Ht & E). eauto. Qed.

Lemma emits_more {S D} (ok ok' : event -> Prop) (σ σ' : St S D) :
  (forall ev, ok ev -> ok' ev) -> emits ok σ σ' -> emits ok' σ σ'.
Proof.
  intros Hok (evs & Ha & Hf). exists evs. split; [exact Ha |].
  eapply Forall_impl; [exact Hf | exact Hok].
Qed.

Lemma grows_within_refl σ : grows_within σ σ.
Proof.
  split; [exists []; split; [now rewrite app_nil_r | constructor] | apply emits_refl].
Qed.

Lemma grows_within_trans σ1 σ2 σ3 :
  grows_within σ1 σ2 -> grows_within σ2 σ3 -> grows_within σ1 σ3.
Proof.
  intros [(m1 & E1 & F1) W1] [(m2 & E2 & F2) W2]. split.
  - exists (m1 ++ m2)%list. split; [rewrite E2, E1; now rewrite app_assoc |].
    apply Forall_app. auto.
  - eapply emits_trans; [| exact W2].
    eapply emits_more; [| exact W1].
    intros ev. apply writes_within_more. intros t Ht. rewrite E2.
    apply in_or_app. now left.
Qed.

Lemma from_within_targets {A} (m : Method A) :
  preserves within_targets m -> preserves grows_within m.
Proof.
  intros H σ r σ' Hm. destruct (H _ _ _ Hm) as [E W]. unfold on_self in E. split.
  - exists []. split; [now rewrite app_nil_r | constructor].
  - rewrite E. exact W.
Qed.

Lemma more_targets_refl s : more_targets s s.
Proof. exists []. split; [now rewrite app_nil_r | constructor]. Qed.

#[local] Hint Resolve more_targets_refl : frames.

Lemma more_targets_trans s1 s2 s3 :
  more_targets s1 s2 -> more_targets s2 s3 -> more_targets s1 s3.
Proof.
  intros (m1 & E1 & F1) (m2 & E2 & F2). exists (m1 ++ m2)%list.
  split; [rewrite E2, E1; now rewrite app_assoc | apply Forall_app; auto].
Qed.

Lemma resolver_writes_nowhere name :
  preserves (framed more_targets (fun ev => written_chat ev = None))
    (_get_entity_from_name name).
Proof.
  set (R := framed (D := history) more_targets (fun ev => written_chat ev = None)).
  assert (Rr : forall σ, R σ σ) by (intros; apply framed_refl, more_targets_refl).
  assert (Rt : forall σ1 σ2 σ3, R σ1 σ2 -> R σ2 σ3 -> R σ1 σ3)
    by (intros ? ? ?; apply framed_trans, more_targets_trans).
  assert (Htry : forall cs, preserves R (try_candidates cs)).
  { induction cs as [|c cs IH]; cbn [try_candidates].
    - apply preserves_ret, Rr.
    - framed_auto Rr Rt ltac:(reflexivity) ltac:(intros ?; apply more_targets_refl). }
  unfold _get_entity_from_name, numeric_candidates.
  framed_auto Rr Rt ltac:(reflexivity) ltac:(intros ?; apply more_targets_refl).
Qed.

Lemma initialize_channels_writes_nowhere :
  preserves (framed more_targets (fun ev => written_chat ev = None)) initialize_channels.
Proof.
  set (R := framed (D := history) more_targets (fun ev => written_chat ev = None)).
  assert (Rr : forall σ, R σ σ) by (intros; apply framed_refl, more_targets_refl).
  assert (Rt : forall σ1 σ2 σ3, R σ1 σ2 -> R σ2 σ3 -> R σ1 σ3)
    by (intros ? ? ?; apply framed_trans, more_targets_trans).
  pose proof resolver_writes_nowhere as Hres.
  unfold initialize_channels.
  framed_auto Rr Rt ltac:(reflexivity)
    ltac:(intros ?;
          first [ exists []; split; [simpl; now rewrite app_nil_r | constructor]
                | eexists [_]; split; [reflexivity | repeat constructor; assumption] ]).
Qed.

Lemma initialize_channels_grows : preserves grows_within initialize_channels.
Proof.
  intros σ r σ' H.
  destruct (initialize_channels_writes_nowhere _ _ _ H) as [Hm W]. split; [exact Hm |].
  eapply emits_more; [| exact W].
  intros ev Hev chat Hc. congruence.
Qed.

Lemma main_body_grows rounds : preserves grows_within (main_body rounds).
Proof.
  assert (Q : forall A (m : Method A),
            (forall tgts, preserves (within tgts) m) -> preserves grows_within m).
  { intros A m H. apply from_within_targets, from_within, H. }
  unfold main_body, session, finalizer.
  apply preserves_try_finally; [exact grows_within_trans | |].
  - apply preserves_try_except; [exact grows_within_trans | | intros e].
    + apply preserves_bind; [exact grows_within_trans | | intros _].
      { apply Q. intros tgts. within_auto. }
      apply preserves_bind;
        [exact grows_within_trans | exact initialize_channels_grows | intros _].
      apply from_within_targets, interactive_menu_within.
    + apply Q. intros tgts. within_auto.
  - apply Q. intros tgts. pose proof (save_history_within tgts) as Hs. within_auto.
Qed.

(** *** The history never forgets a key *)

Lemma keeps_keys_refl s : keeps_keys s s.
Proof. intros k Hk. exact Hk. Qed.

Lemma keeps_keys_trans s1 s2 s3 : keeps_keys s1 s2 -> keeps_keys s2 s3 -> keeps_keys s1 s3.
Proof. intros H1 H2 k Hk. apply H2, H1, Hk. Qed.

#[local] Hint Resolve keeps_keys_refl : frames.

Ltac keeps_keys_auto Rr Rt :=
  framed_auto Rr Rt ltac:(exact I)
    ltac:(let s := fresh "s" in let k := fresh "k" in let Hk := fresh "Hk" in
          intros s k Hk; simpl;
          first [ exact Hk | apply lookup_insert_is_Some'; right; exact Hk ]).

Lemma save_history_keeps_keys :
  preserves (framed (D := history) keeps_keys (fun _ => True)) save_history.
Proof.
  set (R := framed (D := history) keeps_keys (fun _ => True)).
  assert (Rr : forall σ, R σ σ) by (intros; apply framed_refl, keeps_keys_refl).
  assert (Rt : forall σ1 σ2 σ3, R σ1 σ2 -> R σ2 σ3 -> R σ1 σ3)
    by (intros ? ? ?; apply framed_trans, keeps_keys_trans).
  unfold save_history. keeps_keys_auto Rr Rt.
Qed.

Lemma session_keeps_keys rounds :
  preserves (framed keeps_keys (fun _ => True)) (session rounds).
Proof.
  set (R := framed (D := history) keeps_keys (fun _ => True)).
  assert (Rr : forall σ, R σ σ) by (intros; apply framed_refl, keeps_keys_refl).
  assert (Rt : forall σ1 σ2 σ3, R σ1 σ2 -> R σ2 σ3 -> R σ1 σ3)
    by (intros ? ? ?; apply framed_trans, keeps_keys_trans).
  assert (Hw : preserves R _wait_for_rate_limit).
  { unfold _wait_for_rate_limit. keeps_keys_auto Rr Rt. }
  pose proof save_history_keeps_keys as Hs.
  assert (Hp : preserves R print_progress).
  { unfold print_progress. keeps_keys_auto Rr Rt. }
  assert (Hf : forall source target m, preserves R (forward_message source target m)).
  { intros. unfold forward_message. keeps_keys_auto Rr Rt. }
  assert (Hb : forall source source_id m,
            preserves R (forward_messages_body source source_id m)).
  { intros. unfold forward_messages_body. keeps_keys_auto Rr Rt. }
  assert (Hfs : forall source limit offset_id,
            preserves R (forward_messages source limit offset_id)).
  { intros. unfold forward_messages. keeps_keys_auto Rr Rt. }
  assert (Hv : preserves R verify_permissions).
  { unfold verify_permissions. keeps_keys_auto Rr Rt. }
  assert (Ht : preserves R test_single_message).
  { unfold test_single_message, press_enter. keeps_keys_auto Rr Rt. }
  assert (Hm : forall n, preserves R (interactive_menu n)).
  { induction n as [|n IH]; cbn [interactive_menu].
    - apply preserves_unfinished, Rr.
    - unfold press_enter. keeps_keys_auto Rr Rt. }
  assert (Htry : forall cs, preserves R (try_candidates cs)).
  { induction cs as [|c cs IH]; cbn [try_candidates].
    - apply preserves_ret, Rr.
    - keeps_keys_auto Rr Rt. }
  assert (Hres : forall name, preserves R (_get_entity_from_name name)).
  { intros. unfold _get_entity_from_name, numeric_candidates. keeps_keys_auto Rr Rt. }
  assert (Hi : preserves R initialize_channels).
  { unfold initialize_channels. keeps_keys_auto Rr Rt. }
  unfold session. keeps_keys_auto Rr Rt.
Qed.

Lemma main_body_keeps_keys rounds :
  preserves (framed keeps_keys (fun _ => True)) (main_body rounds).
Proof.
  set (R := framed (D := history) keeps_keys (fun _ => True)).
  assert (Rr : forall σ, R σ σ) by (intros; apply framed_refl, keeps_keys_refl).
  assert (Rt : forall σ1 σ2 σ3, R σ1 σ2 -> R σ2 σ3 -> R σ1 σ3)
    by (intros ? ? ?; apply framed_trans, keeps_keys_trans).
  pose proof save_history_keeps_keys as Hs.
  pose proof session_keeps_keys as Hse.
  unfold main_body, finalizer. keeps_keys_auto Rr Rt.
Qed.

(** *** The end of a session *)

(** The handler of [main] catches every exception. *)
Lemma main_catches_all e :
  is_CancelledError e || is_KeyboardInterrupt e || is_Exception e = true.
Proof. destruct e as [[] msg]; reflexivity. Qed.

(** The finalizer starts with the write of the history file, and goes on
    to disconnect unless the write raised something that is not an
    [Exception]. *)
Lemma finalizer_trace σ r σ' :
  finalizer σ = (r, σ') ->
  r <> Unfinished
  /\ exists after,
       added σ σ' (EvWriteHistory :: after)
       /\ (In EvDisconnect after \/ exists e, r = Raise e /\ is_Exception e = false).
Proof.
  unfold finalizer, save_history, try_except, bind, gets, write_history, call, say.
  cbn [with_world world self log env tick advance store].
  destruct (env_write _ _) as [[]|e] eqn:Ew.
  - cbn [with_world world self log env tick advance store trace].
    destruct (env_disconnect _ _) as [[]|e'] eqn:Ed; intros H; inversion H; subst;
      (split; [discriminate |]); unfold added; simpl;
      eexists; (split; [rewrite <- ?app_assoc; reflexivity |]); left; simpl; auto.
  - destruct (is_Exception e) eqn:Ee.
    + cbn [with_world world self log env tick advance store trace].
      destruct (env_disconnect _ _) as [[]|e'] eqn:Ed; intros H; inversion H; subst;
        (split; [discriminate |]); unfold added; simpl;
        eexists; (split; [rewrite <- ?app_assoc; reflexivity |]); left; simpl; auto.
    + intros H; inversion H; subst. split; [discriminate |].
      exists []. unfold added. simpl. split; [reflexivity |]. right. eauto.
Qed.

(** However the session ends, [main] goes on to its finalizer. *)
Lemma main_body_reaches_finalizer rounds σ r σ' :
  main_body rounds σ = (r, σ') ->
  r <> Unfinished ->
  exists σ1, emits (fun _ => True) σ σ1 /\ finalizer σ1 = (r, σ').
Proof.
  intros H Hr. unfold main_body, try_finally in H.
  match type of H with
  | context [try_except ?m ?c ?h σ] =>
      destruct (try_except m c h σ) as [r1 σ1] eqn:E1
  end.
  assert (Hem : emits (fun _ => True) σ σ1).
  { destruct (try_except_inv _ _ _ _ _ _ E1)
      as [(a & H1 & _)|[(e & σ0 & H1 & _ & H2)|[(e & H1 & _)|[H1 _]]]].
    - exact (proj2 (session_keeps_keys _ _ _ _ H1)).
    - apply emits_trans with σ0; [exact (proj2 (session_keeps_keys _ _ _ _ H1)) |].
      destruct (is_CancelledError e); [| destruct (is_KeyboardInterrupt e)];
        inversion H2; subst; (eapply emits_one; [reflexivity | exact I]).
    - exact (proj2 (session_keeps_keys _ _ _ _ H1)).
    - exact (proj2 (session_keeps_keys _ _ _ _ H1)). }
  exists σ1. split; [exact Hem |].
  destruct r1 as [[]|e|].
  - destruct (finalizer σ1) as [[[]|e'|] σ2]; inversion H; subst; reflexivity.
  - destruct (try_except_inv _ _ _ _ _ _ E1)
      as [(a & _ & Ha)|[(e0 & σ0 & H1 & _ & H2)|[(e0 & H1 & Hc & _)|[_ Hu]]]];
      try discriminate.
    + destruct (is_CancelledError e0); [| destruct (is_KeyboardInterrupt e0)];
        inversion H2.
    + rewrite main_catches_all in Hc. discriminate.
  - inversion H; subst. now destruct Hr.
Qed.

End ForwarderSession.

Module ForwarderPass.
Import Forwarder ForwarderSpec ForwarderFrames ForwarderEnds ForwarderTally.

Implicit Types σ : St TelegramForwarder history.



End ForwarderPass.

(** ** Keys of the history and the resume offset *)

Module KeyFacts.
Import PyStr PyStrFacts Forwarder.

Lemma rev_app_app (s1 s2 acc : string) :
  String.rev_app (s1 +:+ s2) acc = String.rev_app s2 (String.rev_app s1 acc).
Proof.
  revert acc. induction s1 as [|c s1 IH]; intros acc; [reflexivity |].
  rewrite append_cons. simpl. apply IH.
Qed.

Lemma rev_app_rev_app (s a b : string) :
  String.rev_app (String.rev_app s a) b = String.rev_app a (s +:+ b).
Proof.
  revert a b. induction s as [|c s IH]; intros a b; [reflexivity |].
  simpl. rewrite IH. reflexivity.
Qed.

Lemma rev_involutive (s : string) : String.rev (String.rev s) = s.
Proof. unfold String.rev. rewrite rev_app_rev_app. simpl. apply append_nil_r. Qed.

Lemma eqb_sym_ascii (a b : ascii) : Ascii.eqb a b = Ascii.eqb b a.
Proof.
  destruct (Ascii.eqb_spec a b) as [E|H].
  - subst b. now rewrite Ascii.eqb_refl.
  - destruct (Ascii.eqb_spec b a) as [E|H']; [congruence | reflexivity].
Qed.

(** Splitting at the first separator. *)
Lemma split_aux_cons sep (s1 s2 cur : string) :
  has_char sep s1 = false ->
  split_aux sep cur (s1 +:+ String sep s2)
  = String.rev (String.rev_app s1 cur) :: split_aux sep "" s2.
Proof.
  revert cur. induction s1 as [|c s1 IH]; intros cur H.
  - simpl. now rewrite Ascii.eqb_refl.
  - rewrite append_cons. simpl in *.
    apply orb_false_iff in H as [H1 H2].
    rewrite eqb_sym_ascii, H1. apply IH, H2.
Qed.

Lemma split_aux_last sep (s cur : string) :
  has_char sep s = false ->
  split_aux sep cur s = [String.rev (String.rev_app s cur)].
Proof.
  revert cur. induction s as [|c s IH]; intros cur H; [reflexivity |].
  simpl in *. apply orb_false_iff in H as [H1 H2].
  rewrite eqb_sym_ascii, H1. apply IH, H2.
Qed.

Lemma split_cons sep (s1 s2 : string) :
  has_char sep s1 = false ->
  split sep (s1 +:+ String sep s2) = s1 :: split sep s2.
Proof.
  intros H. unfold split. rewrite (split_aux_cons _ _ _ _ H).
  change (String.rev_app s1 "") with (String.rev s1). now rewrite rev_involutive.
Qed.

Lemma split_last sep (s : string) : has_char sep s = false -> split sep s = [s].
Proof.
  intros H. unfold split. rewrite (split_aux_last _ _ _ H).
  change (String.rev_app s "") with (String.rev s). now rewrite rev_involutive.
Qed.

(** A decimal numeral holds no character that is neither a digit nor a
    minus sign. *)
Lemma str_has_no c n :
  is_ascii_digit c = false -> c <> "-"%char -> has_char c (str n) = false.
Proof.
  intros Hd Hm. destruct (has_char c (str n)) eqn:E; [| reflexivity].
  destruct (str_chars _ _ E) as [H|H]; congruence.
Qed.

Lemma startswith_app p s : startswith p (p +:+ s) = true.
Proof.
  induction p as [|c p IH]; [reflexivity |].
  rewrite append_cons. simpl. now rewrite Ascii.eqb_refl.
Qed.

(** The message id read off a key is the one the key was made from. *)
Lemma key_message_id_dedup_key source_id id :
  key_message_id (dedup_key (str source_id) id) = Returns id.
Proof.
  unfold key_message_id, dedup_key.
  change (str source_id +:+ "_" +:+ str id) with (str source_id +:+ String "_" (str id)).
  rewrite split_cons by (apply str_has_no; [reflexivity | discriminate]).
  rewrite split_last by (apply str_has_no; [reflexivity | discriminate]).
  apply int_str.
Qed.

Lemma dedup_key_inj source_id id id' :
  dedup_key source_id id = dedup_key source_id id' -> id = id'.
Proof.
  unfold dedup_key. intros H.
  apply (inj (String.app source_id)) in H. apply (inj (String.app "_")) in H.
  exact (pretty_Z_inj _ _ H).
Qed.

(** [max(xs)] of a non-empty list is one of its elements, and the
    largest. *)
Lemma fold_left_max_spec (xs : list Z) x :
  let m := fold_left Z.max xs x in
  (m = x \/ In m xs) /\ x <= m /\ Forall (fun y => y <= m) xs.
Proof.
  revert x. induction xs as [|y xs IH]; intros x; simpl.
  - split; [now left |]. split; [lia | constructor].
  - destruct (IH (Z.max x y)) as (Hin & Hge & Hall).
    split; [| split].
    + destruct Hin as [E|Hin]; [| right; now right].
      rewrite E. destruct (Z.max_spec x y) as [[_ ->]|[_ ->]]; [right; now left | now left].
    + lia.
    + constructor; [lia | exact Hall].
Qed.

Lemma collect_returns {A} (g : A -> outcome Z) (f : A -> Z) (l : list A) :
  (forall k, In k l -> g k = Returns (f k)) ->
  collect (map g l) = Returns (map f l).
Proof.
  induction l as [|k l IH]; intros H; [reflexivity |].
  simpl. rewrite (H k (or_introl eq_refl)), IH; [reflexivity |].
  intros k' Hk'. apply H. now right.
Qed.

Lemma in_keys_starting_with (h : history) source_id k :
  In k (keys_starting_with h source_id)
  <-> is_Some (h !! k) /\ startswith (str source_id) k = true.
Proof.
  unfold keys_starting_with. rewrite filter_In, in_map_iff. split.
  - intros [([k' v] & E & Hin) Hs]. simpl in E. subst k'. split; [| exact Hs].
    apply list_elem_of_In, elem_of_map_to_list in Hin. rewrite Hin. eauto.
  - intros [[v Hv] Hs]. split; [| exact Hs].
    exists (k, v). split; [reflexivity |].
    apply list_elem_of_In, elem_of_map_to_list, Hv.
Qed.

(** The offset, when every key that starts with the source's id is a key
    of that source. *)
Lemma resume_offset_spec (h : history) source_id :
  (forall k, is_Some (h !! k) -> startswith (str source_id) k = true ->
     exists id, k = dedup_key (str source_id) id) ->
  exists m,
    resume_offset h source_id = Returns m
    /\ (forall id, is_Some (h !! dedup_key (str source_id) id) -> id <= m)
    /\ (is_Some (h !! dedup_key (str source_id) m)
        \/ (m = 0 /\ forall id, h !! dedup_key (str source_id) id = None)).
Proof.
  intros Hown.
  set (f := fun k => match key_message_id k with Returns n => n | Raises _ => 0 end).
  assert (Hkeys : forall k, In k (keys_starting_with h source_id) ->
            exists id, k = dedup_key (str source_id) id /\ f k = id
                       /\ key_message_id k = Returns (f k)).
  { intros k Hk. apply in_keys_starting_with in Hk as [Hs Hp].
    destruct (Hown k Hs Hp) as [id ->]. exists id.
    unfold f. rewrite key_message_id_dedup_key. auto. }
  assert (Hin : forall id, is_Some (h !! dedup_key (str source_id) id) ->
            In id (map f (keys_starting_with h source_id))).
  { intros id Hs. apply in_map_iff. exists (dedup_key (str source_id) id). split.
    - unfold f. now rewrite key_message_id_dedup_key.
    - apply in_keys_starting_with. split; [exact Hs |].
      unfold dedup_key. apply startswith_app. }
  unfold resume_offset.
  rewrite (collect_returns key_message_id f)
    by (intros k Hk; destruct (Hkeys k Hk) as (? & _ & _ & E); exact E).
  destruct (keys_starting_with h source_id) as [|k0 keys] eqn:Ek.
  - exists 0. split; [reflexivity |]. split.
    + intros id Hs. destruct (Hin id Hs).
    + right. split; [reflexivity |]. intros id.
      destruct (h !! dedup_key (str source_id) id) eqn:E; [| reflexivity].
      destruct (Hin id). rewrite E. eauto.
  - cbn [map py_max].
    destruct (fold_left_max_spec (map f keys) (f k0)) as (Hm & Hge & Hall).
    set (m := fold_left Z.max (map f keys) (f k0)) in *.
    exists m. split; [reflexivity |]. split.
    + intros id Hs. destruct (Hin id Hs) as [E|Hi]; [lia |].
      rewrite Forall_forall in Hall. apply Hall, list_elem_of_In, Hi.
    + left.
      assert (Hmk : exists k, In k (k0 :: keys) /\ f k = m).
      { destruct Hm as [E|Hi].
        - exists k0. split; [now left | now symmetry].
        - apply in_map_iff in Hi as (k & E & Hk). exists k. split; [now right | exact E]. }
      destruct Hmk as (k & Hk & E).
      destruct (Hkeys k Hk) as (id & -> & Hid & _).
      assert (id = m) by congruence. subst id.
      rewrite <- Ek in Hk. apply in_keys_starting_with in Hk as [Hs _]. exact Hs.
Qed.

(** *** [int] on the numerals the scripts write *)

Lemma has_char_rev_app c (s acc : string) :
  has_char c (String.rev_app s acc) = has_char c s || has_char c acc.
Proof.
  revert acc. induction s as [|c' s IH]; intros acc; [reflexivity |].
  simpl. rewrite IH. simpl.
  now destruct (Ascii.eqb c c'), (has_char c s), (has_char c acc).
Qed.

Lemma lstrip_none p (s : string) :
  (forall c, has_char c s = true -> p c = false) -> lstrip p s = s.
Proof.
  destruct s as [|c s]; [reflexivity |]. intros H. simpl.
  rewrite (H c); [reflexivity |]. simpl. now rewrite Ascii.eqb_refl.
Qed.

(** Stripping a string that holds none of the characters to strip. *)
Lemma strip_none p (s : string) :
  (forall c, has_char c s = true -> p c = false) -> strip p s = s.
Proof.
  intros H. unfold strip. rewrite (lstrip_none p s H).
  rewrite lstrip_none; [apply rev_involutive |].
  intros c Hc. unfold String.rev in Hc. rewrite has_char_rev_app in Hc.
  simpl in Hc. rewrite orb_false_r in Hc. auto.
Qed.

Lemma digit_not_space c : is_ascii_digit c = true -> is_space c = false.
Proof.
  unfold is_ascii_digit, is_space. intros H.
  apply andb_true_iff in H as [H1 H2].
  apply Nat.leb_le in H1. apply Nat.leb_le in H2.
  destruct (Nat.leb_spec 9 (nat_of_ascii c)); [| lia].
  destruct (Nat.leb_spec (nat_of_ascii c) 13); [lia |].
  destruct (Nat.leb_spec 28 (nat_of_ascii c)); [| lia].
  destruct (Nat.leb_spec (nat_of_ascii c) 32); [lia | reflexivity].
Qed.

Lemma str_no_space n c : has_char c (str n) = true -> is_space c = false.
Proof.
  intros H. destruct (str_chars _ _ H) as [Hd| ->]; [apply digit_not_space, Hd | reflexivity].
Qed.

Lemma grouped_all_digits s : all_digits s = true -> grouped_digits true s = true.
Proof.
  induction s as [|c s IH]; [reflexivity |]. simpl. intros H.
  apply andb_true_iff in H as [H1 H2]. rewrite H1. auto.
Qed.

Lemma filter_all_digits s : all_digits s = true -> filter is_ascii_digit s = s.
Proof.
  induction s as [|c s IH]; [reflexivity |]. simpl. intros H.
  apply andb_true_iff in H as [H1 H2]. rewrite H1, IH; auto.
Qed.

(** [int(str(n)) == n], for [int] on arbitrary text. *)
Lemma int_literal_str n : int_literal (str n) = Returns n.
Proof.
  unfold int_literal. rewrite (strip_none is_space (str n) (str_no_space n)).
  destruct n as [|p|p].
  - reflexivity.
  - destruct (str_of_nonnegative (Z.pos p)) as [Hd Hv]; [lia |].
    destruct (str (Z.pos p)) as [|c s] eqn:E; [discriminate |].
    assert (Hc : is_ascii_digit c = true).
    { simpl in Hd. now apply andb_true_iff in Hd as [Hd _]. }
    assert (G : (if grouped_digits false (String c s)
                 then Returns (digits_value 0 (filter is_ascii_digit (String c s)))
                 else @Raises Z (Exn ValueError
                        ("invalid literal for int() with base 10: '"
                           +:+ String c s +:+ "'"))) = Returns (Z.pos p)).
    { assert (Hall : all_digits s = true).
      { simpl in Hd. now apply andb_true_iff in Hd as [_ Hd]. }
      cbn [grouped_digits]. rewrite Hc, (grouped_all_digits _ Hall).
      rewrite filter_all_digits by (simpl; now rewrite Hc, Hall).
      now rewrite Hv. }
    destruct (Ascii.eqb_spec c "-") as [->|Hm]; [discriminate |].
    destruct (Ascii.eqb_spec c "+") as [->|Hp]; [discriminate |].
    destruct c as [[] [] [] [] [] [] [] []]; try exact G;
      [now destruct Hp | now destruct Hm].
  - destruct (str_of_nonnegative (Z.pos p)) as [Hd Hv]; [lia |].
    rewrite str_of_negative.
    destruct (str (Z.pos p)) as [|c s] eqn:E; [discriminate |].
    assert (Hc : is_ascii_digit c = true).
    { simpl in Hd. now apply andb_true_iff in Hd as [Hd _]. }
    assert (Hall : all_digits s = true).
    { simpl in Hd. now apply andb_true_iff in Hd as [_ Hd]. }
    cbn [grouped_digits]. rewrite Hc, (grouped_all_digits _ Hall).
    rewrite filter_all_digits by (simpl; now rewrite Hc, Hall).
    now rewrite Hv.
Qed.

End KeyFacts.

(** ** The uploader *)

Module UploaderEnds.
Import Uploader UploaderSpec UploaderFrames UploaderWrites.

Implicit Types σ : St TelegramUploader history.

Lemma uploader_try_candidates_orderly cs : orderly true (try_candidates cs).
Proof.
  induction cs as [|c cs IH]; cbn [try_candidates]; orderly_auto.
Qed.

Lemma uploader_resolver_orderly name : orderly true (_get_entity_from_name name).
Proof.
  pose proof uploader_try_candidates_orderly as Ht.
  unfold _get_entity_from_name, numeric_candidates. orderly_auto.
  all: apply orderly_lift; intros e; apply ForwarderEnds.int_raises_ValueError.
Qed.

Lemma initialize_targets_orderly : orderly false initialize_targets.
Proof.
  pose proof uploader_resolver_orderly as Hr.
  unfold initialize_targets. orderly_auto.
Qed.

Lemma upload_file_orderly filepath target : orderly false (upload_file filepath target).
Proof. unfold upload_file, save_history. orderly_auto. Qed.

Lemma upload_all_orderly files last_update : orderly false (upload_all files last_update).
Proof.
  pose proof upload_file_orderly as Hu.
  unfold upload_all, print_progress. orderly_auto.
Qed.

Lemma start_upload_orderly files : orderly false (start_upload files).
Proof.
  pose proof upload_all_orderly as Hu.
  unfold start_upload, print_progress. orderly_auto.
Qed.

(** [resume_upload] reads the object and the listing, nothing else. *)
Lemma resume_upload_runs files σ :
  resume_upload files σ =
    (Ok (match last_file (stats (self σ)) with
         | Some (String c name' as name) =>
             match PyStr.index name (map file_name files) with
             | Returns last_idx => skipn (last_idx + 1) files
             | Raises _ => files
             end
         | _ => files
         end), σ).
Proof.
  unfold resume_upload, bind, gets.
  destruct (last_file (stats (self σ))) as [[|c name']|]; simpl; try reflexivity.
  unfold try_except, bind, lift, ret.
  destruct (PyStr.index (String c name') (map file_name files)) as [i|e] eqn:E.
  - reflexivity.
  - assert (Hv : is_ValueError e = true).
    { clear -E. revert e E. induction (map file_name files) as [|y l IH]; intros e E.
      - inversion E. reflexivity.
      - simpl in E. destruct (String.eqb y (String c name')); [discriminate |].
        destruct (PyStr.index (String c name') l); [discriminate |].
        inversion E; subst. apply IH. reflexivity. }
    rewrite Hv. reflexivity.
Qed.

(** Where [index] finds a name. *)
Lemma index_spec name (l : list string) :
  match PyStr.index name l with
  | Returns i =>
      exists before after,
        l = (before ++ name :: after)%list /\ List.length before = i /\ ~ In name before
  | Raises _ => ~ In name l
  end.
Proof.
  induction l as [|y l IH]; simpl.
  - intros [].
  - destruct (String.eqb_spec y name) as [->|Hne].
    + exists [], l. auto.
    + destruct (PyStr.index name l) as [i|e].
      * destruct IH as (before & after & -> & Hlen & Hnot).
        exists (y :: before), after. simpl. split; [reflexivity |]. split; [lia |].
        intros [E|Hin]; [congruence | auto].
      * intros [E|Hin]; [congruence | auto].
Qed.

Lemma skipn_past {A} (before : list A) x after :
  skipn (List.length before + 1) (before ++ x :: after) = after.
Proof. induction before as [|y before IH]; simpl; auto. Qed.

(** The three counters of the uploader, together. *)
Lemma upload_file_tally filepath target σ b σ' :
  upload_file filepath target σ = (Ok b, σ') ->
  writes_succeed (env (world σ)) ->
  uploaded (stats (self σ')) + skipped (stats (self σ')) + failed (stats (self σ'))
  = uploaded (stats (self σ)) + skipped (stats (self σ)) + failed (stats (self σ)) + 1
  /\ uploaded (stats (self σ')) = uploaded (stats (self σ)) + (if b then 1 else 0)
  /\ skipped (stats (self σ)) <= skipped (stats (self σ'))
  /\ failed (stats (self σ)) <= failed (stats (self σ'))
  /\ (b = true ->
      already_uploaded (upload_history (self σ')) (PyStr.str (ent_id target))
        (file_key filepath) = true
      /\ history_file (world σ') = Json (upload_history (self σ'))).
Proof.
  intros H W. unfold upload_file, bind at 1, gets at 1 in H. cbn [self] in H.
  destruct (already_uploaded _ _ _) eqn:Ea.
  { inversion H; subst. simpl. repeat split; first [lia | discriminate]. }
  unfold try_except, bind at 1, call at 1 in H.
  destruct (env_send_file _ _ _ _) as [sent|e] eqn:Es.
  - unfold bind at 1, gets at 1 in H.
    destruct (upload_history (self (with_world (advance _) σ)) !! _) as [files|] eqn:El;
      unfold save_history in H;
      unfold bind, modify, ret, time_time, gets, write_history, say in H; simpl in H;
      rewrite (W (Datatypes.S (tick (world σ)))) in H; inversion H; subst; simpl;
      (split; [lia |]); (split; [lia |]); (split; [lia |]); (split; [lia |]);
      intros _; (split; [| reflexivity]); unfold already_uploaded.
    + simpl in El. rewrite lookup_alter_eq, El. simpl.
      apply bool_decide_eq_true. rewrite lookup_insert_eq. eauto.
    + rewrite lookup_alter_eq, lookup_insert_eq. simpl.
      apply bool_decide_eq_true. rewrite lookup_insert_eq. eauto.
  - destruct (is_Exception e); [| discriminate].
    unfold bind, say, modify, ret in H. simpl in H. inversion H; subst. simpl.
    repeat split; first [lia | discriminate].
Qed.

(** A send that succeeds followed by a history write that fails: the file
    counts as uploaded and as failed, and is recorded in memory but not on
    disk. *)
Lemma upload_file_unsaved filepath target σ sent e :
  already_uploaded (upload_history (self σ)) (PyStr.str (ent_id target))
    (file_key filepath) = false ->
  env_send_file (env (world σ)) (tick (world σ)) (IdInt (ent_id target))
    (file_path filepath) = Returns sent ->
  env_write (env (world σ)) (Datatypes.S (tick (world σ))) = Raises e ->
  is_Exception e = true ->
  exists σ',
    upload_file filepath target σ = (Ok false, σ')
    /\ uploaded (stats (self σ')) = uploaded (stats (self σ)) + 1
    /\ failed (stats (self σ')) = failed (stats (self σ)) + 1
    /\ skipped (stats (self σ')) = skipped (stats (self σ))
    /\ already_uploaded (upload_history (self σ')) (PyStr.str (ent_id target))
         (file_key filepath) = true
    /\ history_file (world σ') = history_file (world σ).
Proof.
  intros Hn Hs Hw He.
  unfold upload_file, bind at 1, gets at 1. cbn [self]. rewrite Hn.
  unfold try_except, bind at 1, call at 1. rewrite Hs.
  unfold bind at 1, gets at 1.
  destruct (upload_history (self (with_world (advance _) σ)) !! _) as [files|] eqn:El;
    unfold save_history;
    unfold bind, modify, ret, time_time, gets, write_history, say;
    simpl; rewrite Hw, He; simpl;
    (eexists; split; [reflexivity |]); simpl;
    (split; [reflexivity |]); (split; [reflexivity |]); (split; [reflexivity |]);
    (split; [| reflexivity]); unfold already_uploaded.
  - simpl in El. rewrite lookup_alter_eq, El. simpl.
    apply bool_decide_eq_true. rewrite lookup_insert_eq. eauto.
  - rewrite lookup_alter_eq, lookup_insert_eq. simpl.
    apply bool_decide_eq_true. rewrite lookup_insert_eq. eauto.
Qed.

Lemma uploader_within_refl tgts σ : within tgts σ σ.
Proof. apply framed_refl. reflexivity. Qed.

Lemma uploader_within_trans tgts σ1 σ2 σ3 :
  within tgts σ1 σ2 -> within tgts σ2 σ3 -> within tgts σ1 σ3.
Proof. apply framed_trans. intros s1 s2 s3 H1 H2. congruence. Qed.

Ltac within_auto :=
  framed_auto uploader_within_refl uploader_within_trans ForwarderWrites.writes_to_target
    ltac:(intros ?; reflexivity).

Lemma upload_file_within tgts filepath target :
  In target tgts -> preserves (within tgts) (upload_file filepath target).
Proof. intros Hin. unfold upload_file, save_history. within_auto. Qed.

(** The loop over the targets, for one file. *)
Lemma uploader_targets_loop_tally file (tgts : list entity) σ :
  civil (env (world σ)) ->
  writes_succeed (env (world σ)) ->
  exists σ',
    for_each tgts (fun target =>
      upload_file file target ;; asyncio_sleep (2 * second)) σ = (Ok tt, σ')
    /\ env (world σ') = env (world σ)
    /\ targets (self σ') = targets (self σ)
    /\ uploaded (stats (self σ')) + skipped (stats (self σ')) + failed (stats (self σ'))
       = uploaded (stats (self σ)) + skipped (stats (self σ)) + failed (stats (self σ))
         + Z.of_nat (List.length tgts)
    /\ uploaded (stats (self σ)) <= uploaded (stats (self σ'))
    /\ skipped (stats (self σ)) <= skipped (stats (self σ'))
    /\ failed (stats (self σ)) <= failed (stats (self σ')).
Proof.
  revert σ. induction tgts as [|target tgts IH]; intros σ C W.
  - exists σ. split; [reflexivity |]. simpl. repeat split; lia.
  - destruct (orderly_returns (upload_file file target) σ
                (upload_file_orderly file target) C) as (b & σ1 & Hu & He1).
    destruct (upload_file_tally _ _ _ _ _ Hu W) as (Hsum1 & Hup1 & Hsk1 & Hfl1 & _).
    destruct (upload_file_within [target] file target (or_introl eq_refl) _ _ _ Hu)
      as [Ht1 _]. unfold on_self in Ht1.
    assert (C1 : civil (env (world σ1))) by (rewrite He1; exact C).
    destruct (civil_sleep _ C1 (tick (world σ1))) as [extra Hx].
    set (σ2 := with_world (pass_time (Z.max 0 (2 * second) + Z.of_N extra)
                             (EvSleep (2 * second))) σ1).
    destruct (IH σ2) as (σ' & Hrun & He & Ht & Hsum & Hup & Hsk & Hfl).
    { exact C1. }
    { subst σ2. simpl. rewrite He1. exact W. }
    exists σ'. split.
    + cbn [for_each]. unfold bind at 1. unfold bind at 1. rewrite Hu.
      unfold asyncio_sleep at 1. rewrite Hx. fold σ2. exact Hrun.
    + rewrite He, Ht, Hsum. subst σ2. simpl in *. rewrite He1, Ht1.
      repeat split; try lia. destruct b; lia.
Qed.

(** The loop over the files. *)
Lemma upload_all_tally (files : list local_file) : forall last_update σ,
  civil (env (world σ)) ->
  writes_succeed (env (world σ)) ->
  exists last_update' σ',
    upload_all files last_update σ = (Ok last_update', σ')
    /\ env (world σ') = env (world σ)
    /\ targets (self σ') = targets (self σ)
    /\ uploaded (stats (self σ')) + skipped (stats (self σ')) + failed (stats (self σ'))
       = uploaded (stats (self σ)) + skipped (stats (self σ)) + failed (stats (self σ))
         + Z.of_nat (List.length files) * Z.of_nat (List.length (targets (self σ)))
    /\ uploaded (stats (self σ)) <= uploaded (stats (self σ'))
    /\ skipped (stats (self σ)) <= skipped (stats (self σ'))
    /\ failed (stats (self σ)) <= failed (stats (self σ')).
Proof.
  induction files as [|file files IH]; intros last_update σ C W.
  - exists last_update, σ. split; [reflexivity |]. simpl. repeat split; lia.
  - destruct (uploader_targets_loop_tally file (targets (self σ)) σ C W)
      as (σ1 & Hloop & He1 & Ht1 & Hsum1 & Hup1 & Hsk1 & Hfl1).
    set (due := 120 * second <=? now (world σ1) - last_update).
    set (σ2 := if due then with_world (log (EvPrint Progress)) σ1 else σ1).
    set (lu := if due then now (world σ1) else last_update).
    assert (Hstep : (let* t := time_time in
                     if 120 * second <=? t - last_update
                     then print_progress ;; time_time
                     else ret last_update) σ1 = (Ok lu, σ2)).
    { unfold bind, time_time, print_progress, say, ret. fold due. subst σ2 lu.
      destruct due; reflexivity. }
    assert (H2 : self σ2 = self σ1 /\ env (world σ2) = env (world σ1)).
    { subst σ2. destruct due; auto. }
    destruct H2 as [Hs2 He2].
    destruct (IH lu σ2) as (lu' & σ' & Hrun & He & Ht & Hsum & Hup & Hsk & Hfl).
    { rewrite He2, He1. exact C. }
    { rewrite He2, He1. exact W. }
    exists lu', σ'. split.
    + unfold upload_all. cbn [fold_each]. unfold bind at 1. unfold bind at 1, gets at 1.
      unfold bind at 1. rewrite Hloop. rewrite Hstep. exact Hrun.
    + rewrite He, Ht, Hsum, Hs2, He2, He1, Ht1. rewrite Hs2 in *.
      repeat split; try lia. cbn [List.length]. nia.
Qed.

(** *** What the uploader keeps and where it writes *)

Lemma keeps_files_refl s : keeps_files s s.
Proof. intros t k H. exact H. Qed.

Lemma keeps_files_trans s1 s2 s3 :
  keeps_files s1 s2 -> keeps_files s2 s3 -> keeps_files s1 s3.
Proof. intros H1 H2 t k H. apply H2, H1, H. Qed.

(** Recording a file under a target keeps what was recorded. *)
Lemma already_uploaded_recorded (h : history) target_id file_hash m t k :
  already_uploaded h t k = true ->
  already_uploaded
    (alter (<[file_hash := m]>) target_id
       (match h !! target_id with Some _ => h | None => <[target_id := ∅]> h end)) t k
  = true.
Proof.
  unfold already_uploaded.
  destruct (decide (t = target_id)) as [->|Hne].
  - rewrite lookup_alter_eq. destruct (h !! target_id) as [files|] eqn:E; [| discriminate].
    rewrite E. simpl. rewrite !bool_decide_eq_true. intros Hk.
    apply lookup_insert_is_Some'. now right.
  - rewrite lookup_alter_ne by congruence.
    destruct (h !! target_id); [auto |]. rewrite lookup_insert_ne by congruence. auto.
Qed.

Lemma upload_file_keeps_files filepath target :
  preserves (on_self keeps_files) (upload_file filepath target).
Proof.
  intros σ r σ' H. unfold on_self.
  unfold upload_file, bind at 1, gets at 1 in H. cbn [self] in H.
  destruct (already_uploaded _ _ _).
  { inversion H; subst. intros t k Hk. exact Hk. }
  unfold try_except, bind at 1, call at 1 in H.
  destruct (env_send_file _ _ _ _) as [sent|e] eqn:Es.
  - unfold bind at 1, gets at 1 in H.
    pose proof (already_uploaded_recorded (upload_history (self σ))
                  (PyStr.str (ent_id target)) (file_key filepath)) as Hrec.
    destruct (upload_history (self (with_world (advance _) σ)) !! _) as [files|] eqn:El;
      simpl in El; rewrite El in Hrec;
      unfold save_history in H;
      unfold bind, modify, ret, time_time, gets, write_history, say in H; simpl in H;
      destruct (env_write _ _) as [[]|e]; try destruct (is_Exception e);
      inversion H; subst; intros t k Hk; simpl; apply Hrec, Hk.
  - destruct (is_Exception e).
    + unfold bind, say, modify, ret in H. simpl in H. inversion H; subst.
      intros t k Hk. exact Hk.
    + inversion H; subst. intros t k Hk. exact Hk.
Qed.

Lemma start_upload_keeps_files files :
  preserves (on_self keeps_files) (start_upload files).
Proof.
  pose proof (on_self_refl (D := history) keeps_files keeps_files_refl) as Rr.
  pose proof (on_self_trans (D := history) keeps_files keeps_files_trans) as Rt.
  pose proof (on_self_quiet (D := history) keeps_files keeps_files_refl) as Rq.
  pose proof upload_file_keeps_files as Hu.
  unfold start_upload, upload_all, print_progress. frame_auto Rr Rt Rq.
Qed.

Lemma uploader_within_targets_refl σ : within_targets σ σ.
Proof. apply uploader_within_refl. Qed.

Lemma uploader_within_targets_trans σ1 σ2 σ3 :
  within_targets σ1 σ2 -> within_targets σ2 σ3 -> within_targets σ1 σ3.
Proof.
  unfold within_targets. intros H12 H23.
  apply uploader_within_trans with σ2; [exact H12 |].
  destruct H12 as [E _]. unfold on_self in E. rewrite <- E. exact H23.
Qed.

Lemma uploader_from_within {A} (m : Method A) :
  (forall tgts, preserves (within tgts) m) -> preserves within_targets m.
Proof. intros H σ r σ' Hm. exact (H _ _ _ _ Hm). Qed.

Lemma upload_all_within files last_update :
  preserves within_targets (upload_all files last_update).
Proof.
  unfold upload_all.
  apply preserves_fold_each;
    [exact uploader_within_targets_refl | exact uploader_within_targets_trans | intros file lu].
  apply preserves_gets_then. intros σ r σ' H.
  match type of H with
  | ?m σ = _ => assert (G : preserves (within (targets (self σ))) m)
  end.
  { apply preserves_bind; [apply uploader_within_trans | | intros _; unfold print_progress; within_auto].
    apply preserves_for_each_in; [apply uploader_within_refl | apply uploader_within_trans |].
    intros target Hin.
    pose proof (upload_file_within (targets (self σ)) file target Hin) as Hu.
    within_auto. }
  exact (G σ r σ' H).
Qed.

Lemma start_upload_within files : preserves within_targets (start_upload files).
Proof.
  pose proof upload_all_within as Hu.
  unfold start_upload.
  apply preserves_bind;
    [exact uploader_within_targets_trans | apply uploader_from_within; intros tgts; within_auto | intros tgts].
  destruct tgts as [|t tgts]; [apply uploader_from_within; intros ?; within_auto |].
  destruct files as [|f files]; [apply uploader_from_within; intros ?; within_auto |].
  apply preserves_bind;
    [exact uploader_within_targets_trans | apply uploader_from_within; intros ?; within_auto | intros t0].
  apply preserves_bind; [exact uploader_within_targets_trans | apply Hu | intros _].
  apply uploader_from_within. intros ?. unfold print_progress. within_auto.
Qed.

End UploaderEnds.

(** ** The e-book downloader *)

Module ScrapperFacts.
Import PyStr PyStrFacts KeyFacts Scrapper ScrapperNames.

Implicit Types σ : St TelegramDownloader unit.

(** *** E-book formats *)

Lemma ebook_attribute_supported names ext :
  ebook_attribute names = Some ext -> In ext (map snd EBOOK_FORMATS).
Proof.
  induction names as [|name names IH]; [discriminate |].
  cbn [ebook_attribute].
  destruct (bool_decide _) eqn:E.
  - intros H. inversion H; subst. apply bool_decide_eq_true in E.
    apply list_elem_of_In, E.
  - exact IH.
Qed.

Lemma is_ebook_supported message ext :
  is_ebook message = Some ext -> In ext (map snd EBOOK_FORMATS).
Proof.
  unfold is_ebook. destruct message as [m|]; [| discriminate].
  destruct (msg_document m) as [doc|]; [| discriminate].
  destruct (find _ EBOOK_FORMATS) as [kv|] eqn:E.
  - intros H. inversion H; subst. apply find_some in E as [Hin _].
    apply in_map, Hin.
  - apply ebook_attribute_supported.
Qed.

(** A known MIME type decides, whatever the attributes say. *)
Lemma is_ebook_by_mime_type m doc mime ext :
  msg_document m = Some doc ->
  mime_type doc = mime ->
  In (mime, ext) EBOOK_FORMATS ->
  is_ebook (Some m) = Some ext.
Proof.
  intros Hd Hm Hin. unfold is_ebook. rewrite Hd, Hm.
  simpl in Hin.
  destruct Hin as [E|[E|[E|[E|[]]]]]; inversion E; subst; reflexivity.
Qed.

(** *** File names *)

Lemma has_char_filter p c s : has_char c (filter p s) = true -> p c = true.
Proof.
  induction s as [|c' s IH]; simpl; [discriminate |].
  destruct (p c') eqn:E; [| exact IH].
  simpl. intros H. apply orb_true_iff in H as [H|H]; [| auto].
  apply Ascii.eqb_eq in H. now subst.
Qed.

Lemma digit_is_alnum c : is_ascii_digit c = true -> is_alnum c = true.
Proof. unfold is_ascii_digit, is_alnum. intros ->. reflexivity. Qed.

Lemma generate_filename_shape message ext :
  exists safe,
    generate_filename message ext = str (msg_id message) +:+ "_" +:+ safe
    /\ forall c, has_char c safe = true -> safe_char c = true.
Proof.
  unfold generate_filename. eexists. split; [reflexivity |].
  intros c H. apply has_char_filter in H. exact H.
Qed.

Lemma generate_filename_chars message ext c :
  has_char c (generate_filename message ext) = true -> safe_char c = true.
Proof.
  destruct (generate_filename_shape message ext) as (safe & -> & Hs).
  rewrite !has_char_app. intros H.
  apply orb_true_iff in H as [H|H]; [| apply orb_true_iff in H as [H|H]].
  - destruct (str_chars _ _ H) as [Hd| ->]; [| reflexivity].
    unfold safe_char. now rewrite (digit_is_alnum _ Hd).
  - simpl in H. rewrite orb_false_r in H. apply Ascii.eqb_eq in H. now subst.
  - apply Hs, H.
Qed.

(** *** The scan of the downloads folder *)

Lemma filter_app p (s1 s2 : string) : filter p (s1 +:+ s2) = filter p s1 +:+ filter p s2.
Proof.
  induction s1 as [|c s1 IH]; [reflexivity |].
  rewrite append_cons. simpl. destruct (p c); [rewrite append_cons |]; now rewrite IH.
Qed.

(** The name made up for a message without a file name. *)
Lemma generate_filename_unnamed m ext :
  unnamed m ->
  exists rest,
    generate_filename m ext
    = str (msg_id m) +:+ String "_" ("ebook" +:+ String "_" rest).
Proof.
  intros Hu. unfold generate_filename.
  assert (E : match msg_document m with
              | Some doc => default "" (head (file_names doc))
              | None => ""
              end = "").
  { unfold unnamed in Hu. destruct (msg_document m); auto. }
  rewrite E. cbn [String.eqb].
  change ("ebook_" +:+ str (msg_id m) +:+ ext)
    with ("ebook_" +:+ (str (msg_id m) +:+ ext)).
  rewrite filter_app. eexists. reflexivity.
Qed.

(** A pass of the scan over an entry whose name was made up: nothing is
    added to the processed ids. *)
Lemma scan_made_up_name (e : dir_entry) m ext acc σ r σ' :
  unnamed m ->
  entry_name e = generate_filename m ext ->
  (let '(existing_files, total_size, file_count) := acc in
   if endswith_any (map snd EBOOK_FORMATS) (lower (entry_name e)) then
     let* file_hash := get_file_hash e in
     let acc' :=
       match file_hash with
       | Some (String _ _ as h) =>
           (<[h := entry_name e]> existing_files,
            total_size + entry_size e, file_count + 1)
       | _ => acc
       end in
     try_except
       (match split "_" (entry_name e) with
        | _ :: part :: _ =>
            let* msg_id :=
              match split "." part with
              | first :: _ => lift (int_literal first)
              | [] => raise (Exn IndexError "list index out of range")
              end in
            if 0 <? msg_id
            then modify (set_processed_ids (fun ids => {[msg_id]} ∪ ids))
            else ret tt
        | _ => ret tt
        end)
       (fun ex => is_ValueError ex || is_IndexError ex)
       (fun _ => ret tt) ;;
     ret acc'
   else ret acc : Method (gmap string string * Z * Z)) σ = (r, σ') ->
  σ' = σ.
Proof.
  intros Hu Hn. destruct acc as [[existing_files total_size] file_count].
  destruct (generate_filename_unnamed m ext Hu) as [rest Hname].
  rewrite Hn, Hname.
  rewrite split_cons by (apply str_has_no; [reflexivity | discriminate]).
  rewrite (split_cons "_" "ebook" rest) by reflexivity.
  destruct (endswith_any _ _); [| intros H; now inversion H].
  unfold bind at 1, get_file_hash, try_except at 1, bind at 1, lift at 1.
  destruct (entry_hash e) as [h|ex].
  - unfold ret at 1. unfold bind, try_except, lift, ret. simpl.
    intros H. now inversion H.
  - destruct (is_Exception ex).
    + unfold ret at 1. unfold bind, try_except, lift, ret. simpl.
      intros H. now inversion H.
    + intros H. now inversion H.
Qed.

Lemma fold_each_unchanged {S D A B} (xs : list A) (body : A -> B -> M S D B) :
  (forall x acc (s : St S D) r s', In x xs -> body x acc s = (r, s') -> s' = s) ->
  forall acc (s : St S D) r s', fold_each xs acc body s = (r, s') -> s' = s.
Proof.
  induction xs as [|x xs IH]; intros Hb acc s r s' H.
  - now inversion H.
  - cbn [fold_each] in H.
    destruct (bind_inv _ _ _ _ _ H) as [(a & s1 & H1 & H2)|[(e & H1 & _)|[H1 _]]].
    + apply (Hb _ _ _ _ _ (or_introl eq_refl)) in H1. subst s1.
      eapply IH; [| exact H2].
      intros y acc' t r' t' Hy Hrun. exact (Hb y acc' t r' t' (or_intror Hy) Hrun).
    + exact (Hb _ _ _ _ _ (or_introl eq_refl) H1).
    + exact (Hb _ _ _ _ _ (or_introl eq_refl) H1).
Qed.

End ScrapperFacts.

(** * Further properties of the forwarder *)













